(** * Transformer language-model tutorial: batching, masking, training loop

    A shallow embedding of [transformer_tutorial_from_pytorch.ipynb].

    - Python integers are [Z]; [//] and [%] are [Z.div] and [Z.modulo]
      (same rounding and sign conventions) guarded against a zero divisor.
    - Python floats (losses) are binary64 primitive floats, so comparisons
      with [inf] and [nan] behave as in the interpreter; [math.exp] raises
      on a finite loss whose exponential is out of the binary64 range.
    - Learning rates are exact rationals: the statements about them are
      about the values that the floating-point computations round.
    - The positional table is a float32 tensor: a float32 value is the
      real number it denotes, and the float32 arithmetic of the tensor
      library (rounding and the exponential, sine and cosine kernels) is a
      parameter, of which the statements assume a stated accuracy.
    - A 2-D tensor is its shape together with its row-major storage.
    - Exceptions are a [result] type; the interpreter state touched by the
      training cell (the model object, the optimizer, the scheduler, the
      printed lines) is threaded explicitly.
    - The network body (embedding, encoder stack, decoder, log-softmax), the
      loss criterion and the SGD update are parameters of the development. *)

From Stdlib Require Import ZArith List Lia Bool Arith.
From Stdlib Require Import QArith.
From Stdlib Require Import PrimFloat Uint63.
From Stdlib Require Import Reals Lra.
Import ListNotations.

Local Open Scope Z_scope.

(** ** Exceptions *)

Inductive exn : Type :=
| ZeroDivisionError
| ValueError
| RuntimeError
| AttributeError
| OverflowError.

Inductive result (A : Type) : Type :=
| Ok (a : A)
| Raise (e : exn).

Arguments Ok {A} a.
Arguments Raise {A} e.

Definition bind {A B : Type} (m : result A) (k : A -> result B) : result B :=
  match m with
  | Ok a => k a
  | Raise e => Raise e
  end.

Declare Scope res_scope.
Delimit Scope res_scope with res.
Notation "x <- m ;; k" := (bind m (fun x => k))
  (at level 61, m at next level, right associativity) : res_scope.

(** ** Python integer helpers *)

Module Py.

(** [a // b] *)
Definition floordiv (a b : Z) : result Z :=
  if b =? 0 then Raise ZeroDivisionError else Ok (a / b).

(** [a % b] *)
Definition mod_ (a b : Z) : result Z :=
  if b =? 0 then Raise ZeroDivisionError else Ok (a mod b).

(** Number of elements of [range(start, stop, step)] for [step <> 0]. *)
Definition range_len (start stop step : Z) : nat :=
  if 0 <? step then Z.to_nat ((stop - start + step - 1) / step)
  else Z.to_nat ((start - stop - step - 1) / (- step)).

(** [list(range(start, stop, step))]; a zero step is a [ValueError]. *)
Definition range (start stop step : Z) : result (list Z) :=
  if step =? 0 then Raise ValueError
  else Ok (map (fun k => start + Z.of_nat k * step)
               (seq 0 (range_len start stop step))).

(** Bounds of the slice [lo:hi] of a sequence of length [n]: negative
    indices count from the end, and both ends are clamped to [0, n]. *)
Definition clamp (n idx : Z) : Z :=
  if idx <? 0 then Z.max (idx + n) 0 else Z.min idx n.

Definition slice_bounds (n lo hi : Z) : nat * nat :=
  let lo' := clamp n lo in
  let hi' := clamp n hi in
  (Z.to_nat lo', Z.to_nat (hi' - lo')).

End Py.

(** ** Tensors *)

Record Tensor2 (A : Type) : Type := mkTensor2 {
  size0 : nat;
  size1 : nat;
  storage : list A
}.

Arguments mkTensor2 {A} size0 size1 storage.
Arguments size0 {A} t.
Arguments size1 {A} t.
Arguments storage {A} t.

Module Tensor.
Section Ops.
Context {A : Type}.
Variable d : A.

Definition wf (M : Tensor2 A) : Prop :=
length (storage M) = (size0 M * size1 M)%nat.

(** Element at row [r], column [c]. *)
Definition get (M : Tensor2 A) (r c : nat) : A :=
nth (r * size1 M + c) (storage M) d.

(** [len(M)] *)
Definition len (M : Tensor2 A) : Z := Z.of_nat (size0 M).

(** [data.narrow(0, start, length)] on a 1-D tensor. *)
Definition narrow (data : list A) (start length : Z) : result (list A) :=
if (start <? 0) || (length <? 0)
   || (Z.of_nat (List.length data) <? start + length)
then Raise RuntimeError
else Ok (firstn (Z.to_nat length) (skipn (Z.to_nat start) data)).

(** [data.view(d0, -1)]: the second extent is inferred. *)
Definition view_rows (data : list A) (d0 : Z) : result (Tensor2 A) :=
if d0 <=? 0 then Raise RuntimeError
else if Z.of_nat (List.length data) mod d0 =? 0
then Ok (mkTensor2 (Z.to_nat d0)
                   (Z.to_nat (Z.of_nat (List.length data) / d0)) data)
else Raise RuntimeError.

(** [M.t().contiguous()] *)
Definition t_contiguous (M : Tensor2 A) : Tensor2 A :=
mkTensor2 (size1 M) (size0 M)
  (flat_map (fun r => map (fun c => get M c r) (seq 0 (size0 M)))
            (seq 0 (size1 M))).

(** The columns of [M] one after the other. *)
Definition columns (M : Tensor2 A) : list A :=
flat_map (fun c => map (fun r => get M r c) (seq 0 (size0 M)))
         (seq 0 (size1 M)).

(** [M[lo:hi]] along dimension 0. *)
Definition slice_rows (M : Tensor2 A) (lo hi : Z) : Tensor2 A :=
let '(start, count) := Py.slice_bounds (len M) lo hi in
mkTensor2 count (size1 M)
  (firstn (count * size1 M) (skipn (start * size1 M) (storage M))).

(** [M.view(-1)] *)
Definition view_flat (M : Tensor2 A) : list A := storage M.

End Ops.

(** A tensor given by its entries. *)
Definition tabulate {A : Type} (n m : nat) (f : nat -> nat -> A) : Tensor2 A :=
  mkTensor2 n m (flat_map (fun i => map (f i) (seq 0 m)) (seq 0 n)).

(** An elementwise operation. *)
Definition map_t {A B : Type} (f : A -> B) (M : Tensor2 A) : Tensor2 B :=
  mkTensor2 (size0 M) (size1 M) (map f (storage M)).

End Tensor.

(** ** Batcher *)

(** [batchify(data, bsz)], applied to the numericalised token sequence. *)
Definition batchify (data : list Z) (bsz : Z) : result (Tensor2 Z) :=
  (nbatch <- Py.floordiv (Z.of_nat (length data)) bsz ;;
   data1 <- Tensor.narrow data 0 (nbatch * bsz) ;;
   data2 <- Tensor.view_rows data1 bsz ;;
   Ok (Tensor.t_contiguous 0 data2))%res.

Section Batches.
Variable bptt : Z.

(** [get_batch(source, i)] *)
Definition get_batch (source : Tensor2 Z) (i : Z) : Tensor2 Z * list Z :=
  let seq_len := Z.min bptt (Tensor.len source - 1 - i) in
  let data := Tensor.slice_rows source i (i + seq_len) in
  let target :=
    Tensor.view_flat (Tensor.slice_rows source (i + 1) (i + 1 + seq_len)) in
  (data, target).

End Batches.

(** ** Causal mask *)

Module Mask.

(** [torch.ones(n, m)] *)
Definition ones (n m : nat) : Tensor2 float :=
  Tensor.tabulate n m (fun _ _ => one).

(** [torch.triu(M)]: entries below the diagonal are set to zero. *)
Definition triu (M : Tensor2 float) : Tensor2 float :=
  Tensor.tabulate (size0 M) (size1 M)
    (fun i j => if (i <=? j)%nat then Tensor.get zero M i j else zero).

(** [M == x] on a float tensor. *)
Definition eq_scalar (M : Tensor2 float) (x : float) : Tensor2 bool :=
  Tensor.map_t (fun v => PrimFloat.eqb v x) M.

(** [M.transpose(0, 1)] *)
Definition transpose (M : Tensor2 bool) : Tensor2 bool :=
  Tensor.t_contiguous false M.

(** [M.float()] on a boolean tensor. *)
Definition to_float (M : Tensor2 bool) : Tensor2 float :=
  Tensor.map_t (fun b : bool => if b then one else zero) M.

(** [M == 0] and [M == 1] on a boolean tensor. *)
Definition eq_false (M : Tensor2 bool) : Tensor2 bool := Tensor.map_t negb M.
Definition eq_true (M : Tensor2 bool) : Tensor2 bool := Tensor.map_t (fun b => b) M.

(** [M.masked_fill(cond, v)] for [cond] of the shape of [M]. *)
Definition masked_fill (M : Tensor2 float) (cond : Tensor2 bool) (v : float)
  : Tensor2 float :=
  mkTensor2 (size0 M) (size1 M)
    (map (fun xc : float * bool => if snd xc then v else fst xc)
         (combine (storage M) (storage cond))).

(** [TransformerModel._generate_square_subsequent_mask(self, sz)];
    the method does not read [self]. *)
Definition generate_square_subsequent_mask (sz : nat) : Tensor2 float :=
  let mask := transpose (eq_scalar (triu (ones sz sz)) one) in
  masked_fill (masked_fill (to_float mask) (eq_false mask) neg_infinity)
              (eq_true mask) zero.

End Mask.

(** ** Positional encoding

    The table is a float32 tensor.  A float32 value is represented by the
    real number it denotes, and the float32 arithmetic of the tensor
    library is a parameter of the construction. *)

Module PositionalEncoding.

Local Open Scope R_scope.

(** Float32 arithmetic: [rnd] rounds a real to float32, and is what the
    conversion of an integer and the product of two float32 values do to
    the exact result; [t_exp], [t_sin] and [t_cos] are [torch.exp],
    [torch.sin] and [torch.cos] on float32 values; [neg_log_scale d_model]
    is the float32 operand that the Python float
    [-math.log(10000.0) / d_model] becomes in the product with a float32
    tensor. *)
Record Float32 : Type := mkFloat32 {
  rnd : R -> R;
  t_exp : R -> R;
  t_sin : R -> R;
  t_cos : R -> R;
  neg_log_scale : Z -> R
}.

(** Exact arithmetic, in which nothing is rounded. *)
Definition exact_arithmetic : Float32 :=
  mkFloat32 (fun x => x) exp sin cos
            (fun d_model => - ln 10000 / IZR d_model).

(** An arithmetic that rounds: a real is rounded down to a multiple of
    [2^-k], and the kernels are exact. *)
Definition truncating (k : nat) : Float32 :=
  mkFloat32 (fun x => IZR (Int_part (x * 2 ^ k)) / 2 ^ k) exp sin cos
            (fun d_model => - ln 10000 / IZR d_model).

(** Columns selected by the slice [start::2] among [ncols] columns. *)
Definition strided_cols (start ncols : nat) : list nat :=
  map Z.to_nat
      (map (fun k => Z.of_nat start + Z.of_nat k * 2)%Z
           (seq 0 (Py.range_len (Z.of_nat start) (Z.of_nat ncols) 2))).

(** Entry of [V] seen through broadcasting to a larger shape. *)
Definition bget (V : Tensor2 R) (r c : nat) : R :=
  Tensor.get 0 V (if (size0 V =? 1)%nat then 0%nat else r)
                 (if (size1 V =? 1)%nat then 0%nat else c).

Definition broadcastable (n m : nat) (V : Tensor2 R) : bool :=
  ((size0 V =? n)%nat || (size0 V =? 1)%nat)
  && ((size1 V =? m)%nat || (size1 V =? 1)%nat).

(** [M[:, start::2] = V] *)
Definition assign_cols (M : Tensor2 R) (start : nat) (V : Tensor2 R)
  : result (Tensor2 R) :=
  let cols := strided_cols start (size1 M) in
  if broadcastable (size0 M) (length cols) V
  then Ok (Tensor.tabulate (size0 M) (size1 M)
             (fun r c =>
                if (start <=? c)%nat && Nat.even (c - start)
                then bget V r ((c - start) / 2)
                else Tensor.get 0 M r c))
  else Raise RuntimeError.

Section Build.
Variable F : Float32.

(** [torch.arange(0, d_model, 2).float()] *)
Definition arange2 (d_model : Z) : list R :=
  map (fun k => rnd F (IZR (0 + Z.of_nat k * 2)))
      (seq 0 (Py.range_len 0 d_model 2)).

(** [div_term] *)
Definition div_term (d_model : Z) : list R :=
  map (fun x => t_exp F (rnd F (x * neg_log_scale F d_model)))
      (arange2 d_model).

(** [position * div_term], a column times a row. *)
Definition outer (position div : list R) : Tensor2 R :=
  Tensor.tabulate (length position) (length div)
    (fun p i => rnd F (nth p position 0 * nth i div 0)).

(** The table built by [PositionalEncoding.__init__(d_model, _, max_len)],
    without the singleton batch axis inserted at the end. *)
Definition build (d_model max_len : Z) : result (Tensor2 R) :=
  if ((max_len <? 0) || (d_model <? 0))%Z then Raise RuntimeError
  else if (d_model =? 0)%Z then Raise ZeroDivisionError
  else
    let pe := Tensor.tabulate (Z.to_nat max_len) (Z.to_nat d_model)
                            (fun _ _ => 0) in
    let position :=
      map (fun k => rnd F (IZR (Z.of_nat k))) (seq 0 (Z.to_nat max_len)) in
    let angles := outer position (div_term d_model) in
    (pe1 <- assign_cols pe 0 (Tensor.map_t (t_sin F) angles) ;;
     pe2 <- assign_cols pe1 1 (Tensor.map_t (t_cos F) angles) ;;
     Ok pe2)%res.

End Build.

(** *** Descriptions used by the statements *)

(** The angle of position [p] at the even column [k], as float32
    arithmetic computes it, and the angle that the formula
    [p * exp(- ln(10000) * k / d_model)] denotes. *)
Definition angle32 (F : Float32) (d_model k p : Z) : R :=
  rnd F (rnd F (IZR p)
         * t_exp F (rnd F (rnd F (IZR k) * neg_log_scale F d_model))).

Definition angle (d_model k p : Z) : R :=
  IZR p * exp (- ln 10000 * IZR k / IZR d_model).

(** Accuracy of an arithmetic.  A rounding is off by at most the relative
    error [u] plus the absolute error [eta], for magnitudes up to [big];
    the scale operand is off by at most the relative error [e_scale]; the
    exponential kernel is off by at most the relative error [e_exp] on
    arguments of magnitude up to [y_max]; the sine and cosine kernels are
    off by at most [e_trig] on arguments of magnitude up to [big].
    Binary32 arithmetic rounds to nearest with [u = 2^-24] and
    [eta = 2^-150] up to the largest float32 number. *)
Record accurate (F : Float32) (u eta big e_scale e_exp y_max e_trig : R)
  : Prop := mkAccurate {
  u_nonneg : 0 <= u;
  eta_nonneg : 0 <= eta;
  e_scale_nonneg : 0 <= e_scale;
  e_exp_nonneg : 0 <= e_exp;
  e_trig_nonneg : 0 <= e_trig;
  rnd_accurate :
    forall x, Rabs x <= big -> Rabs (rnd F x - x) <= u * Rabs x + eta;
  scale_accurate :
    forall d, (0 < d)%Z ->
              Rabs (neg_log_scale F d - - ln 10000 / IZR d)
              <= e_scale * (ln 10000 / IZR d);
  exp_accurate :
    forall y, Rabs y <= y_max -> Rabs (t_exp F y - exp y) <= e_exp * exp y;
  sin_accurate :
    forall a, Rabs a <= big -> Rabs (t_sin F a - sin a) <= e_trig;
  cos_accurate :
    forall a, Rabs a <= big -> Rabs (t_cos F a - cos a) <= e_trig
}.

(** Error bounds along the computation of an angle, for a table of [D]
    columns and [M] rows: on the column index as a float32 value, on the
    argument of the exponential before and after its rounding, on an entry
    of [div_term], on the position as a float32 value, and on the angle
    before and after its rounding. *)
Definition err_index (u eta D : R) : R := u * D + eta.

Definition pre_exponent (u eta e_scale D : R) : R :=
  (D + err_index u eta D) * (e_scale * (ln 10000 / D))
  + ln 10000 / D * err_index u eta D.

Definition err_exponent (u eta e_scale D : R) : R :=
  pre_exponent u eta e_scale D
  + (u * (ln 10000 + pre_exponent u eta e_scale D) + eta).

Definition err_div (u eta e_scale e_exp D : R) : R :=
  let e2 := err_exponent u eta e_scale D in
  e_exp * exp e2 + exp e2 * e2.

Definition err_position (u eta M : R) : R := u * M + eta.

Definition pre_angle (u eta e_scale e_exp D M : R) : R :=
  (M + err_position u eta M) * err_div u eta e_scale e_exp D
  + err_position u eta M.

Definition err_angle (u eta e_scale e_exp D M : R) : R :=
  pre_angle u eta e_scale e_exp D M
  + (u * (M + pre_angle u eta e_scale e_exp D M) + eta).

(** The distance allowed between an entry of the table and the sine or
    cosine of the angle that the formula denotes. *)
Definition tolerance (u eta e_scale e_exp e_trig D M : R) : R :=
  e_trig + err_angle u eta e_scale e_exp D M.

End PositionalEncoding.

(** ** Interpreter state *)

(** A command over a state [S]: it returns a value or raises, and the
    state it leaves behind is kept in both cases. *)
Definition M (S A : Type) : Type := S -> result A * S.

Definition ret {S A : Type} (a : A) : M S A := fun s => (Ok a, s).

Definition mbind {S A B : Type} (m : M S A) (k : A -> M S B) : M S B :=
  fun s => match m s with
           | (Ok a, s') => k a s'
           | (Raise e, s') => (Raise e, s')
           end.

Definition lift {S A : Type} (r : result A) : M S A := fun s => (r, s).

Declare Scope monad_scope.
Delimit Scope monad_scope with M.
Notation "x <- m ;; k" := (mbind m (fun x => k))
  (at level 61, m at next level, right associativity) : monad_scope.
Notation "m ;;; k" := (mbind m (fun _ => k))
  (at level 61, right associativity) : monad_scope.

(** [for x in xs: acc = body(acc, x)] *)
Fixpoint for_acc {S X Acc : Type} (xs : list X) (body : Acc -> X -> M S Acc)
  (acc : Acc) : M S Acc :=
  match xs with
  | [] => ret acc
  | x :: xs' => mbind (body acc x) (for_acc xs' body)
  end.

(** [for x in xs: body(x)] *)
Definition for_ {S X : Type} (xs : list X) (body : X -> M S unit) : M S unit :=
  for_acc xs (fun _ x => body x) tt.

(** [enumerate(xs)] *)
Definition enumerate {X : Type} (xs : list X) : list (Z * X) :=
  combine (map Z.of_nat (seq 0 (length xs))) xs.

(** Conversion of an integer to a float, for magnitudes below [2^63]. *)
Definition float_of_int (z : Z) : float :=
  if z <? 0 then PrimFloat.opp (PrimFloat.of_uint63 (Uint63.of_Z (- z)))
  else PrimFloat.of_uint63 (Uint63.of_Z z).

(** [x / n] for a float [x] and an integer [n]. *)
Definition float_div_int (x : float) (n : Z) : result float :=
  if n =? 0 then Raise ZeroDivisionError
  else Ok (PrimFloat.div x (float_of_int n)).

(** [log_interval = 200], assigned in the loop of [train]. *)
Definition log_interval : Z := 200.

(** [math.exp] is the exponential of the C library, on which the
    interpreter raises [OverflowError] when the result is infinite for a
    finite argument.  [exp_max] is the largest binary64 number whose
    exponential is in the binary64 range: [709.782712893384], the
    rounding down of [ln(max float)]. *)
Definition exp_max : float := 0x1.62e42fefa39efp+9%float.

(** Whether [math.exp(x)] is out of range: [x] is finite and above
    [exp_max].  The exponential of [inf] is [inf], that of [nan] is [nan],
    and neither raises. *)
Definition exp_overflows (x : float) : bool :=
  PrimFloat.ltb exp_max x && PrimFloat.ltb x PrimFloat.infinity.

(** [math.exp(x)], as far as raising goes: the value, a perplexity, is
    only formatted into the line being printed. *)
Definition math_exp (x : float) : result unit :=
  if exp_overflows x then Raise OverflowError else Ok tt.

(** Lines written to the output.  The wall-clock figures are left out, and
    so are the digits of the perplexity, which is [math.exp] of the loss on
    the same line. *)
Inductive line : Type :=
| BatchReport (epoch batch nbatches : Z) (lr : Q) (cur_loss : float)
| Dashes
| EpochSummary (epoch : Z) (val_loss : float)
| Equals
| TestSummary (test_loss : float).

(** The loss whose perplexity a line shows. *)
Definition shown_loss (l : line) : option float :=
  match l with
  | BatchReport _ _ _ _ cur_loss => Some cur_loss
  | EpochSummary _ val_loss => Some val_loss
  | TestSummary test_loss => Some test_loss
  | Dashes | Equals => None
  end.

(** Whether the arguments of the line can be formatted: the perplexity is
    in range. *)
Definition printable (l : line) : bool :=
  match shown_loss l with
  | Some x => negb (exp_overflows x)
  | None => true
  end.

(** The lines that are written when [lines] are to be printed in turn: all
    those before the first one that cannot be formatted. *)
Fixpoint printed_lines (lines : list line) : list line :=
  match lines with
  | [] => []
  | l :: rest => if printable l then l :: printed_lines rest else []
  end.

Definition is_batch_report (l : line) : bool :=
  match l with BatchReport _ _ _ _ _ => true | _ => false end.

Definition is_epoch_summary (l : line) : bool :=
  match l with EpochSummary _ _ => true | _ => false end.

(** The epoch that a summary line is about. *)
Definition summary_epoch (l : line) : option Z :=
  match l with EpochSummary epoch _ => Some epoch | _ => None end.

(** Modelled from the spec: [torch.optim.lr_scheduler.StepLR] is library
    code outside the notebook.  It is created with a step size of one
    epoch, so that after [last_epoch] calls of [step] the learning rate is
    the initial one multiplied [last_epoch] times by [gamma]. *)
Record StepLR : Type := mkStepLR {
  base_lr : Q;
  gamma : Q;
  last_epoch : Z
}.

Definition get_lr (s : StepLR) : Q :=
  (base_lr s * gamma s ^ last_epoch s)%Q.

Section Network.

(** The weights, the state of the random generator that dropout draws
    from, and the log-probabilities that the network returns. *)
Variables Params Rng Output : Type.

(** Embedding scaled by [sqrt(ninp)], positional encoder, encoder stack
    under the mask, decoder and log-softmax: from the training flag, the
    weights, the positional table, [self.src_mask] and the input.  The
    network is taken to return: a token id outside the vocabulary, on
    which the embedding raises, is outside the model. *)
Variable network :
  bool -> Params -> Tensor2 R -> option (Tensor2 float) -> Tensor2 Z ->
  Rng -> Output * Rng.

(** [criterion(output.view(-1, ntokens), targets).item()] *)
Variable criterion : Output -> list Z -> float.

(** [loss.backward()], [clip_grad_norm_] and [optimizer.step()] at a
    learning rate. *)
Variable sgd_step : Q -> Params -> Output -> list Z -> Params.

Variables train_data val_data test_data : Tensor2 Z.
Variable bptt : Z.

Record TransformerModel : Type := mkModel {
  src_mask : option (Tensor2 float);
  training : bool;
  pe : Tensor2 R;
  params : Params
}.

Definition set_src_mask (o : TransformerModel) (m : option (Tensor2 float)) :=
  mkModel m (training o) (pe o) (params o).
Definition set_training (o : TransformerModel) (b : bool) :=
  mkModel (src_mask o) b (pe o) (params o).
Definition set_params (o : TransformerModel) (p : Params) :=
  mkModel (src_mask o) (training o) (pe o) p.

(** [TransformerModel.__init__], as far as the state kept here goes: no
    mask is cached, the module is in training mode, the positional table
    is built for [ninp] columns and the default 5000 rows, and the weights
    are those drawn by [init_weights]. *)
Definition construct (F : PositionalEncoding.Float32) (ninp : Z)
  (p0 : Params) : result TransformerModel :=
  (table <- PositionalEncoding.build F ninp 5000 ;;
   Ok (mkModel None true table p0))%res.

(** Objects live in a heap and are named by their address; [model] and
    [best_model] are variables holding addresses. *)
Record World : Type := mkWorld {
  heap : list TransformerModel;
  rng : Rng;
  opt_lr : Q;
  scheduler : StepLR;
  best_val_loss : float;
  best_model : option nat;
  stdout : list line
}.

Definition model : nat := 0%nat.

Fixpoint update (h : list TransformerModel) (a : nat) (o : TransformerModel)
  : list TransformerModel :=
  match h, a with
  | [], _ => []
  | _ :: h', O => o :: h'
  | x :: h', S a' => x :: update h' a' o
  end.

Definition load (a : nat) : M World TransformerModel :=
  fun w => match nth_error (heap w) a with
           | Some o => (Ok o, w)
           | None => (Raise RuntimeError, w)
           end.

Definition store (a : nat) (o : TransformerModel) : M World unit :=
  fun w => (Ok tt, mkWorld (update (heap w) a o) (rng w) (opt_lr w)
                           (scheduler w) (best_val_loss w) (best_model w)
                           (stdout w)).

(** Attribute access on a variable that may hold [None]. *)
Definition deref (v : option nat) : M World nat :=
  match v with
  | Some a => ret a
  | None => lift (Raise AttributeError)
  end.

Definition print (l : line) : M World unit :=
  fun w => (Ok tt, mkWorld (heap w) (rng w) (opt_lr w) (scheduler w)
                           (best_val_loss w) (best_model w)
                           (stdout w ++ [l])).

Definition with_rng {A : Type} (f : Rng -> A * Rng) : M World A :=
  fun w => let '(a, g) := f (rng w) in
           (Ok a, mkWorld (heap w) g (opt_lr w) (scheduler w)
                          (best_val_loss w) (best_model w) (stdout w)).

Definition read {A : Type} (f : World -> A) : M World A :=
  fun w => (Ok (f w), w).

Definition set_best (l : float) (b : option nat) : M World unit :=
  fun w => (Ok tt, mkWorld (heap w) (rng w) (opt_lr w) (scheduler w) l b
                           (stdout w)).

(** [scheduler.step()] *)
Definition scheduler_step : M World unit :=
  fun w => let s := scheduler w in
           let s' := mkStepLR (base_lr s) (gamma s) (last_epoch s + 1) in
           (Ok tt, mkWorld (heap w) (rng w) (get_lr s') s'
                           (best_val_loss w) (best_model w) (stdout w)).

Local Open Scope monad_scope.

(** The test guarding the mask refresh in [forward]. *)
Definition stale (o : TransformerModel) (src : Tensor2 Z) : bool :=
  match src_mask o with
  | None => true
  | Some mask => negb (Tensor.len mask =? Tensor.len src)
  end.

(** [TransformerModel.forward(self, src)] *)
Definition forward (self : nat) (src : Tensor2 Z) : M World Output :=
  o <- load self ;;
  (if stale o src
   then store self
          (set_src_mask o
             (Some (Mask.generate_square_subsequent_mask (size0 src))))
   else ret tt) ;;;
  o1 <- load self ;;
  with_rng (network (training o1) (params o1) (pe o1) (src_mask o1) src).

(** [self.train()] and [self.eval()] *)
Definition set_mode (self : nat) (b : bool) : M World unit :=
  o <- load self ;; store self (set_training o b).

(** The body of the loop of [train], from [optimizer.zero_grad()] to
    [optimizer.step()], on the model object. *)
Definition optimizer_step (self : nat) (output : Output) (targets : list Z)
  : M World unit :=
  o <- load self ;;
  step <- read opt_lr ;;
  store self (set_params o (sgd_step step (params o) output targets)).

(** [train()], in epoch [epoch]. *)
Definition train (epoch : Z) : M World unit :=
  set_mode model true ;;;
  starts <- lift (Py.range 0 (Tensor.len train_data - 1) bptt) ;;
  _ <- for_acc (enumerate starts)
         (fun (total_loss : float) (bi : Z * Z) =>
            let '(batch, i) := bi in
            let '(data, targets) := get_batch bptt train_data i in
            output <- forward model data ;;
            let loss := criterion output targets in
            optimizer_step model output targets ;;;
            let total_loss := PrimFloat.add total_loss loss in
            r <- lift (Py.mod_ batch log_interval) ;;
            if (r =? 0) && (0 <? batch)
            then
              let cur_loss :=
                PrimFloat.div total_loss (float_of_int log_interval) in
              nbatches <- lift (Py.floordiv (Tensor.len train_data) bptt) ;;
              shown <- read (fun w => get_lr (scheduler w)) ;;
              lift (math_exp cur_loss) ;;;
              print (BatchReport epoch batch nbatches shown cur_loss) ;;;
              ret PrimFloat.zero
            else ret total_loss)
         PrimFloat.zero ;;
  ret tt.

(** [evaluate(eval_model, data_source)] *)
Definition evaluate (eval_model : option nat) (data_source : Tensor2 Z)
  : M World float :=
  self <- deref eval_model ;;
  set_mode self false ;;;
  starts <- lift (Py.range 0 (Tensor.len data_source - 1) bptt) ;;
  total_loss <- for_acc starts
         (fun (total_loss : float) (i : Z) =>
            let '(data, targets) := get_batch bptt data_source i in
            output <- forward self data ;;
            ret (PrimFloat.add total_loss
                   (PrimFloat.mul (float_of_int (Tensor.len data))
                                  (criterion output targets))))
         PrimFloat.zero ;;
  lift (float_div_int total_loss (Tensor.len data_source - 1)).

(** The body of the loop over epochs. *)
Definition epoch_body (epoch : Z) : M World unit :=
  train epoch ;;;
  val_loss <- evaluate (Some model) val_data ;;
  print Dashes ;;;
  lift (math_exp val_loss) ;;;
  print (EpochSummary epoch val_loss) ;;;
  print Dashes ;;;
  best <- read best_val_loss ;;
  (if PrimFloat.ltb val_loss best
   then set_best val_loss (Some model)
   else ret tt) ;;;
  scheduler_step.

(** The cell that loops over the epochs. *)
Definition run_epochs (epochs : Z) : M World unit :=
  set_best PrimFloat.infinity None ;;;
  es <- lift (Py.range 1 (epochs + 1) 1) ;;
  for_ es epoch_body.

(** The cell that evaluates on the test split. *)
Definition run_test : M World float :=
  best <- read best_model ;;
  test_loss <- evaluate best test_data ;;
  print Equals ;;;
  lift (math_exp test_loss) ;;;
  print (TestSummary test_loss) ;;;
  print Equals ;;;
  ret test_loss.

(** The state in which the epoch cell starts: one model object, freshly
    constructed, an optimizer at [lr0] and its scheduler. *)
Definition initial_world (p0 : Params) (pe0 : Tensor2 R) (g0 : Rng)
  (lr0 gamma0 : Q) : World :=
  mkWorld [mkModel None true pe0 p0] g0 lr0 (mkStepLR lr0 gamma0 0)
          PrimFloat.infinity None [].


(** *** Descriptions used by the statements *)

(** The model object as [forward] leaves it. *)
Definition refresh (o : TransformerModel) (src : Tensor2 Z)
  : TransformerModel :=
  if stale o src
  then set_src_mask o
         (Some (Mask.generate_square_subsequent_mask (size0 src)))
  else o.

(** Histories of [forward] calls on the object at [self], oldest first:
    each entry is the input of a call and whether that call found the
    cached mask stale. *)
Inductive calls (self : nat)
  : World -> list (Tensor2 Z * bool) -> World -> Prop :=
| calls_nil (w : World) : calls self w [] w
| calls_snoc (w w1 w2 : World) (hist : list (Tensor2 Z * bool))
    (o : TransformerModel) (src : Tensor2 Z) (out : Output) :
    calls self w hist w1 ->
    nth_error (heap w1) self = Some o ->
    forward self src w1 = (Ok out, w2) ->
    calls self w (hist ++ [(src, stale o src)]) w2.

(** Sequence length of the most recent call that refreshed the mask. *)
Fixpoint last_refresh (hist : list (Tensor2 Z * bool)) : option nat :=
  match hist with
  | [] => None
  | (src, refreshed) :: rest =>
      match last_refresh rest with
      | Some n => Some n
      | None => if refreshed then Some (size0 src) else None
      end
  end.

(** Start offsets of the windows of a split of [T] rows. *)
Definition window_starts (T : Z) : list Z :=
  map (fun k => Z.of_nat k * bptt)
      (seq 0 (Z.to_nat ((T - 1 + bptt - 1) / bptt))).

(** Length of the window that starts at offset [i]. *)
Definition window_len (T i : Z) : Z := Z.min bptt (T - 1 - i).

(** Losses of the windows starting at [starts], visited in sequence by
    the model object [o]. *)
Fixpoint window_losses (o : TransformerModel) (g : Rng)
  (data_source : Tensor2 Z) (starts : list Z) : list float :=
  match starts with
  | [] => []
  | i :: rest =>
      let '(data, targets) := get_batch bptt data_source i in
      let o1 := refresh o data in
      let '(output, g1) :=
        network (training o1) (params o1) (pe o1) (src_mask o1) data g in
      criterion output targets :: window_losses o1 g1 data_source rest
  end.

(** Sum over the windows of window length times window loss. *)
Definition weighted_sum (lens : list Z) (losses : list float) : float :=
  fold_left (fun acc nl => PrimFloat.add acc
                             (PrimFloat.mul (float_of_int (fst nl)) (snd nl)))
            (combine lens losses) PrimFloat.zero.

(** What the evaluator is specified to return for the model object [o]
    in inference mode. *)
Definition evaluate_spec (o : TransformerModel) (g : Rng)
  (data_source : Tensor2 Z) : float :=
  let T := Tensor.len data_source in
  let starts := window_starts T in
  PrimFloat.div
    (weighted_sum (map (window_len T) starts)
                  (window_losses (set_training o false) g data_source starts))
    (float_of_int (T - 1)).

(** The state after the summary lines, the best-model test and the
    scheduler step of an epoch whose validation loss is [val_loss]. *)
Definition after_validation (epoch : Z) (val_loss : float) (w : World)
  : World :=
  let better := PrimFloat.ltb val_loss (best_val_loss w) in
  let s := mkStepLR (base_lr (scheduler w)) (gamma (scheduler w))
                    (last_epoch (scheduler w) + 1) in
  mkWorld (heap w) (rng w) (get_lr s) s
          (if better then val_loss else best_val_loss w)
          (if better then Some model else best_model w)
          (stdout w ++ [Dashes; EpochSummary epoch val_loss; Dashes]).

(** The state in which the summary line of an epoch is formatted: the
    first line of dashes is out. *)
Definition at_summary (w : World) : World :=
  mkWorld (heap w) (rng w) (opt_lr w) (scheduler w) (best_val_loss w)
          (best_model w) (stdout w ++ [Dashes]).

(** The state in which the first epoch starts. *)
Definition reset_best (w : World) : World :=
  mkWorld (heap w) (rng w) (opt_lr w) (scheduler w) PrimFloat.infinity None
          (stdout w).

(** Whether the window of index [batch] ends with a report. *)
Definition report_due (batch : Z) : bool :=
  (batch mod log_interval =? 0) && (0 <? batch).

(** The model object, the generator state and the window losses after the
    windows of [train_data] that start at [starts] have been trained on in
    sequence, every optimizer step being taken at learning rate [step]. *)
Fixpoint train_windows (step : Q) (o : TransformerModel) (g : Rng)
  (starts : list Z) : TransformerModel * Rng * list float :=
  match starts with
  | [] => (o, g, [])
  | i :: rest =>
      let '(data, targets) := get_batch bptt train_data i in
      let o1 := refresh o data in
      let '(output, g1) :=
        network (training o1) (params o1) (pe o1) (src_mask o1) data g in
      let o2 := set_params o1 (sgd_step step (params o1) output targets) in
      let '(o3, g3, losses) := train_windows step o2 g1 rest in
      (o3, g3, criterion output targets :: losses)
  end.

(** The reports that a run of window losses gives rise to, from the window
    of index [batch] on, [total_loss] being the running sum so far. *)
Fixpoint report_lines (epoch nbatches : Z) (shown : Q) (batch : Z)
  (total_loss : float) (losses : list float) : list line :=
  match losses with
  | [] => []
  | loss :: rest =>
      let total := PrimFloat.add total_loss loss in
      if report_due batch
      then BatchReport epoch batch nbatches shown
             (PrimFloat.div total (float_of_int log_interval))
           :: report_lines epoch nbatches shown (batch + 1) PrimFloat.zero rest
      else report_lines epoch nbatches shown (batch + 1) total rest
  end.

Definition count_reports (w : World) : nat :=
  length (filter is_batch_report (stdout w)).

Definition count_summaries (w : World) : nat :=
  length (filter is_epoch_summary (stdout w)).

End Network.

Arguments mkModel {Params} src_mask training pe params.
Arguments src_mask {Params} t.
Arguments training {Params} t.
Arguments pe {Params} t.
Arguments params {Params} t.
Arguments heap {Params Rng} w.
Arguments rng {Params Rng} w.
Arguments opt_lr {Params Rng} w.
Arguments scheduler {Params Rng} w.
Arguments best_val_loss {Params Rng} w.
Arguments best_model {Params Rng} w.
Arguments stdout {Params Rng} w.
Arguments mkWorld {Params Rng} heap rng opt_lr scheduler best_val_loss
  best_model stdout.
Arguments construct {Params} F ninp p0.
Arguments set_src_mask {Params} o m.
Arguments set_training {Params} o b.
Arguments set_params {Params} o p.
Arguments update {Params} h a o.
Arguments load {Params Rng} a _.
Arguments store {Params Rng} a o _.
Arguments deref {Params Rng} v _.
Arguments print {Params Rng} l _.
Arguments with_rng {Params Rng A} f _.
Arguments read {Params Rng A} f _.
Arguments set_best {Params Rng} l b _.
Arguments scheduler_step {Params Rng} _.
Arguments stale {Params} o src.
Arguments refresh {Params} o src.
Arguments forward {Params Rng Output} network self src _.
Arguments set_mode {Params Rng} self b _.
Arguments optimizer_step {Params Rng Output} sgd_step self output targets _.
Arguments train {Params Rng Output} network criterion sgd_step train_data
  bptt epoch _.
Arguments evaluate {Params Rng Output} network criterion bptt eval_model
  data_source _.
Arguments epoch_body {Params Rng Output} network criterion sgd_step
  train_data val_data bptt epoch _.
Arguments run_epochs {Params Rng Output} network criterion sgd_step
  train_data val_data bptt epochs _.
Arguments run_test {Params Rng Output} network criterion test_data bptt _.
Arguments initial_world {Params Rng} p0 pe0 g0 lr0 gamma0.
Arguments calls {Params Rng Output} network self _ _ _.
Arguments calls_nil {Params Rng Output} network self w.
Arguments calls_snoc {Params Rng Output} network self w w1 w2 hist o src out
  _ _ _.
Arguments window_losses {Params Rng Output} network criterion bptt o g
  data_source starts.
Arguments evaluate_spec {Params Rng Output} network criterion bptt o g
  data_source.
Arguments after_validation {Params Rng} epoch val_loss w.
Arguments reset_best {Params Rng} w.
Arguments at_summary {Params Rng} w.
Arguments train_windows {Params Rng Output} network criterion sgd_step
  train_data bptt step o g starts.
Arguments count_reports {Params Rng} w.
Arguments count_summaries {Params Rng} w.

(** ** Relations between the states before and after a command *)

(** The command [m] takes every state to one related to it by [P],
    whether it returns or raises. *)
Definition keeps {S A : Type} (P : S -> S -> Prop) (m : M S A) : Prop :=
  forall s, P s (snd (m s)).

(** Every object of the first heap is still allocated in the second and
    related to its former self by [Rel]. *)
Definition objects_rel {Params Rng : Type}
  (Rel : TransformerModel Params -> TransformerModel Params -> Prop)
  (w w' : World Params Rng) : Prop :=
  forall a o, nth_error (heap w) a = Some o ->
              exists o', nth_error (heap w') a = Some o' /\ Rel o o'.

(** Same weights and same positional table. *)
Definition same_weights {Params : Type} (o o' : TransformerModel Params)
  : Prop :=
  params o' = params o /\ pe o' = pe o.

(** Same positional table. *)
Definition same_table {Params : Type} (o o' : TransformerModel Params)
  : Prop :=
  pe o' = pe o.

(** Same training flag. *)
Definition same_mode {Params : Type} (o o' : TransformerModel Params)
  : Prop :=
  training o' = training o.

(** The optimizer, the scheduler and the best-model record are the same. *)
Definition same_run_state {Params Rng : Type} (w w' : World Params Rng)
  : Prop :=
  opt_lr w' = opt_lr w /\ scheduler w' = scheduler w
  /\ best_val_loss w' = best_val_loss w /\ best_model w' = best_model w.

(** The summary lines printed so far are the same. *)
Definition same_summaries {Params Rng : Type} (w w' : World Params Rng)
  : Prop :=
  filter is_epoch_summary (stdout w') = filter is_epoch_summary (stdout w).

(** Nothing was printed. *)
Definition same_stdout {Params Rng : Type} (w w' : World Params Rng) : Prop :=
  stdout w' = stdout w.

(** The epochs [1 .. n], as [range(1, n + 1)] lists them. *)
Definition epochs_list (n : nat) : list Z :=
  map (fun k => 1 + Z.of_nat k * 1) (seq 0 n).

(** ** A small network for examples

    The weights are one integer, which counts the SGD steps taken; the
    output of the network is that count, and the loss is read off it. *)

Module Toy.

Definition network (training : bool) (p : Z) (pe : Tensor2 R)
  (mask : option (Tensor2 float)) (src : Tensor2 Z) (g : unit) : Z * unit :=
  (p, g).

Definition criterion (loss_at : Z -> float) (output : Z) (targets : list Z)
  : float :=
  loss_at output.

Definition sgd_step (lr : Q) (p : Z) (output : Z) (targets : list Z) : Z :=
  p + 1.

Definition no_table : Tensor2 R := mkTensor2 0 0 [].

(** One column of [n] tokens. *)
Definition column (n : nat) : Tensor2 Z :=
  mkTensor2 n 1 (map Z.of_nat (seq 0 n)).

Definition world0 : World Z unit :=
  initial_world 0 no_table tt 5 (95 # 100).

End Toy.

(** ** A training run of the small network *)

Module ToyRun.

(** Validation loss by number of SGD steps taken: the first epoch is the
    best one. *)
Definition loss_at (steps : Z) : float :=
  if steps =? 1 then 1%float else if steps =? 2 then 3%float else 2%float.

Definition run (epochs : Z) :=
  run_epochs Toy.network (Toy.criterion loss_at) Toy.sgd_step
             (Toy.column 3) (Toy.column 2) 2 epochs Toy.world0.

Definition test (w : World Z unit) :=
  run_test Toy.network (Toy.criterion loss_at) (Toy.column 2) 2 w.

(** A run whose validation loss is not a number. *)
Definition run_nan (epochs : Z) :=
  run_epochs Toy.network (Toy.criterion (fun _ => nan)) Toy.sgd_step
             (Toy.column 3) (Toy.column 2) 2 epochs Toy.world0.

End ToyRun.


(** * Properties *)

(** ** Lists laid out in rows *)

Section RowMajor.
Context {A : Type}.

Lemma nth_map_seq (g : nat -> A) (d : A) (s m j : nat) :
  (j < m)%nat -> nth j (map g (seq s m)) d = g (s + j)%nat.
Proof.
  intros Hj.
  rewrite (nth_indep _ d (g 0%nat)) by (rewrite length_map, length_seq; lia).
  rewrite map_nth, seq_nth by lia. reflexivity.
Qed.

Lemma length_rows (f : nat -> nat -> A) (m s n : nat) :
  length (flat_map (fun i => map (f i) (seq 0 m)) (seq s n)) = (n * m)%nat.
Proof.
  revert s. induction n as [|n IH]; intros s; simpl.
  - reflexivity.
  - rewrite length_app, length_map, length_seq, IH. reflexivity.
Qed.

Lemma nth_rows (f : nat -> nat -> A) (d : A) (m n i j s : nat) :
  (i < n)%nat -> (j < m)%nat ->
  nth (i * m + j) (flat_map (fun i => map (f i) (seq 0 m)) (seq s n)) d
  = f (s + i)%nat j.
Proof.
  revert s i. induction n as [|n IH]; intros s i Hi Hj; [lia|].
  simpl. destruct i as [|i].
  - rewrite app_nth1 by (rewrite length_map, length_seq; lia).
    simpl. rewrite nth_map_seq by lia. f_equal. lia.
  - rewrite app_nth2 by (rewrite length_map, length_seq; simpl; lia).
    rewrite length_map, length_seq.
    replace (S i * m + j - m)%nat with (i * m + j)%nat by (simpl; lia).
    rewrite IH by lia. f_equal. lia.
Qed.

Lemma map_nth_block (l : list A) (d : A) (a m : nat) :
  (a + m <= length l)%nat ->
  map (fun j => nth (a + j) l d) (seq 0 m) = firstn m (skipn a l).
Proof.
  intros H. apply nth_ext with (d := d) (d' := d).
  - rewrite length_map, length_seq, length_firstn, length_skipn. lia.
  - intros k Hk. rewrite length_map, length_seq in Hk.
    rewrite nth_map_seq by lia. simpl.
    rewrite nth_firstn.
    destruct (Nat.ltb_spec k m) as [_|Hge]; [|lia].
    rewrite nth_skipn. reflexivity.
Qed.

Lemma firstn_add_block (l : list A) (a m : nat) :
  firstn (a + m) l = firstn a l ++ firstn m (skipn a l).
Proof.
  revert l. induction a as [|a IH]; intros l; simpl.
  - reflexivity.
  - destruct l as [|x l]; simpl.
    + now rewrite firstn_nil.
    + now rewrite IH.
Qed.

Lemma blocks_firstn (l : list A) (d : A) (m k : nat) :
  (k * m <= length l)%nat ->
  flat_map (fun i => map (fun j => nth (i * m + j) l d) (seq 0 m)) (seq 0 k)
  = firstn (k * m) l.
Proof.
  induction k as [|k IH]; intros H.
  - reflexivity.
  - rewrite seq_S, flat_map_app. simpl.
    rewrite app_nil_r, IH by lia.
    rewrite map_nth_block by lia.
    replace (m + k * m)%nat with (k * m + m)%nat by lia.
    now rewrite firstn_add_block.
Qed.

Lemma flat_map_ext_in {X : Type} (f g : X -> list A) (l : list X) :
  (forall x, In x l -> f x = g x) -> flat_map f l = flat_map g l.
Proof.
  induction l as [|x l IH]; intros H; simpl.
  - reflexivity.
  - rewrite (H x) by now left. rewrite IH; [reflexivity|].
    intros y Hy. apply H. now right.
Qed.

End RowMajor.

Lemma get_tabulate {A : Type} (d : A) (n m : nat) (f : nat -> nat -> A)
  (i j : nat) :
  (i < n)%nat -> (j < m)%nat -> Tensor.get d (Tensor.tabulate n m f) i j = f i j.
Proof.
  intros Hi Hj. unfold Tensor.get, Tensor.tabulate. simpl.
  now rewrite nth_rows.
Qed.

Lemma wf_tabulate {A : Type} (n m : nat) (f : nat -> nat -> A) :
  Tensor.wf (Tensor.tabulate n m f).
Proof. unfold Tensor.wf, Tensor.tabulate. simpl. apply length_rows. Qed.

Lemma get_t_contiguous {A : Type} (d : A) (M : Tensor2 A) (i j : nat) :
  (i < size1 M)%nat -> (j < size0 M)%nat ->
  Tensor.get d (Tensor.t_contiguous d M) i j = Tensor.get d M j i.
Proof.
  intros Hi Hj. unfold Tensor.t_contiguous.
  apply (get_tabulate d (size1 M) (size0 M) (fun r c => Tensor.get d M c r));
    assumption.
Qed.

Lemma columns_t_contiguous {A : Type} (d : A) (M : Tensor2 A) :
  Tensor.wf M ->
  Tensor.columns d (Tensor.t_contiguous d M) = storage M.
Proof.
  intros Hwf. unfold Tensor.columns.
  change (size0 (Tensor.t_contiguous d M)) with (size1 M).
  change (size1 (Tensor.t_contiguous d M)) with (size0 M).
  rewrite flat_map_ext_in with
    (g := fun c => map (fun r => nth (c * size1 M + r) (storage M) d)
                       (seq 0 (size1 M))).
  - rewrite blocks_firstn by (rewrite Hwf; lia).
    rewrite <- Hwf. apply firstn_all.
  - intros c Hc. apply in_seq in Hc. apply map_ext_in. intros r Hr.
    apply in_seq in Hr. rewrite get_t_contiguous by lia. reflexivity.
Qed.

(** ** Batcher *)

Example batchify_alphabet :
  batchify (map Z.of_nat (seq 0 26)) 4
  = Ok (mkTensor2 6 4 [0; 6; 12; 18; 1; 7; 13; 19; 2; 8; 14; 20;
                       3; 9; 15; 21; 4; 10; 16; 22; 5; 11; 17; 23]).
Proof. reflexivity. Qed.

Example batchify_short : batchify [7; 8] 3 = Ok (mkTensor2 0 3 []).
Proof. reflexivity. Qed.

Example batchify_zero_columns : batchify [7; 8] 0 = Raise ZeroDivisionError.
Proof. reflexivity. Qed.

Lemma batchify_unfold (data : list Z) (B : Z) :
  0 < B ->
  batchify data B
  = Ok (Tensor.t_contiguous 0
          (mkTensor2 (Z.to_nat B) (Z.to_nat (Z.of_nat (length data) / B))
             (firstn (Z.to_nat (Z.of_nat (length data) / B * B)) data))).
Proof.
  intros HB. unfold batchify, Py.floordiv.
  destruct (Z.eqb_spec B 0) as [|_]; [lia|]. cbn [bind].
  set (L := Z.of_nat (length data)).
  assert (HL : 0 <= L) by (unfold L; lia).
  assert (Hn : 0 <= L / B) by (apply Z.div_pos; lia).
  assert (Hle : L / B * B <= L)
    by (rewrite Z.mul_comm; apply Z.mul_div_le; lia).
  unfold Tensor.narrow.
  replace (0 <? 0) with false by reflexivity.
  destruct (Z.ltb_spec (L / B * B) 0) as [|_]; [nia|].
  fold L. destruct (Z.ltb_spec L (0 + L / B * B)) as [|_]; [lia|].
  cbn [orb bind]. change (Z.to_nat 0) with 0%nat. cbn [skipn].
  unfold Tensor.view_rows.
  destruct (Z.leb_spec B 0) as [|_]; [lia|].
  assert (Hlen : Z.of_nat (length (firstn (Z.to_nat (L / B * B)) data))
                 = L / B * B)
    by (rewrite length_firstn; unfold L in *; lia).
  rewrite Hlen, Z.mod_mul, Z.eqb_refl, Z.div_mul by lia.
  reflexivity.
Qed.

(** C1: for a flat token sequence of length L and a positive number of
    columns B, [batchify] returns a tensor of shape (L/B, B) whose entry at
    row t and column b is the input element of index b * (L/B) + t; read
    column after column it is the first (L/B) * B input elements, so the
    remainder is dropped from the end, with no wraparound and no padding. *)
Theorem batchify_spec (data : list Z) (B : Z) :
  0 < B ->
  let L := Z.of_nat (length data) in
  exists M : Tensor2 Z,
    batchify data B = Ok M
    /\ Tensor.len M = L / B
    /\ Z.of_nat (size1 M) = B
    /\ Tensor.wf M
    /\ (forall t b : nat,
           Z.of_nat t < L / B -> Z.of_nat b < B ->
           Tensor.get 0 M t b = nth (b * Z.to_nat (L / B) + t) data 0)
    /\ Tensor.columns 0 M = firstn (Z.to_nat (L / B * B)) data.
Proof.
  intros HB L. eexists. split; [apply batchify_unfold; exact HB|].
  fold L.
  assert (HL : 0 <= L) by (unfold L; lia).
  assert (Hn : 0 <= L / B) by (apply Z.div_pos; lia).
  assert (Hle : L / B * B <= L)
    by (rewrite Z.mul_comm; apply Z.mul_div_le; lia).
  set (n := Z.to_nat (L / B)).
  set (M0 := mkTensor2 (Z.to_nat B) n (firstn (Z.to_nat (L / B * B)) data)).
  assert (Hwf0 : Tensor.wf M0).
  { unfold Tensor.wf, M0. simpl. rewrite length_firstn. unfold n, L in *. nia. }
  repeat split.
  - unfold Tensor.len. simpl. unfold n. lia.
  - simpl. lia.
  - unfold Tensor.wf. simpl. rewrite length_rows. reflexivity.
  - intros t b Ht Hb. rewrite get_t_contiguous by (simpl; unfold n; lia).
    unfold Tensor.get, M0. simpl. fold n.
    rewrite nth_firstn.
    destruct (Nat.ltb_spec (b * n + t) (Z.to_nat (L / B * B))) as [_|Hge];
      [reflexivity|].
    exfalso. unfold n in Hge. nia.
  - rewrite columns_t_contiguous by exact Hwf0. reflexivity.
Qed.

Lemma batchify_spec_witness :
  exists M : Tensor2 Z,
    batchify [10; 11; 12; 13; 14; 15; 16] 3 = Ok M
    /\ Tensor.len M = 2
    /\ Tensor.columns 0 M = [10; 11; 12; 13; 14; 15].
Proof.
  destruct (batchify_spec [10; 11; 12; 13; 14; 15; 16] 3 ltac:(lia))
    as (M & HM & Hlen & _ & _ & _ & Hcols).
  exists M. repeat split; assumption.
Defined.

Lemma slice_rows_inside {A : Type} (M : Tensor2 A) (lo hi : Z) :
  0 <= lo <= hi -> hi <= Tensor.len M ->
  Tensor.slice_rows M lo hi
  = mkTensor2 (Z.to_nat (hi - lo)) (size1 M)
      (firstn (Z.to_nat (hi - lo) * size1 M)
              (skipn (Z.to_nat lo * size1 M) (storage M))).
Proof.
  intros Hlo Hhi. unfold Tensor.slice_rows, Py.slice_bounds, Py.clamp.
  destruct (Z.ltb_spec lo 0) as [|_]; [lia|].
  destruct (Z.ltb_spec hi 0) as [|_]; [lia|].
  rewrite !Z.min_l by lia. reflexivity.
Qed.

Lemma get_slice_rows {A : Type} (d : A) (M : Tensor2 A) (lo hi : Z)
  (t b : nat) :
  0 <= lo <= hi -> hi <= Tensor.len M ->
  Z.of_nat t < hi - lo -> (b < size1 M)%nat ->
  Tensor.get d (Tensor.slice_rows M lo hi) t b
  = Tensor.get d M (Z.to_nat lo + t) b.
Proof.
  intros Hlo Hhi Ht Hb. rewrite slice_rows_inside by assumption.
  unfold Tensor.get. simpl. rewrite nth_firstn.
  destruct (Nat.ltb_spec (t * size1 M + b) (Z.to_nat (hi - lo) * size1 M))
    as [_|Hge]; [|exfalso; nia].
  rewrite nth_skipn. f_equal. lia.
Qed.

Lemma wf_slice_rows {A : Type} (M : Tensor2 A) (lo hi : Z) :
  Tensor.wf M -> 0 <= lo <= hi -> hi <= Tensor.len M ->
  Tensor.wf (Tensor.slice_rows M lo hi).
Proof.
  intros Hwf Hlo Hhi. rewrite slice_rows_inside by assumption.
  unfold Tensor.wf in *. simpl. rewrite length_firstn, length_skipn, Hwf.
  unfold Tensor.len in Hhi. nia.
Qed.

Example get_batch_first :
  get_batch 2 (mkTensor2 4 2 [0; 10; 1; 11; 2; 12; 3; 13]) 0
  = (mkTensor2 2 2 [0; 10; 1; 11], [1; 11; 2; 12]).
Proof. reflexivity. Qed.

Example get_batch_last_is_short :
  get_batch 2 (mkTensor2 4 2 [0; 10; 1; 11; 2; 12; 3; 13]) 2
  = (mkTensor2 1 2 [2; 12], [3; 13]).
Proof. reflexivity. Qed.

(** A negative window size makes the end of the slice count from the end
    of the source. *)
Example get_batch_negative_window :
  get_batch (-1) (mkTensor2 4 2 [0; 10; 1; 11; 2; 12; 3; 13]) 0
  = (mkTensor2 3 2 [0; 10; 1; 11; 2; 12], []).
Proof. reflexivity. Qed.

(** C2: for a source of T rows, a start 0 <= i <= T - 2 and a window size
    W, [get_batch] returns as data the seq_len = min(W, T - 1 - i) rows from
    row i on, and as target the rows i + 1 .. i + seq_len flattened row
    after row: its element of index t * B + b is the source entry at row
    i + 1 + t and column b. *)
Theorem get_batch_spec (W : Z) (source : Tensor2 Z) (i : Z) :
  Tensor.wf source ->
  0 <= W ->
  0 <= i <= Tensor.len source - 2 ->
  let B := size1 source in
  let seq_len := Z.min W (Tensor.len source - 1 - i) in
  let data := fst (get_batch W source i) in
  let target := snd (get_batch W source i) in
  Tensor.len data = seq_len
  /\ size1 data = B
  /\ Tensor.wf data
  /\ Z.of_nat (length target) = seq_len * Z.of_nat B
  /\ forall t b : nat,
       Z.of_nat t < seq_len -> (b < B)%nat ->
       Tensor.get 0 data t b = Tensor.get 0 source (Z.to_nat i + t) b
       /\ nth (t * B + b) target 0
          = Tensor.get 0 source (Z.to_nat i + 1 + t) b.
Proof.
  intros Hwf HW Hi B seq_len data target.
  assert (Hs : 0 <= seq_len <= Tensor.len source - 1 - i)
    by (unfold seq_len; lia).
  unfold data, target, get_batch. cbn [fst snd]. fold seq_len.
  unfold Tensor.view_flat.
  pose proof (slice_rows_inside source i (i + seq_len)
                ltac:(lia) ltac:(lia)) as Ed.
  pose proof (wf_slice_rows source (i + 1) (i + 1 + seq_len) Hwf
                ltac:(lia) ltac:(lia)) as Wt.
  pose proof (slice_rows_inside source (i + 1) (i + 1 + seq_len)
                ltac:(lia) ltac:(lia)) as Et.
  split; [|split; [|split; [|split; [|intros t b Ht Hb; split]]]].
  - rewrite Ed. unfold Tensor.len. simpl. lia.
  - rewrite Ed. reflexivity.
  - apply wf_slice_rows; [assumption|lia|lia].
  - rewrite Wt, Et. simpl. fold B. lia.
  - apply get_slice_rows; [lia|lia|lia|assumption].
  - change (Tensor.get 0 (Tensor.slice_rows source (i + 1) (i + 1 + seq_len))
                       t b
            = Tensor.get 0 source (Z.to_nat i + 1 + t) b).
    rewrite get_slice_rows by (assumption || lia). f_equal. lia.
Qed.

Lemma get_batch_spec_witness :
  let source := mkTensor2 4 2 [0; 10; 1; 11; 2; 12; 3; 13] in
  Tensor.len (fst (get_batch 2 source 2)) = 1
  /\ nth 1 (snd (get_batch 2 source 2)) 0 = 13.
Proof.
  intros source.
  destruct (get_batch_spec 2 source 2 eq_refl ltac:(lia) ltac:(cbn; lia))
    as (Hlen & _ & _ & _ & Hget).
  split.
  - exact Hlen.
  - exact (proj2 (Hget 0%nat 1%nat ltac:(cbn; lia) ltac:(cbn; lia))).
Defined.

(** ** Causal mask *)

Lemma tabulate_ext {A : Type} (n m : nat) (f g : nat -> nat -> A) :
  (forall i j, (i < n)%nat -> (j < m)%nat -> f i j = g i j) ->
  Tensor.tabulate n m f = Tensor.tabulate n m g.
Proof.
  intros H. unfold Tensor.tabulate. f_equal.
  apply flat_map_ext_in. intros i Hi. apply in_seq in Hi.
  apply map_ext_in. intros j Hj. apply in_seq in Hj.
  apply H; lia.
Qed.

Lemma map_t_tabulate {A B : Type} (h : A -> B) (n m : nat)
  (f : nat -> nat -> A) :
  Tensor.map_t h (Tensor.tabulate n m f)
  = Tensor.tabulate n m (fun i j => h (f i j)).
Proof.
  unfold Tensor.map_t, Tensor.tabulate. simpl. f_equal.
  induction (seq 0 n) as [|i l IH]; simpl.
  - reflexivity.
  - now rewrite map_app, map_map, IH.
Qed.

Lemma t_contiguous_tabulate {A : Type} (d : A) (n m : nat)
  (f : nat -> nat -> A) :
  Tensor.t_contiguous d (Tensor.tabulate n m f)
  = Tensor.tabulate m n (fun r c => f c r).
Proof.
  unfold Tensor.t_contiguous.
  change (size0 (Tensor.tabulate n m f)) with n.
  change (size1 (Tensor.tabulate n m f)) with m.
  apply (tabulate_ext m n
           (fun r c => Tensor.get d (Tensor.tabulate n m f) c r)).
  intros i j Hi Hj. now apply get_tabulate.
Qed.

Lemma fill_twice (S : list bool) :
  map (fun xc : float * bool => if snd xc then zero else fst xc)
      (combine
         (map (fun xc : float * bool => if snd xc then neg_infinity else fst xc)
              (combine (map (fun b : bool => if b then one else zero) S)
                       (map negb S)))
         (map (fun b : bool => b) S))
  = map (fun b : bool => if b then zero else neg_infinity) S.
Proof.
  induction S as [|b S IH]; simpl.
  - reflexivity.
  - rewrite IH. now destruct b.
Qed.

Lemma mask_closed_form (sz : nat) :
  Mask.generate_square_subsequent_mask sz
  = Tensor.tabulate sz sz
      (fun i j => if (j <=? i)%nat then zero else neg_infinity).
Proof.
  unfold Mask.generate_square_subsequent_mask.
  set (mask := Mask.transpose (Mask.eq_scalar (Mask.triu (Mask.ones sz sz)) one)).
  assert (Hmask : mask = Tensor.tabulate sz sz (fun i j => (j <=? i)%nat)).
  { unfold mask, Mask.transpose, Mask.eq_scalar, Mask.triu, Mask.ones.
    change (size0 (Tensor.tabulate sz sz (fun _ _ : nat => one))) with sz.
    change (size1 (Tensor.tabulate sz sz (fun _ _ : nat => one))) with sz.
    rewrite map_t_tabulate, t_contiguous_tabulate.
    apply tabulate_ext. intros i j Hi Hj.
    rewrite get_tabulate by assumption.
    now destruct (j <=? i)%nat. }
  unfold Mask.masked_fill, Mask.to_float, Mask.eq_false, Mask.eq_true.
  cbn [size0 size1 storage Tensor.map_t].
  rewrite fill_twice.
  change (mkTensor2 (size0 mask) (size1 mask)
            (map (fun b : bool => if b then zero else neg_infinity)
                 (storage mask)))
    with (Tensor.map_t (fun b : bool => if b then zero else neg_infinity) mask).
  rewrite Hmask, map_t_tabulate. reflexivity.
Qed.

Example mask_3 :
  Mask.generate_square_subsequent_mask 3
  = mkTensor2 3 3 [zero; neg_infinity; neg_infinity;
                   zero; zero; neg_infinity;
                   zero; zero; zero].
Proof. reflexivity. Qed.

(** C3: the causal mask of size n is an n x n matrix whose entry (i, j) is
    0 when j <= i and minus infinity when j > i; it is determined by n
    alone, so that generating it again for the same size gives the very
    same matrix. *)
Theorem generate_square_subsequent_mask_spec (n : nat) :
  let mask := Mask.generate_square_subsequent_mask n in
  size0 mask = n
  /\ size1 mask = n
  /\ Tensor.wf mask
  /\ (forall i j : nat,
        (i < n)%nat -> (j < n)%nat ->
        Tensor.get zero mask i j
        = if (j <=? i)%nat then zero else neg_infinity)
  /\ (forall n' : nat,
        n' = n -> Mask.generate_square_subsequent_mask n' = mask).
Proof.
  intros mask. unfold mask. rewrite mask_closed_form.
  split; [reflexivity|]. split; [reflexivity|].
  split; [apply wf_tabulate|]. split.
  - intros i j Hi Hj. now rewrite get_tabulate.
  - intros n' ->. apply mask_closed_form.
Qed.

(** ** Commands and the states they leave *)

Section Keeps.
Context {S : Type} (P : S -> S -> Prop).
Hypothesis P_refl : forall s, P s s.
Hypothesis P_trans : forall a b c, P a b -> P b c -> P a c.

Lemma keeps_ret {A : Type} (a : A) : keeps P (ret a).
Proof. intros s. apply P_refl. Qed.

Lemma keeps_lift {A : Type} (r : result A) : keeps P (lift r).
Proof. intros s. apply P_refl. Qed.

Lemma keeps_bind {A B : Type} (m : M S A) (k : A -> M S B) :
  keeps P m -> (forall a, keeps P (k a)) -> keeps P (mbind m k).
Proof.
  intros Hm Hk s. unfold mbind. specialize (Hm s).
  destruct (m s) as [[a|e] s1]; simpl in *.
  - apply P_trans with s1; [assumption|apply Hk].
  - assumption.
Qed.

Lemma keeps_for_acc {X Acc : Type} (xs : list X)
  (body : Acc -> X -> M S Acc) (acc : Acc) :
  (forall a x, keeps P (body a x)) -> keeps P (for_acc xs body acc).
Proof.
  intros Hbody. revert acc. induction xs as [|x xs IH]; intros acc; simpl.
  - apply keeps_ret.
  - apply keeps_bind; [apply Hbody|apply IH].
Qed.

Lemma keeps_if {A : Type} (b : bool) (m1 m2 : M S A) :
  keeps P m1 -> keeps P m2 -> keeps P (if b then m1 else m2).
Proof. now destruct b. Qed.

End Keeps.

Lemma for_acc_app {S X Acc : Type} (xs ys : list X)
  (body : Acc -> X -> M S Acc) (acc : Acc) (s : S) :
  for_acc (xs ++ ys) body acc s
  = mbind (for_acc xs body acc) (for_acc ys body) s.
Proof.
  revert acc s. induction xs as [|x xs IH]; intros acc s; simpl.
  - reflexivity.
  - unfold mbind. destruct (body acc x s) as [[a|e] s1].
    + rewrite IH. reflexivity.
    + reflexivity.
Qed.

(** ** The heap *)

Section Heap.
Context {Params : Type}.
Implicit Types (h : list (TransformerModel Params)).

Lemma length_update h a o : length (update h a o) = length h.
Proof.
  revert a. induction h as [|x h IH]; intros [|a]; simpl; auto.
Qed.

Lemma nth_error_update_eq h a o x :
  nth_error h a = Some x -> nth_error (update h a o) a = Some o.
Proof.
  revert a. induction h as [|y h IH]; intros [|a]; simpl;
    intros H; try discriminate; auto.
Qed.

Lemma nth_error_update_neq h a b o :
  a <> b -> nth_error (update h a o) b = nth_error h b.
Proof.
  revert a b. induction h as [|y h IH]; intros [|a] [|b] Hab; simpl;
    auto; try contradiction.
Qed.

Lemma update_rel (Rel : TransformerModel Params -> TransformerModel Params -> Prop)
  h self o o' :
  (forall x, Rel x x) ->
  nth_error h self = Some o -> Rel o o' ->
  forall a x, nth_error h a = Some x ->
              exists x', nth_error (update h self o') a = Some x' /\ Rel x x'.
Proof.
  intros Hrefl Hself Hrel a x Ha.
  destruct (Nat.eq_dec self a) as [<-|Hne].
  - exists o'. split; [eapply nth_error_update_eq; eassumption|].
    congruence.
  - exists x. split; [now rewrite nth_error_update_neq|apply Hrefl].
Qed.

End Heap.

Section Relations.
Context {Params Rng : Type}.
Implicit Types (w : World Params Rng).

Lemma objects_rel_refl Rel :
  (forall o : TransformerModel Params, Rel o o) ->
  forall w, objects_rel Rel w w.
Proof. intros H w a o Ha. exists o. auto. Qed.

Lemma objects_rel_trans Rel :
  (forall o1 o2 o3 : TransformerModel Params,
      Rel o1 o2 -> Rel o2 o3 -> Rel o1 o3) ->
  forall w1 w2 w3,
    objects_rel Rel w1 w2 -> objects_rel Rel w2 w3 -> objects_rel Rel w1 w3.
Proof.
  intros H w1 w2 w3 H12 H23 a o Ha.
  destruct (H12 a o Ha) as (o2 & Ha2 & R12).
  destruct (H23 a o2 Ha2) as (o3 & Ha3 & R23).
  exists o3. eauto.
Qed.

Lemma same_weights_refl (o : TransformerModel Params) : same_weights o o.
Proof. split; reflexivity. Qed.

Lemma same_weights_trans (o1 o2 o3 : TransformerModel Params) :
  same_weights o1 o2 -> same_weights o2 o3 -> same_weights o1 o3.
Proof. unfold same_weights. intros [] []. split; congruence. Qed.

Lemma same_table_refl (o : TransformerModel Params) : same_table o o.
Proof. reflexivity. Qed.

Lemma same_table_trans (o1 o2 o3 : TransformerModel Params) :
  same_table o1 o2 -> same_table o2 o3 -> same_table o1 o3.
Proof. unfold same_table. congruence. Qed.

Lemma same_run_state_refl w : same_run_state w w.
Proof. repeat split. Qed.

Lemma same_run_state_trans w1 w2 w3 :
  same_run_state w1 w2 -> same_run_state w2 w3 -> same_run_state w1 w3.
Proof.
  unfold same_run_state. intros (?&?&?&?) (?&?&?&?).
  repeat split; congruence.
Qed.

Lemma same_stdout_refl w : same_stdout w w.
Proof. reflexivity. Qed.

Lemma same_stdout_trans w1 w2 w3 :
  same_stdout w1 w2 -> same_stdout w2 w3 -> same_stdout w1 w3.
Proof. unfold same_stdout. congruence. Qed.

End Relations.

Create HintDb frames.
#[local] Hint Resolve same_weights_refl same_weights_trans
  same_table_refl same_table_trans same_run_state_refl same_run_state_trans
  same_stdout_refl same_stdout_trans : frames.
#[local] Hint Resolve keeps_ret keeps_lift : frames.

(** ** The model object and its mask cache *)

Section ForwardFacts.
Variables Params Rng Output : Type.
Variable network :
  bool -> Params -> Tensor2 R -> option (Tensor2 float) -> Tensor2 Z ->
  Rng -> Output * Rng.
Implicit Types (w : World Params Rng) (o : TransformerModel Params).

(** Output and generator state of the network run by [forward]. *)
Let net o src g :=
  let o1 := refresh o src in
  network (training o1) (params o1) (pe o1) (src_mask o1) src g.

Lemma forward_run w self o src :
  nth_error (heap w) self = Some o ->
  forward network self src w
  = (Ok (fst (net o src (rng w))),
     mkWorld (if stale o src then update (heap w) self (refresh o src)
              else heap w)
             (snd (net o src (rng w))) (opt_lr w) (scheduler w)
             (best_val_loss w) (best_model w) (stdout w)).
Proof.
  intros H. unfold forward, mbind, load, net, refresh. rewrite H.
  destruct (stale o src) eqn:E.
  - unfold store. cbn [heap].
    rewrite (nth_error_update_eq _ _ _ _ H).
    unfold with_rng. cbn [rng heap opt_lr scheduler best_val_loss
                          best_model stdout].
    destruct (network _ _ _ _ _ _). reflexivity.
  - unfold ret. rewrite H. unfold with_rng.
    destruct (network _ _ _ _ _ _). reflexivity.
Qed.

Lemma forward_object w self o src :
  nth_error (heap w) self = Some o ->
  nth_error (heap (snd (forward network self src w))) self
  = Some (refresh o src).
Proof.
  intros H. rewrite (forward_run _ _ _ _ H). cbn [snd heap].
  unfold refresh. destruct (stale o src).
  - eapply nth_error_update_eq; eassumption.
  - assumption.
Qed.

Lemma refresh_same_weights o src : same_weights o (refresh o src).
Proof. unfold refresh. destruct (stale o src); split; reflexivity. Qed.

Lemma stale_iff o src :
  stale o src = true
  <-> (src_mask o = None
       \/ exists m, src_mask o = Some m /\ size0 m <> size0 src).
Proof.
  unfold stale, Tensor.len. destruct (src_mask o) as [m|].
  - destruct (Z.eqb_spec (Z.of_nat (size0 m)) (Z.of_nat (size0 src)))
      as [E|E]; simpl; split.
    + discriminate.
    + intros [?|(m' & Hm & Hne)]; [discriminate|].
      injection Hm as <-. lia.
    + intros _. right. exists m. split; [reflexivity|lia].
    + reflexivity.
  - split; auto.
Qed.

Lemma refresh_mask_size o src :
  exists m, src_mask (refresh o src) = Some m /\ size0 m = size0 src.
Proof.
  unfold refresh. destruct (stale o src) eqn:E.
  - eexists. split; reflexivity.
  - unfold stale in E. destruct (src_mask o) as [m|]; [|discriminate].
    exists m. split; [reflexivity|].
    apply negb_false_iff, Z.eqb_eq in E. unfold Tensor.len in E. lia.
Qed.

Lemma last_refresh_snoc (hist : list (Tensor2 Z * bool)) src b :
  last_refresh (hist ++ [(src, b)])
  = if b then Some (size0 src) else last_refresh hist.
Proof.
  induction hist as [|[s0 b0] hist IH]; simpl.
  - reflexivity.
  - rewrite IH. destruct b; [reflexivity|].
    destruct (last_refresh hist); reflexivity.
Qed.

Lemma calls_cache_size self w hist w1 :
  calls network self w hist w1 ->
  forall o n, nth_error (heap w1) self = Some o ->
              last_refresh hist = Some n ->
              exists m, src_mask o = Some m /\ size0 m = n.
Proof.
  induction 1 as [w|w w1 w2 hist o src out Hc IH Ho Hf];
    intros o' n Ho' Hlast.
  - discriminate.
  - pose proof (forward_object w1 self o src Ho) as Hobj.
    rewrite Hf in Hobj. cbn [snd] in Hobj.
    rewrite Ho' in Hobj. injection Hobj as ->.
    rewrite last_refresh_snoc in Hlast.
    unfold refresh. destruct (stale o src) eqn:E.
    + injection Hlast as <-. eexists. split; reflexivity.
    + eapply IH; eassumption.
Qed.

(** C4: during [forward] the cached mask is rebuilt and replaced only
    when none is cached or when the size of the cached one differs from
    the length of the input; otherwise the model object is left as it is.
    After every call of [forward] the size of the cached mask is the
    length of the input of the most recent call that refreshed it. *)
Theorem forward_mask_cache self w hist w1 o src :
  calls network self w hist w1 ->
  nth_error (heap w1) self = Some o ->
  exists out w2 o2,
    forward network self src w1 = (Ok out, w2)
    /\ nth_error (heap w2) self = Some o2
    /\ (stale o src = true
        <-> (src_mask o = None
             \/ exists m, src_mask o = Some m /\ size0 m <> size0 src))
    /\ (stale o src = true ->
        o2 = set_src_mask o
               (Some (Mask.generate_square_subsequent_mask (size0 src))))
    /\ (stale o src = false -> o2 = o)
    /\ exists m,
        src_mask o2 = Some m
        /\ size0 m = size0 src
        /\ forall n,
             last_refresh (hist ++ [(src, stale o src)]) = Some n ->
             size0 m = n.
Proof.
  intros Hc Ho.
  pose proof (forward_run w1 self o src Ho) as Hrun.
  pose proof (forward_object w1 self o src Ho) as Hobj.
  rewrite Hrun in Hobj. cbn [snd] in Hobj.
  eexists _, _, (refresh o src).
  split; [exact Hrun|]. split; [exact Hobj|].
  split; [apply stale_iff|].
  split; [unfold refresh; now intros ->|].
  split; [unfold refresh; now intros ->|].
  destruct (refresh_mask_size o src) as (m & Hm & Hsize).
  exists m. split; [exact Hm|]. split; [exact Hsize|].
  intros n Hlast.
  assert (Hc2 : calls network self w (hist ++ [(src, stale o src)])
                  (snd (forward network self src w1))).
  { eapply calls_snoc; [exact Hc|exact Ho|].
    rewrite Hrun. reflexivity. }
  rewrite Hrun in Hc2. cbn [snd] in Hc2.
  destruct (calls_cache_size _ _ _ _ Hc2 _ n Hobj Hlast) as (m' & Hm' & <-).
  congruence.
Qed.

End ForwardFacts.

Example forward_twice_same_length :
  let src := Toy.column 3 in
  let w1 := snd (forward Toy.network model src Toy.world0) in
  let w2 := snd (forward Toy.network model src w1) in
  option_map src_mask (nth_error (heap w1) model)
  = Some (Some (Mask.generate_square_subsequent_mask 3))
  /\ heap w2 = heap w1.
Proof. split; reflexivity. Qed.

Lemma forward_mask_cache_witness :
  exists out w2 o2,
    forward Toy.network model (Toy.column 3) Toy.world0 = (Ok out, w2)
    /\ nth_error (heap w2) model = Some o2
    /\ src_mask o2 = Some (Mask.generate_square_subsequent_mask 3).
Proof.
  destruct (forward_mask_cache Z unit Z Toy.network model Toy.world0 []
              Toy.world0 (mkModel None true Toy.no_table 0) (Toy.column 3)
              (calls_nil Toy.network model Toy.world0) eq_refl)
    as (out & w2 & o2 & Hf & Ho & _ & Hst & _).
  exists out, w2, o2. split; [exact Hf|]. split; [exact Ho|].
  rewrite (Hst eq_refl). reflexivity.
Defined.

(** ** Windows of a split *)

Section Windows.
Variable bptt : Z.
Hypothesis bptt_pos : 1 <= bptt.

Lemma range_windows (T : Z) :
  Py.range 0 (T - 1) bptt = Ok (window_starts bptt T).
Proof.
  unfold Py.range, Py.range_len, window_starts.
  destruct (Z.eqb_spec bptt 0) as [|_]; [lia|].
  destruct (Z.ltb_spec 0 bptt) as [_|]; [|lia].
  replace (T - 1 - 0 + bptt - 1) with (T - 1 + bptt - 1) by lia.
  reflexivity.
Qed.

Lemma window_count_covers (T : Z) :
  T - 1 <= (T - 1 + bptt - 1) / bptt * bptt.
Proof.
  pose proof (Z.mul_succ_div_gt (T - 1 + bptt - 1) bptt ltac:(lia)) as H2.
  nia.
Qed.

Lemma window_start_bounds (T i : Z) :
  In i (window_starts bptt T) -> 0 <= i <= T - 2.
Proof.
  unfold window_starts. intros H. apply in_map_iff in H.
  destruct H as (k & <- & Hk). apply in_seq in Hk.
  pose proof (Z.mul_div_le (T - 1 + bptt - 1) bptt ltac:(lia)) as H1.
  assert (Z.of_nat k + 1 <= (T - 1 + bptt - 1) / bptt) by lia.
  nia.
Qed.

Lemma window_len_pos (T i : Z) :
  In i (window_starts bptt T) -> 1 <= window_len bptt T i.
Proof.
  intros H. apply window_start_bounds in H. unfold window_len. lia.
Qed.

Lemma window_len_get_batch (source : Tensor2 Z) (i : Z) :
  In i (window_starts bptt (Tensor.len source)) ->
  Tensor.len (fst (get_batch bptt source i))
  = window_len bptt (Tensor.len source) i.
Proof.
  intros H. apply window_start_bounds in H.
  unfold get_batch, window_len. cbn [fst].
  rewrite slice_rows_inside by lia.
  unfold Tensor.len at 1. simpl. lia.
Qed.

Lemma sum_window_lens_prefix (T : Z) (m : nat) :
  Z.of_nat m <= (T - 1 + bptt - 1) / bptt ->
  1 <= T ->
  fold_right Z.add 0
    (map (window_len bptt T)
         (map (fun k => Z.of_nat k * bptt) (seq 0 m)))
  = Z.min (Z.of_nat m * bptt) (T - 1).
Proof.
  intros Hm HT. induction m as [|m IH].
  - simpl. lia.
  - rewrite seq_S, !map_app, fold_right_app.
    cbn [map fold_right Nat.add].
    pose proof (Z.mul_div_le (T - 1 + bptt - 1) bptt ltac:(lia)) as H1.
    assert (Hlt : Z.of_nat m * bptt < T - 1) by nia.
    assert (Hgen : forall (l : list Z) (a : Z),
               fold_right Z.add a l = fold_right Z.add 0 l + a).
    { induction l as [|x l IHl]; intros a; simpl; [lia|].
      rewrite IHl. lia. }
    rewrite Hgen, IH by lia. unfold window_len.
    replace (Z.of_nat (S m) * bptt) with (Z.of_nat m * bptt + bptt) by lia.
    lia.
Qed.

Lemma sum_window_lens (T : Z) :
  1 <= T ->
  fold_right Z.add 0 (map (window_len bptt T) (window_starts bptt T))
  = T - 1.
Proof.
  intros HT. unfold window_starts.
  assert (0 <= (T - 1 + bptt - 1) / bptt) by (apply Z.div_pos; lia).
  rewrite sum_window_lens_prefix by lia.
  pose proof (window_count_covers T). lia.
Qed.

End Windows.

(** ** What the commands leave unchanged *)

Section Frames.
Variables Params Rng Output : Type.
Variable network :
  bool -> Params -> Tensor2 R -> option (Tensor2 float) -> Tensor2 Z ->
  Rng -> Output * Rng.
Variable criterion : Output -> list Z -> float.
Variable sgd_step : Q -> Params -> Output -> list Z -> Params.
Implicit Types (w : World Params Rng) (o : TransformerModel Params).

Lemma load_run w self o :
  nth_error (heap w) self = Some o -> load self w = (Ok o, w).
Proof. intros H. unfold load. now rewrite H. Qed.

Lemma load_fail w self :
  nth_error (heap w) self = None -> load self w = (Raise RuntimeError, w).
Proof. intros H. unfold load. now rewrite H. Qed.

Lemma set_mode_run w self o b :
  nth_error (heap w) self = Some o ->
  set_mode self b w
  = (Ok tt, mkWorld (update (heap w) self (set_training o b)) (rng w)
                    (opt_lr w) (scheduler w) (best_val_loss w)
                    (best_model w) (stdout w)).
Proof.
  intros H. unfold set_mode, mbind. now rewrite (load_run _ _ _ H).
Qed.

Lemma optimizer_step_run w self o output targets :
  nth_error (heap w) self = Some o ->
  optimizer_step sgd_step self output targets w
  = (Ok tt,
     mkWorld (update (heap w) self
                (set_params o (sgd_step (opt_lr w) (params o) output targets)))
             (rng w) (opt_lr w) (scheduler w) (best_val_loss w)
             (best_model w) (stdout w)).
Proof.
  intros H. unfold optimizer_step, mbind. now rewrite (load_run _ _ _ H).
Qed.

(** A command that first loads the object at [self] leaves the state as
    it is when nothing is allocated there. *)
Ltac by_object w self :=
  let E := fresh "E" in
  let o := fresh "o" in
  destruct (nth_error (heap w) self) as [o|] eqn:E;
  [ | first [ progress unfold forward | progress unfold set_mode
            | progress unfold optimizer_step ];
      unfold mbind; rewrite (load_fail _ _ E); cbn [snd] ].

Lemma forward_keeps_run_state self src :
  keeps same_run_state (forward network self src).
Proof.
  intros w. by_object w self.
  - rewrite (forward_run _ _ _ _ _ _ _ _ E). repeat split.
  - apply same_run_state_refl.
Qed.

Lemma forward_keeps_stdout self src :
  keeps same_stdout (forward network self src).
Proof.
  intros w. by_object w self.
  - rewrite (forward_run _ _ _ _ _ _ _ _ E). reflexivity.
  - reflexivity.
Qed.

Lemma forward_keeps_weights self src :
  keeps (objects_rel same_weights) (forward network self src).
Proof.
  intros w. by_object w self.
  - rewrite (forward_run _ _ _ _ _ _ _ _ E). cbn [snd].
    intros a x Ha. cbn [heap]. destruct (stale o src) eqn:Es.
    + eapply update_rel; eauto using same_weights_refl.
      apply refresh_same_weights.
    + exists x. split; [assumption|apply same_weights_refl].
  - apply objects_rel_refl, same_weights_refl.
Qed.

Lemma set_mode_keeps_run_state self b :
  keeps same_run_state (set_mode (Params := Params) (Rng := Rng) self b).
Proof.
  intros w. by_object w self.
  - rewrite (set_mode_run _ _ _ _ E). repeat split.
  - apply same_run_state_refl.
Qed.

Lemma set_mode_keeps_stdout self b :
  keeps same_stdout (set_mode (Params := Params) (Rng := Rng) self b).
Proof.
  intros w. by_object w self.
  - rewrite (set_mode_run _ _ _ _ E). reflexivity.
  - reflexivity.
Qed.

Lemma set_mode_keeps_weights self b :
  keeps (objects_rel same_weights)
        (set_mode (Params := Params) (Rng := Rng) self b).
Proof.
  intros w. by_object w self.
  - rewrite (set_mode_run _ _ _ _ E). cbn [snd]. intros a x Ha. cbn [heap].
    eapply update_rel; eauto using same_weights_refl.
    split; reflexivity.
  - apply objects_rel_refl, same_weights_refl.
Qed.

Lemma optimizer_step_keeps_run_state self output targets :
  keeps same_run_state
        (optimizer_step (Rng := Rng) sgd_step self output targets).
Proof.
  intros w. by_object w self.
  - rewrite (optimizer_step_run _ _ _ _ _ E). repeat split.
  - apply same_run_state_refl.
Qed.

Lemma optimizer_step_keeps_stdout self output targets :
  keeps same_stdout
        (optimizer_step (Rng := Rng) sgd_step self output targets).
Proof.
  intros w. by_object w self.
  - rewrite (optimizer_step_run _ _ _ _ _ E). reflexivity.
  - reflexivity.
Qed.

Lemma optimizer_step_keeps_table self output targets :
  keeps (objects_rel same_table)
        (optimizer_step (Rng := Rng) sgd_step self output targets).
Proof.
  intros w. by_object w self.
  - rewrite (optimizer_step_run _ _ _ _ _ E). cbn [snd].
    intros a x Ha. cbn [heap].
    eapply update_rel; eauto using same_table_refl. reflexivity.
  - apply objects_rel_refl, same_table_refl.
Qed.

Lemma weights_table w w' :
  objects_rel same_weights w w' -> objects_rel same_table w w'.
Proof.
  intros H a o Ha. destruct (H a o Ha) as (o' & Ho' & _ & Hpe).
  exists o'. split; assumption.
Qed.

Lemma keeps_weights_table {A : Type} (m : M (World Params Rng) A) :
  keeps (objects_rel same_weights) m -> keeps (objects_rel same_table) m.
Proof. intros H w. apply weights_table, H. Qed.

Lemma print_keeps_run_state l :
  keeps same_run_state (print (Params := Params) (Rng := Rng) l).
Proof. intros w. repeat split. Qed.

Lemma same_heap_rel Rel w w' :
  (forall o, Rel o o) -> heap w' = heap w -> objects_rel Rel w w'.
Proof. intros Hr Hh a o Ha. exists o. rewrite Hh. auto. Qed.

Lemma print_keeps_weights l :
  keeps (objects_rel same_weights) (print (Params := Params) (Rng := Rng) l).
Proof. intros w. now apply same_heap_rel; [apply same_weights_refl|]. Qed.

Lemma read_keeps {A : Type} (P : World Params Rng -> World Params Rng -> Prop)
  (f : World Params Rng -> A) :
  (forall w, P w w) -> keeps P (read f).
Proof. intros H w. apply H. Qed.

Lemma deref_keeps (P : World Params Rng -> World Params Rng -> Prop) v :
  (forall w, P w w) -> keeps P (deref v).
Proof. intros H w. destruct v; apply H. Qed.

Lemma set_best_keeps_weights l b :
  keeps (objects_rel same_weights)
        (set_best (Params := Params) (Rng := Rng) l b).
Proof. intros w. now apply same_heap_rel; [apply same_weights_refl|]. Qed.

Lemma scheduler_step_keeps_weights :
  keeps (objects_rel same_weights)
        (scheduler_step (Params := Params) (Rng := Rng)).
Proof. intros w. now apply same_heap_rel; [apply same_weights_refl|]. Qed.

End Frames.

#[local] Hint Resolve objects_rel_refl objects_rel_trans : frames.
#[local] Hint Resolve forward_keeps_run_state forward_keeps_stdout
  forward_keeps_weights set_mode_keeps_run_state set_mode_keeps_stdout
  set_mode_keeps_weights optimizer_step_keeps_run_state
  optimizer_step_keeps_stdout optimizer_step_keeps_table
  print_keeps_run_state print_keeps_weights set_best_keeps_weights
  scheduler_step_keeps_weights keeps_weights_table : frames.

Ltac frame_side := solve [eauto 6 with frames].

Ltac frame_step :=
  first
    [ apply keeps_ret; frame_side
    | apply keeps_lift; frame_side
    | apply read_keeps; frame_side
    | apply deref_keeps; frame_side
    | solve [eauto 3 with frames]
    | apply keeps_bind; [frame_side | | intros]
    | apply keeps_for_acc; [frame_side | frame_side | intros]
    | apply keeps_if
    | match goal with
      | |- keeps _ (let '(_, _) := ?p in _) => destruct p
      end ].

Ltac frame := repeat frame_step.

(** ** Evaluator *)

Section EvaluateFacts.
Variables Params Rng Output : Type.
Variable network :
  bool -> Params -> Tensor2 R -> option (Tensor2 float) -> Tensor2 Z ->
  Rng -> Output * Rng.
Variable criterion : Output -> list Z -> float.
Variable bptt : Z.
Implicit Types (w : World Params Rng) (o : TransformerModel Params).

Lemma evaluate_keeps_run_state v data_source :
  keeps same_run_state (evaluate network criterion bptt v data_source).
Proof. unfold evaluate. frame. Qed.

Lemma evaluate_keeps_stdout v data_source :
  keeps same_stdout (evaluate network criterion bptt v data_source).
Proof. unfold evaluate. frame. Qed.

Lemma evaluate_keeps_weights v data_source :
  keeps (objects_rel same_weights)
        (evaluate network criterion bptt v data_source).
Proof. unfold evaluate. frame. Qed.

Let step (acc : float) (nl : Z * float) : float :=
  PrimFloat.add acc (PrimFloat.mul (float_of_int (fst nl)) (snd nl)).

Lemma evaluate_loop self data_source starts :
  forall o w acc,
    nth_error (heap w) self = Some o ->
    exists w',
      for_acc starts
        (fun (total_loss : float) (i : Z) =>
           let '(data, targets) := get_batch bptt data_source i in
           mbind (forward network self data)
             (fun output =>
                ret (PrimFloat.add total_loss
                       (PrimFloat.mul (float_of_int (Tensor.len data))
                                      (criterion output targets)))))
        acc w
      = (Ok (fold_left step
               (combine
                  (map (fun i => Tensor.len (fst (get_batch bptt data_source i)))
                       starts)
                  (window_losses network criterion bptt o (rng w)
                                 data_source starts))
               acc),
         w').
Proof.
  induction starts as [|i starts IH]; intros o w acc Ho.
  - exists w. reflexivity.
  - cbn [for_acc window_losses map].
    destruct (get_batch bptt data_source i) as [data targets] eqn:Eb.
    unfold mbind at 1. unfold mbind at 1.
    pose proof (forward_object _ _ _ network w self o data Ho) as Hobj.
    rewrite (forward_run _ _ _ network w self o data Ho) in *.
    cbn [snd] in Hobj. cbv zeta.
    destruct (network (training (refresh o data)) (params (refresh o data))
                (pe (refresh o data)) (src_mask (refresh o data)) data
                (rng w)) as [output g1] eqn:En.
    cbn [fst snd ret].
    match goal with
    | |- context [for_acc starts _ ?a ?w1] =>
        destruct (IH (refresh o data) w1 a Hobj) as (w' & ->)
    end.
    exists w'. reflexivity.
Qed.

Lemma evaluate_run w self o data_source :
  nth_error (heap w) self = Some o ->
  1 <= bptt ->
  Tensor.len data_source <> 1 ->
  exists w',
    evaluate network criterion bptt (Some self) data_source w
    = (Ok (evaluate_spec network criterion bptt o (rng w) data_source), w').
Proof.
  intros Ho Hb HT.
  unfold evaluate, deref. unfold mbind at 1. cbn [ret].
  unfold mbind at 1. rewrite (set_mode_run _ _ w self o false Ho).
  unfold mbind at 1. unfold lift at 1.
  rewrite (range_windows bptt Hb).
  set (w1 := mkWorld (update (heap w) self (set_training o false)) (rng w)
                     (opt_lr w) (scheduler w) (best_val_loss w)
                     (best_model w) (stdout w)).
  assert (Ho1 : nth_error (heap w1) self = Some (set_training o false))
    by (eapply nth_error_update_eq; eassumption).
  unfold mbind at 1.
  destruct (evaluate_loop self data_source
              (window_starts bptt (Tensor.len data_source))
              (set_training o false) w1 PrimFloat.zero Ho1) as (w' & ->).
  exists w'. unfold lift, float_div_int.
  destruct (Z.eqb_spec (Tensor.len data_source - 1) 0) as [|_]; [lia|].
  unfold evaluate_spec, weighted_sum. fold step.
  rewrite (map_ext_in _ (window_len bptt (Tensor.len data_source)))
    by (intros i Hi; now apply window_len_get_batch).
  reflexivity.
Qed.

(** C7: on a split of T >= 2 rows [evaluate] visits the windows in
    sequence, adds up window length times window loss, and returns that
    sum divided by T - 1, which is the sum of the window lengths; the
    weights of every model object, the optimizer, the best-model record
    and the output are left as they were. *)
Theorem evaluate_correct w self o data_source :
  nth_error (heap w) self = Some o ->
  2 <= Tensor.len data_source ->
  1 <= bptt ->
  let T := Tensor.len data_source in
  exists w',
    evaluate network criterion bptt (Some self) data_source w
    = (Ok (evaluate_spec network criterion bptt o (rng w) data_source), w')
    /\ objects_rel same_weights w w'
    /\ same_run_state w w'
    /\ same_stdout w w'
    /\ fold_right Z.add 0 (map (window_len bptt T) (window_starts bptt T))
       = T - 1
    /\ forall i, In i (window_starts bptt T) ->
                 1 <= window_len bptt T i
                 /\ Tensor.len (fst (get_batch bptt data_source i))
                    = window_len bptt T i.
Proof.
  intros Ho HT Hb T.
  pose proof (evaluate_keeps_weights (Some self) data_source w) as Kw.
  pose proof (evaluate_keeps_run_state (Some self) data_source w) as Kr.
  pose proof (evaluate_keeps_stdout (Some self) data_source w) as Ks.
  destruct (evaluate_run w self o data_source Ho Hb ltac:(lia))
    as (w' & Hrun).
  rewrite Hrun in Kw, Kr, Ks. cbn [snd] in *.
  exists w'. split; [exact Hrun|]. split; [exact Kw|].
  split; [exact Kr|]. split; [exact Ks|].
  split; [apply sum_window_lens; unfold T; lia|].
  intros i Hi. split.
  - now apply window_len_pos.
  - now apply window_len_get_batch.
Qed.

End EvaluateFacts.

(** ** Trainer and epoch loop *)

Section TrainingFacts.
Variables Params Rng Output : Type.
Variable network :
  bool -> Params -> Tensor2 R -> option (Tensor2 float) -> Tensor2 Z ->
  Rng -> Output * Rng.
Variable criterion : Output -> list Z -> float.
Variable sgd_step : Q -> Params -> Output -> list Z -> Params.
Variables train_data val_data test_data : Tensor2 Z.
Variable bptt : Z.
Implicit Types (w : World Params Rng) (o : TransformerModel Params).

Local Abbreviation train' :=
  (train network criterion sgd_step train_data bptt).
Local Abbreviation train_windows' :=
  (train_windows network criterion sgd_step train_data bptt).
Local Abbreviation evaluate' := (evaluate network criterion bptt).
Local Abbreviation epoch_body' :=
  (epoch_body network criterion sgd_step train_data val_data bptt).
Local Abbreviation run_epochs' :=
  (run_epochs network criterion sgd_step train_data val_data bptt).
Local Abbreviation run_test' := (run_test network criterion test_data bptt).

Lemma train_keeps_run_state epoch : keeps same_run_state (train' epoch).
Proof. unfold train. frame. Qed.

Lemma train_keeps_table epoch :
  keeps (objects_rel same_table) (train' epoch).
Proof. unfold train. frame. Qed.

Lemma mbind_ok {A B : Type} (m : M (World Params Rng) A)
  (k : A -> M (World Params Rng) B) w a w1 :
  m w = (Ok a, w1) -> mbind m k w = k a w1.
Proof. intros H. unfold mbind. now rewrite H. Qed.

Lemma mbind_raise {A B : Type} (m : M (World Params Rng) A)
  (k : A -> M (World Params Rng) B) w e w1 :
  m w = (Raise e, w1) -> mbind m k w = (Raise e, w1).
Proof. intros H. unfold mbind. now rewrite H. Qed.

Lemma epoch_body_run epoch w w1 w2 val_loss :
  train' epoch w = (Ok tt, w1) ->
  evaluate' (Some model) val_data w1 = (Ok val_loss, w2) ->
  epoch_body' epoch w
  = if exp_overflows val_loss
    then (Raise OverflowError, at_summary w2)
    else (Ok tt, after_validation epoch val_loss w2).
Proof.
  intros Ht He. unfold epoch_body. unfold mbind at 1. rewrite Ht.
  unfold mbind at 1. rewrite He.
  unfold mbind at 1. unfold print at 1.
  unfold mbind at 1. unfold lift at 1. unfold math_exp.
  destruct (exp_overflows val_loss); [reflexivity|].
  unfold mbind, print, read, set_best, scheduler_step, ret.
  cbn [best_val_loss]. unfold after_validation.
  destruct (PrimFloat.ltb val_loss (best_val_loss w2));
    cbn [heap rng opt_lr scheduler best_val_loss best_model stdout];
    rewrite <- !app_assoc; reflexivity.
Qed.

Lemma epoch_body_inv epoch w w' :
  epoch_body' epoch w = (Ok tt, w') ->
  exists w1 w2 val_loss,
    train' epoch w = (Ok tt, w1)
    /\ evaluate' (Some model) val_data w1 = (Ok val_loss, w2)
    /\ w' = after_validation epoch val_loss w2.
Proof.
  intros H.
  destruct (train' epoch w) as [[[]|e] w1] eqn:Et.
  - destruct (evaluate' (Some model) val_data w1) as [[v|e] w2] eqn:Ev.
    + rewrite (epoch_body_run epoch w w1 w2 v Et Ev) in H.
      destruct (exp_overflows v); [discriminate|].
      injection H as <-. exists w1, w2, v. repeat split. exact Ev.
    + unfold epoch_body in H. unfold mbind at 1 in H. rewrite Et in H.
      unfold mbind at 1 in H. rewrite Ev in H. discriminate.
  - unfold epoch_body in H. unfold mbind at 1 in H. rewrite Et in H.
    discriminate.
Qed.

Lemma for_snoc_inv {X : Type} (xs : list X) (x : X)
  (body : X -> M (World Params Rng) unit) w w' :
  for_ (xs ++ [x]) body w = (Ok tt, w') ->
  exists w1, for_ xs body w = (Ok tt, w1) /\ body x w1 = (Ok tt, w').
Proof.
  unfold for_. rewrite for_acc_app. unfold mbind at 1.
  destruct (for_acc xs (fun _ x0 => body x0) tt w) as [[[]|e] w1];
    [|discriminate].
  cbn [for_acc]. unfold mbind, ret.
  destruct (body x w1) as [[[]|e] w2] eqn:Eb; [|discriminate].
  intros H. injection H as <-. exists w1. split; [reflexivity|exact Eb].
Qed.

Lemma epochs_list_S (n : nat) :
  epochs_list (S n) = epochs_list n ++ [Z.of_nat (S n)].
Proof.
  unfold epochs_list. rewrite seq_S, map_app. cbn [map Nat.add].
  do 2 f_equal. lia.
Qed.

Lemma range_epochs (n : nat) :
  Py.range 1 (Z.of_nat n + 1) 1 = Ok (epochs_list n).
Proof.
  unfold Py.range, Py.range_len, epochs_list. cbn [Z.eqb Z.ltb Z.compare].
  do 3 f_equal. rewrite Z.div_1_r. lia.
Qed.

Lemma run_epochs_unfold (n : nat) w :
  run_epochs' (Z.of_nat n) w
  = for_ (epochs_list n) epoch_body' (reset_best w).
Proof.
  unfold run_epochs. unfold mbind at 1. unfold set_best at 1.
  unfold mbind at 1. unfold lift. now rewrite range_epochs.
Qed.

Lemma run_epochs_first (n : nat) w :
  run_epochs' (Z.of_nat (S n)) w
  = mbind (epoch_body' 1)
          (fun _ => for_ (map (fun k => 1 + Z.of_nat k * 1) (seq 1 n))
                         epoch_body')
          (reset_best w).
Proof.
  rewrite run_epochs_unfold.
  change (epochs_list (S n))
    with (1 :: map (fun k => 1 + Z.of_nat k * 1) (seq 1 n)).
  unfold for_. cbn [for_acc]. unfold mbind.
  destruct (epoch_body' 1 (reset_best w)) as [[[]|e] w1]; reflexivity.
Qed.

Lemma epoch_body_frames epoch w w' :
  epoch_body' epoch w = (Ok tt, w') ->
  exists w1 w2 val_loss,
    train' epoch w = (Ok tt, w1)
    /\ evaluate' (Some model) val_data w1 = (Ok val_loss, w2)
    /\ w' = after_validation epoch val_loss w2
    /\ same_run_state w w2
    /\ objects_rel same_weights w1 w2.
Proof.
  intros H. destruct (epoch_body_inv _ _ _ H) as (w1 & w2 & v & Ht & Ev & ->).
  exists w1, w2, v. repeat (split; [assumption || reflexivity|]).
  pose proof (train_keeps_run_state epoch w) as K1.
  pose proof (evaluate_keeps_run_state _ _ _ network criterion bptt
                (Some model) val_data w1) as K2.
  pose proof (evaluate_keeps_weights _ _ _ network criterion bptt
                (Some model) val_data w1) as K3.
  rewrite Ht in K1. rewrite Ev in K2, K3. cbn [snd] in *.
  split; [eapply same_run_state_trans; eassumption|assumption].
Qed.


(** C6, as the code has it: in an epoch whose training and validation
    pass have returned, the summary line is formatted before the test on
    the validation loss; when the exponential on that line is out of range
    the epoch ends there with an overflow error and the best loss and the
    best model are as they were; otherwise they are replaced exactly when
    the validation loss compares strictly below the best loss so far.  In
    the first epoch, which starts from a best loss of plus infinity and no
    best model, the model is recorded exactly when its validation loss is
    below plus infinity and within the range of the exponential. *)
Theorem best_model_update epoch w w1 w2 val_loss :
  train' epoch w = (Ok tt, w1) ->
  evaluate' (Some model) val_data w1 = (Ok val_loss, w2) ->
  let w' := snd (epoch_body' epoch w) in
  let recorded :=
    PrimFloat.ltb val_loss (best_val_loss w)
    && negb (exp_overflows val_loss) in
  fst (epoch_body' epoch w)
  = (if exp_overflows val_loss then Raise OverflowError else Ok tt)
  /\ best_val_loss w' = (if recorded then val_loss else best_val_loss w)
  /\ best_model w' = (if recorded then Some model else best_model w)
  /\ (best_val_loss w = PrimFloat.infinity ->
      best_model w = None ->
      best_model w'
      = if PrimFloat.ltb val_loss PrimFloat.infinity
           && negb (exp_overflows val_loss)
        then Some model else None).
Proof.
  intros Ht Ev w' recorded.
  pose proof (train_keeps_run_state epoch w) as K1.
  pose proof (evaluate_keeps_run_state _ _ _ network criterion bptt
                (Some model) val_data w1) as K2.
  rewrite Ht in K1. rewrite Ev in K2. cbn [snd] in K1, K2.
  destruct K1 as (_ & _ & Hbl1 & Hbm1). destruct K2 as (_ & _ & Hbl2 & Hbm2).
  assert (Hbl : best_val_loss w2 = best_val_loss w) by congruence.
  assert (Hbm : best_model w2 = best_model w) by congruence.
  unfold w', recorded.
  rewrite (epoch_body_run epoch w w1 w2 val_loss Ht Ev).
  destruct (exp_overflows val_loss); cbn [fst snd negb].
  - rewrite !andb_false_r. unfold at_summary.
    cbn [best_val_loss best_model]. rewrite Hbl, Hbm.
    repeat split. intros _ ->. reflexivity.
  - rewrite !andb_true_r. unfold after_validation.
    cbn [best_val_loss best_model]. rewrite Hbl, Hbm.
    repeat split. intros -> ->. reflexivity.
Qed.

Lemma best_model_is_model (k : nat) w0 w :
  for_ (epochs_list k) epoch_body' w0 = (Ok tt, w) ->
  best_model w0 = None \/ best_model w0 = Some model ->
  best_model w = None \/ best_model w = Some model.
Proof.
  revert w. induction k as [|k IH]; intros w Hrun H0.
  - cbn in Hrun. injection Hrun as <-. exact H0.
  - rewrite epochs_list_S in Hrun.
    destruct (for_snoc_inv _ _ _ _ _ Hrun) as (wk & Hk & Hbody).
    specialize (IH wk Hk H0).
    destruct (epoch_body_frames _ _ _ Hbody)
      as (w1 & w2 & v & _ & _ & -> & (_ & _ & _ & Hbm) & _).
    unfold after_validation. cbn [best_model].
    destruct (PrimFloat.ltb v (best_val_loss w2)); [now right|].
    now rewrite Hbm.
Qed.
Lemma run_test_result w :
  fst (run_test' w)
  = bind (fst (evaluate' (best_model w) test_data w))
         (fun test_loss =>
            bind (math_exp test_loss) (fun _ => Ok test_loss)).
Proof.
  unfold run_test. unfold mbind at 1. unfold read at 1.
  unfold mbind at 1.
  destruct (evaluate' (best_model w) test_data w) as [[v|e] w1];
    [|reflexivity].
  cbn [fst bind]. unfold mbind at 1. unfold print at 1.
  unfold mbind at 1. unfold lift at 1.
  destruct (math_exp v) as [[]|e]; reflexivity.
Qed.

(** C10: the best model is recorded as a reference to the live model
    object.  After the loop over the epochs, if some epoch was recorded
    then [best_model] is the address of [model]; the weights found there
    are those left by the training of the final epoch; and the test
    evaluation is the evaluation of that object as it then is, whichever
    epoch had the lowest validation loss: the test cell yields the loss of
    that evaluation, unless its exponential on the final line is out of
    range. *)
Theorem best_model_is_live_model (n : nat) w0 w' :
  run_epochs' (Z.of_nat (S n)) w0 = (Ok tt, w') ->
  best_model w' <> None ->
  best_model w' = Some model
  /\ (exists wa wb,
        for_ (epochs_list n) epoch_body' (reset_best w0) = (Ok tt, wa)
        /\ train' (Z.of_nat (S n)) wa = (Ok tt, wb)
        /\ objects_rel same_weights wb w')
  /\ fst (run_test' w')
     = bind (fst (evaluate' (Some model) test_data w'))
            (fun test_loss =>
               bind (math_exp test_loss) (fun _ => Ok test_loss)).
Proof.
  intros Hrun Hsome. rewrite run_epochs_unfold in Hrun.
  assert (Hbm : best_model w' = Some model).
  { destruct (best_model_is_model _ _ _ Hrun (or_introl eq_refl));
      [contradiction|assumption]. }
  split; [exact Hbm|]. split.
  - rewrite epochs_list_S in Hrun.
    destruct (for_snoc_inv _ _ _ _ _ Hrun) as (wa & Hpre & Hbody).
    destruct (epoch_body_frames _ _ _ Hbody)
      as (wb & w2 & v & Ht & _ & -> & _ & Hw).
    exists wa, wb. split; [exact Hpre|]. split; [exact Ht|].
    intros a o Ha. destruct (Hw a o Ha) as (o' & Ho' & Hrel).
    exists o'. split; assumption.
  - rewrite run_test_result, Hbm. reflexivity.
Qed.

Lemma epoch_body_keeps_table epoch :
  keeps (objects_rel same_table) (epoch_body' epoch).
Proof.
  pose proof train_keeps_table.
  pose proof (evaluate_keeps_weights _ _ _ network criterion bptt).
  unfold epoch_body. frame.
Qed.

Lemma run_epochs_keeps_table epochs :
  keeps (objects_rel same_table) (run_epochs' epochs).
Proof.
  pose proof epoch_body_keeps_table.
  unfold run_epochs, for_. frame.
Qed.

Lemma run_test_keeps_table :
  keeps (objects_rel same_table) run_test'.
Proof.
  pose proof (evaluate_keeps_weights _ _ _ network criterion bptt).
  unfold run_test. frame.
Qed.
(** *** The loop of the trainer *)

Lemma update_update (h : list (TransformerModel Params)) a x y :
  update (update h a x) a y = update h a y.
Proof.
  revert a. induction h as [|z h IH]; intros [|a]; cbn; congruence.
Qed.

Lemma update_same (h : list (TransformerModel Params)) a x :
  nth_error h a = Some x -> update h a x = h.
Proof.
  revert a. induction h as [|z h IH]; intros [|a]; cbn; intros H;
    try discriminate.
  - congruence.
  - now rewrite IH.
Qed.

Lemma world_eta w :
  mkWorld (heap w) (rng w) (opt_lr w) (scheduler w) (best_val_loss w)
          (best_model w) (stdout w) = w.
Proof. now destruct w. Qed.

(** The body of the loop of [train]. *)
Local Abbreviation train_body epoch :=
  (fun (total_loss : float) (bi : Z * Z) =>
     let '(batch, i) := bi in
     let '(data, targets) := get_batch bptt train_data i in
     mbind (forward network model data)
       (fun output =>
          mbind (optimizer_step sgd_step model output targets)
            (fun _ =>
               mbind (lift (Py.mod_ batch log_interval))
                 (fun r =>
                    if (r =? 0) && (0 <? batch)
                    then
                      mbind (lift (Py.floordiv (Tensor.len train_data) bptt))
                        (fun nbatches =>
                           mbind (read (fun w => get_lr (scheduler w)))
                             (fun shown =>
                                mbind
                                  (lift
                                     (math_exp
                                        (PrimFloat.div
                                           (PrimFloat.add total_loss
                                              (criterion output targets))
                                           (float_of_int log_interval))))
                                  (fun _ =>
                                     mbind
                                       (print
                                          (BatchReport epoch batch nbatches
                                             shown
                                             (PrimFloat.div
                                                (PrimFloat.add total_loss
                                                   (criterion output targets))
                                                (float_of_int log_interval))))
                                       (fun _ => ret PrimFloat.zero))))
                    else ret (PrimFloat.add total_loss
                                (criterion output targets)))))).

Lemma train_body_run epoch (acc : float) (batch i : Z) w o :
  nth_error (heap w) model = Some o ->
  1 <= bptt ->
  train_body epoch acc (batch, i) w
  = (let '(data, targets) := get_batch bptt train_data i in
     let o1 := refresh o data in
     let '(output, g1) :=
       network (training o1) (params o1) (pe o1) (src_mask o1) data (rng w) in
     let total := PrimFloat.add acc (criterion output targets) in
     let cur_loss := PrimFloat.div total (float_of_int log_interval) in
     let after lines :=
       mkWorld
         (update (heap w) model
            (set_params o1 (sgd_step (opt_lr w) (params o1) output targets)))
         g1 (opt_lr w) (scheduler w) (best_val_loss w) (best_model w)
         (stdout w ++ lines) in
     if report_due batch
     then if exp_overflows cur_loss
          then (Raise OverflowError, after [])
          else (Ok PrimFloat.zero,
                after [BatchReport epoch batch (Tensor.len train_data / bptt)
                         (get_lr (scheduler w)) cur_loss])
     else (Ok total, after [])).
Proof.
  intros Ho Hb. cbv beta iota.
  destruct (get_batch bptt train_data i) as [data targets].
  rewrite (mbind_ok _ _ _ _ _
             (forward_run _ _ _ network w model o data Ho)).
  pose proof (forward_object _ _ _ network w model o data Ho) as Ho1.
  rewrite (forward_run _ _ _ network w model o data Ho) in Ho1.
  cbn [snd] in Ho1. cbv zeta.
  destruct (network (training (refresh o data)) (params (refresh o data))
              (pe (refresh o data)) (src_mask (refresh o data)) data
              (rng w)) as [output g1] eqn:En.
  cbn [fst snd] in *.
  set (w1 := mkWorld (if stale o data then _ else _) _ _ _ _ _ _) in *.
  rewrite (mbind_ok _ _ _ _ _
             (optimizer_step_run _ _ _ sgd_step w1 model _ output targets
                Ho1)).
  assert (Hh : forall x,
             update (update (heap w1) model x) model x
             = update (heap w) model x).
  { intros x. unfold w1. cbn [heap]. rewrite update_update.
    destruct (stale o data); [apply update_update|reflexivity]. }
  unfold mbind at 1. unfold lift at 1. unfold Py.mod_.
  change (log_interval =? 0) with false. cbv iota.
  unfold report_due.
  destruct ((batch mod log_interval =? 0) && (0 <? batch)).
  - unfold mbind at 1. unfold lift at 1. unfold Py.floordiv.
    destruct (Z.eqb_spec bptt 0) as [|_]; [lia|].
    unfold mbind at 1. unfold read at 1.
    unfold mbind at 1. unfold lift at 1. unfold math_exp.
    destruct (exp_overflows _).
    + rewrite app_nil_r.
      rewrite <- (Hh (set_params _ _)), update_update. reflexivity.
    + unfold mbind, print, ret.
      cbn [heap rng opt_lr scheduler best_val_loss best_model stdout].
      rewrite <- (Hh (set_params _ _)), update_update. reflexivity.
  - unfold ret.
    rewrite <- (Hh (set_params _ _)), update_update.
    rewrite app_nil_r. reflexivity.
Qed.

Lemma train_loop epoch (starts : list Z) :
  1 <= bptt ->
  forall (s : nat) o w (acc : float),
    nth_error (heap w) model = Some o ->
    let r := train_windows' (opt_lr w) o (rng w) starts in
    let lines :=
      report_lines epoch (Tensor.len train_data / bptt)
                   (get_lr (scheduler w)) (Z.of_nat s) acc (snd r) in
    let run :=
      for_acc (combine (map Z.of_nat (seq s (length starts))) starts)
              (train_body epoch) acc w in
    stdout (snd run) = stdout w ++ printed_lines lines
    /\ (forallb printable lines = true ->
        exists acc',
          run
          = (Ok acc',
             mkWorld (update (heap w) model (fst (fst r))) (snd (fst r))
                     (opt_lr w) (scheduler w) (best_val_loss w)
                     (best_model w) (stdout w ++ lines)))
    /\ (forallb printable lines = false -> fst run = Raise OverflowError).
Proof.
  intros Hb. induction starts as [|i starts IH]; intros s o w acc Ho.
  - cbn. rewrite (update_same _ _ _ Ho), app_nil_r, world_eta.
    split; [reflexivity|]. split; [|discriminate].
    intros _. exists acc. reflexivity.
  - pose proof (train_body_run epoch acc (Z.of_nat s) i w o Ho Hb) as Estep.
    cbn [length seq map combine train_windows for_acc].
    revert Estep. cbv beta iota.
    destruct (get_batch bptt train_data i) as [data targets].
    cbv beta iota zeta.
    destruct (network (training (refresh o data)) (params (refresh o data))
                (pe (refresh o data)) (src_mask (refresh o data)) data
                (rng w)) as [output g1].
    set (o2 := set_params (refresh o data) _).
    set (total := PrimFloat.add acc (criterion output targets)).
    set (cur := PrimFloat.div total (float_of_int log_interval)).
    assert (Hnext :
              forall lines acc1,
                let w2 := mkWorld (update (heap w) model o2) g1 (opt_lr w)
                            (scheduler w) (best_val_loss w) (best_model w)
                            (stdout w ++ lines) in
                let r := train_windows' (opt_lr w) o2 g1 starts in
                let rest :=
                  report_lines epoch (Tensor.len train_data / bptt)
                    (get_lr (scheduler w)) (Z.of_nat s + 1) acc1 (snd r) in
                let run :=
                  for_acc
                    (combine (map Z.of_nat (seq (S s) (length starts))) starts)
                    (train_body epoch) acc1 w2 in
                stdout (snd run) = stdout w ++ lines ++ printed_lines rest
                /\ (forallb printable rest = true ->
                    exists acc',
                      run
                      = (Ok acc',
                         mkWorld (update (heap w) model (fst (fst r)))
                                 (snd (fst r)) (opt_lr w) (scheduler w)
                                 (best_val_loss w) (best_model w)
                                 (stdout w ++ lines ++ rest)))
                /\ (forallb printable rest = false ->
                    fst run = Raise OverflowError)).
    { intros lines acc1 w2.
      assert (Ho2 : nth_error (heap w2) model = Some o2)
        by (eapply nth_error_update_eq; exact Ho).
      pose proof (IH (S s) o2 w2 acc1 Ho2) as H.
      cbv zeta in H. cbv zeta.
      change (opt_lr w2) with (opt_lr w) in H.
      change (rng w2) with g1 in H.
      change (scheduler w2) with (scheduler w) in H.
      change (best_val_loss w2) with (best_val_loss w) in H.
      change (best_model w2) with (best_model w) in H.
      change (heap w2) with (update (heap w) model o2) in H.
      change (stdout w2) with (stdout w ++ lines) in H.
      replace (Z.of_nat (S s)) with (Z.of_nat s + 1) in H by lia.
      rewrite update_update, <- !app_assoc in H. exact H. }
    intros Estep.
    destruct (train_windows' (opt_lr w) o2 g1 starts) as [[o3 g3] losses].
    cbn [fst snd report_lines]. fold total. fold cur.
    destruct (report_due (Z.of_nat s)).
    + cbn [printed_lines forallb printable shown_loss].
      destruct (exp_overflows cur); cbn [negb andb].
      * rewrite !(mbind_raise _ _ _ _ _ Estep). cbn [fst snd stdout].
        split; [reflexivity|]. split; [discriminate|reflexivity].
      * rewrite !(mbind_ok _ _ _ _ _ Estep).
        specialize (Hnext [BatchReport epoch (Z.of_nat s)
                             (Tensor.len train_data / bptt)
                             (get_lr (scheduler w)) cur] PrimFloat.zero).
        cbv zeta in Hnext. cbn [fst snd app] in Hnext.
        exact Hnext.
    + rewrite !(mbind_ok _ _ _ _ _ Estep).
      specialize (Hnext [] total).
      cbv zeta in Hnext. cbn [fst snd app] in Hnext.
      exact Hnext.
Qed.

Lemma train_exact epoch w o :
  nth_error (heap w) model = Some o ->
  1 <= bptt ->
  let r :=
    train_windows' (opt_lr w) (set_training o true) (rng w)
                   (window_starts bptt (Tensor.len train_data)) in
  let lines :=
    report_lines epoch (Tensor.len train_data / bptt) (get_lr (scheduler w))
                 0 PrimFloat.zero (snd r) in
  stdout (snd (train' epoch w)) = stdout w ++ printed_lines lines
  /\ (forallb printable lines = true ->
      train' epoch w
      = (Ok tt,
         mkWorld (update (heap w) model (fst (fst r))) (snd (fst r))
                 (opt_lr w) (scheduler w) (best_val_loss w) (best_model w)
                 (stdout w ++ lines)))
  /\ (forallb printable lines = false ->
      fst (train' epoch w) = Raise OverflowError).
Proof.
  intros Ho Hb r lines.
  set (w1 := mkWorld (update (heap w) model (set_training o true)) (rng w)
                     (opt_lr w) (scheduler w) (best_val_loss w)
                     (best_model w) (stdout w)).
  set (starts := window_starts bptt (Tensor.len train_data)) in *.
  assert (Etrain :
            train' epoch w
            = mbind (for_acc (combine (map Z.of_nat (seq 0 (length starts)))
                                      starts)
                             (train_body epoch) PrimFloat.zero)
                    (fun _ => ret tt) w1).
  { change (train' epoch w)
      with (mbind (set_mode model true)
              (fun _ =>
                 mbind (lift (Py.range 0 (Tensor.len train_data - 1) bptt))
                   (fun starts =>
                      mbind (for_acc (enumerate starts) (train_body epoch)
                                     PrimFloat.zero)
                            (fun _ => ret tt))) w).
    rewrite (mbind_ok _ _ _ _ _ (set_mode_run _ _ w model o true Ho)).
    unfold mbind at 1. unfold lift at 1. rewrite (range_windows bptt Hb).
    reflexivity. }
  rewrite Etrain. clear Etrain.
  assert (Ho1 : nth_error (heap w1) model = Some (set_training o true))
    by (eapply nth_error_update_eq; eassumption).
  pose proof (train_loop epoch starts Hb 0 _ w1 PrimFloat.zero Ho1)
    as Hloop.
  cbv zeta in Hloop.
  change (opt_lr w1) with (opt_lr w) in Hloop.
  change (rng w1) with (rng w) in Hloop.
  change (scheduler w1) with (scheduler w) in Hloop.
  change (best_val_loss w1) with (best_val_loss w) in Hloop.
  change (best_model w1) with (best_model w) in Hloop.
  change (stdout w1) with (stdout w) in Hloop.
  change (heap w1) with (update (heap w) model (set_training o true))
    in Hloop.
  change (Z.of_nat 0) with 0 in Hloop.
  rewrite update_update in Hloop.
  fold r in Hloop. fold lines in Hloop.
  destruct (for_acc (combine (map Z.of_nat (seq 0 (length starts))) starts)
                    (train_body epoch) PrimFloat.zero w1)
    as [[acc'|e] w2] eqn:E.
  - rewrite (mbind_ok _ _ _ _ _ E). unfold ret. cbn [fst snd] in *.
    destruct Hloop as (Hout & Hok & Hfail).
    split; [exact Hout|]. split.
    + intros Hall. destruct (Hok Hall) as (acc1 & E1).
      injection E1 as _ ->. reflexivity.
    + intros Hall. specialize (Hfail Hall). discriminate.
  - rewrite (mbind_raise _ _ _ _ _ E). cbn [fst snd] in *.
    destruct Hloop as (Hout & Hok & Hfail).
    split; [exact Hout|]. split.
    + intros Hall. destruct (Hok Hall) as (acc1 & E1). discriminate.
    + intros Hall. specialize (Hfail Hall). injection Hfail as ->.
      reflexivity.
Qed.

Lemma train_windows_keeps step (starts : list Z) :
  forall o g,
    training (fst (fst (train_windows' step o g starts))) = training o
    /\ pe (fst (fst (train_windows' step o g starts))) = pe o
    /\ length (snd (train_windows' step o g starts)) = length starts.
Proof.
  induction starts as [|i starts IH]; intros o g.
  - repeat split.
  - cbn [train_windows].
    destruct (get_batch bptt train_data i) as [data targets]. cbv zeta.
    destruct (network (training (refresh o data)) (params (refresh o data))
                (pe (refresh o data)) (src_mask (refresh o data)) data g)
      as [output g1].
    match goal with
    | |- context [train_windows' step ?o2 g1 starts] =>
        destruct (IH o2 g1) as (Ht & Hp & Hl);
        destruct (train_windows' step o2 g1 starts) as [[o3 g3] losses]
    end.
    cbn [fst snd length] in *.
    assert (Hr : training (refresh o data) = training o
                 /\ pe (refresh o data) = pe o)
      by (unfold refresh; destruct (stale o data); split; reflexivity).
    cbn [training pe set_params] in Ht, Hp.
    destruct Hr as [Hr1 Hr2]. repeat split; congruence.
Qed.

(** *** Reports *)

Lemma printed_lines_incl (lines : list line) (l : line) :
  In l (printed_lines lines) -> In l lines.
Proof.
  induction lines as [|x lines IH]; [contradiction|].
  cbn [printed_lines]. destruct (printable x); [|contradiction].
  intros [<-|H]; [now left|right; auto].
Qed.

Lemma report_due_below (j : Z) :
  0 <= j < log_interval -> report_due j = false.
Proof.
  intros Hj. unfold report_due.
  destruct (Z.eq_dec j 0) as [->|Hne]; [reflexivity|].
  rewrite Z.mod_small by lia.
  replace (j =? 0) with false by (symmetry; apply Z.eqb_neq; exact Hne).
  reflexivity.
Qed.

Lemma report_lines_quiet epoch nbatches shown (losses : list float) :
  forall (batch : Z) (acc : float),
    (forall j, batch <= j < batch + Z.of_nat (length losses) ->
               report_due j = false) ->
    report_lines epoch nbatches shown batch acc losses = [].
Proof.
  induction losses as [|l losses IH]; intros batch acc Hquiet;
    [reflexivity|].
  cbn [report_lines]. rewrite (Hquiet batch) by (cbn [length]; lia).
  apply IH. intros j Hj. apply Hquiet. cbn [length]. lia.
Qed.

(** An epoch of at most [log_interval] windows prints no report, and its
    training pass returns. *)
Lemma train_quiet epoch w o :
  nth_error (heap w) model = Some o ->
  1 <= bptt ->
  Z.of_nat (length (window_starts bptt (Tensor.len train_data)))
  <= log_interval ->
  exists w1 o1,
    train' epoch w = (Ok tt, w1)
    /\ nth_error (heap w1) model = Some o1
    /\ stdout w1 = stdout w.
Proof.
  intros Ho Hb Hn.
  destruct (train_exact epoch w o Ho Hb) as (_ & Hok & _).
  destruct (train_windows_keeps (opt_lr w)
              (window_starts bptt (Tensor.len train_data))
              (set_training o true) (rng w)) as (_ & _ & Hlen).
  rewrite report_lines_quiet in Hok.
  - rewrite (Hok eq_refl). eexists _, _. split; [reflexivity|].
    cbn [heap stdout]. split; [|apply app_nil_r].
    eapply nth_error_update_eq. exact Ho.
  - intros j Hj. apply report_due_below. rewrite Hlen in Hj. lia.
Qed.

End TrainingFacts.

(** ** Positional encoding *)

Lemma get_map_t {A B : Type} (dA : A) (dB : B) (f : A -> B) (M : Tensor2 A)
  (i j : nat) :
  Tensor.wf M -> (i < size0 M)%nat -> (j < size1 M)%nat ->
  Tensor.get dB (Tensor.map_t f M) i j = f (Tensor.get dA M i j).
Proof.
  intros Hwf Hi Hj. unfold Tensor.get, Tensor.map_t. simpl.
  rewrite (nth_indep _ dB (f dA)) by (rewrite length_map, Hwf; nia).
  apply map_nth.
Qed.

Lemma bget_inside (V : Tensor2 R) (r c : nat) :
  (r < size0 V)%nat -> (c < size1 V)%nat ->
  PositionalEncoding.bget V r c = Tensor.get 0%R V r c.
Proof.
  intros Hr Hc. unfold PositionalEncoding.bget.
  destruct (Nat.eqb_spec (size0 V) 1) as [E0|_];
    destruct (Nat.eqb_spec (size1 V) 1) as [E1|_];
    repeat f_equal; lia.
Qed.

Lemma assign_cols_ok (M : Tensor2 R) (start : nat) (V : Tensor2 R) :
  size0 V = size0 M ->
  size1 V = Py.range_len (Z.of_nat start) (Z.of_nat (size1 M)) 2 ->
  PositionalEncoding.assign_cols M start V
  = Ok (Tensor.tabulate (size0 M) (size1 M)
          (fun r c =>
             if (start <=? c)%nat && Nat.even (c - start)
             then PositionalEncoding.bget V r ((c - start) / 2)
             else Tensor.get 0%R M r c)).
Proof.
  intros H0 H1. unfold PositionalEncoding.assign_cols.
  unfold PositionalEncoding.broadcastable, PositionalEncoding.strided_cols.
  rewrite !length_map, length_seq, H0, H1, !Nat.eqb_refl. reflexivity.
Qed.

Section Table.
Local Open Scope R_scope.

Variable F : PositionalEncoding.Float32.
Variable d_model : Z.
Hypothesis d_even : Z.even d_model = true.
Hypothesis d_pos : (0 < d_model)%Z.

Let half : nat := Z.to_nat (d_model / 2).

Lemma half_double : (d_model = 2 * Z.of_nat half)%Z.
Proof.
  unfold half. apply Z.even_spec in d_even. destruct d_even as [k Hk].
  rewrite Hk, Z.mul_comm, Z.div_mul by lia. lia.
Qed.

Lemma range_len_even : Py.range_len 0 d_model 2 = half.
Proof.
  unfold Py.range_len. cbn [Z.ltb Z.compare].
  pose proof half_double as H. rewrite H at 1.
  replace (2 * Z.of_nat half - 0 + 2 - 1)%Z
    with (1 + Z.of_nat half * 2)%Z by lia.
  rewrite Z.div_add by lia. change (1 / 2)%Z with 0%Z. lia.
Qed.

Lemma range_len_odd : Py.range_len 1 d_model 2 = half.
Proof.
  unfold Py.range_len. cbn [Z.ltb Z.compare].
  pose proof half_double as H. rewrite H at 1.
  replace (2 * Z.of_nat half - 1 + 2 - 1)%Z
    with (0 + Z.of_nat half * 2)%Z by lia.
  rewrite Z.div_add by lia. change (0 / 2)%Z with 0%Z. lia.
Qed.

Variable max_len : Z.
Hypothesis len_pos : (0 <= max_len)%Z.

Let rows : nat := Z.to_nat max_len.

(** The angles [position * div_term]. *)
Let angles : Tensor2 R :=
  PositionalEncoding.outer F
    (map (fun k => PositionalEncoding.rnd F (IZR (Z.of_nat k))) (seq 0 rows))
    (PositionalEncoding.div_term F d_model).

Lemma angles_shape : size0 angles = rows /\ size1 angles = half.
Proof.
  unfold angles, PositionalEncoding.outer, PositionalEncoding.div_term,
    PositionalEncoding.arange2.
  cbn [size0 size1 Tensor.tabulate].
  rewrite !length_map, !length_seq, range_len_even. split; reflexivity.
Qed.

Lemma angles_get (p i : nat) :
  (p < rows)%nat -> (i < half)%nat ->
  Tensor.get 0 angles p i
  = PositionalEncoding.angle32 F d_model (2 * Z.of_nat i) (Z.of_nat p).
Proof.
  intros Hp Hi. unfold angles, PositionalEncoding.outer.
  destruct angles_shape as [H0 H1].
  unfold angles, PositionalEncoding.outer in H0, H1.
  cbn [size0 size1 Tensor.tabulate] in H0, H1.
  rewrite get_tabulate by lia.
  rewrite nth_map_seq by lia.
  unfold PositionalEncoding.div_term, PositionalEncoding.arange2.
  rewrite map_map, range_len_even, nth_map_seq by lia.
  cbn [Nat.add]. unfold PositionalEncoding.angle32.
  replace (0 + Z.of_nat i * 2)%Z with (2 * Z.of_nat i)%Z by lia.
  reflexivity.
Qed.

Lemma table_built :
  PositionalEncoding.build F d_model max_len
  = Ok (Tensor.tabulate rows (Z.to_nat d_model)
          (fun r c =>
             if (1 <=? c)%nat && Nat.even (c - 1)
             then PositionalEncoding.bget
                    (Tensor.map_t (PositionalEncoding.t_cos F) angles) r
                    ((c - 1) / 2)
             else
               Tensor.get 0
                 (Tensor.tabulate rows (Z.to_nat d_model)
                    (fun r c =>
                       if (0 <=? c)%nat && Nat.even (c - 0)
                       then PositionalEncoding.bget
                              (Tensor.map_t (PositionalEncoding.t_sin F)
                                            angles)
                              r ((c - 0) / 2)
                       else Tensor.get 0
                              (Tensor.tabulate rows (Z.to_nat d_model)
                                               (fun _ _ => 0)) r c))
                 r c)).
Proof.
  unfold PositionalEncoding.build.
  destruct (Z.ltb_spec max_len 0) as [|_]; [lia|].
  destruct (Z.ltb_spec d_model 0) as [|_]; [lia|].
  destruct (Z.eqb_spec d_model 0) as [|_]; [lia|].
  cbn [orb]. fold rows. fold angles.
  destruct angles_shape as [H0 H1].
  rewrite assign_cols_ok.
  - cbn [bind]. rewrite assign_cols_ok.
    + reflexivity.
    + cbn [size0 Tensor.tabulate Tensor.map_t]. exact H0.
    + cbn [size1 Tensor.tabulate Tensor.map_t].
      rewrite Z2Nat.id by lia. change (Z.of_nat 1) with 1%Z.
      now rewrite range_len_odd.
  - cbn [size0 Tensor.tabulate Tensor.map_t]. exact H0.
  - cbn [size1 Tensor.tabulate Tensor.map_t].
    rewrite Z2Nat.id by lia. change (Z.of_nat 0) with 0%Z.
    now rewrite range_len_even.
Qed.

Lemma angles_wf : Tensor.wf angles.
Proof. apply wf_tabulate. Qed.

End Table.

Lemma table_entries (F : PositionalEncoding.Float32) (d_model max_len : Z)
  (p i : nat) :
  Z.even d_model = true ->
  (Z.of_nat p < max_len)%Z ->
  (Z.of_nat i < d_model / 2)%Z ->
  exists pe : Tensor2 R,
    PositionalEncoding.build F d_model max_len = Ok pe
    /\ Tensor.len pe = max_len
    /\ Z.of_nat (size1 pe) = d_model
    /\ Tensor.get 0%R pe p (2 * i)
       = PositionalEncoding.t_sin F
           (PositionalEncoding.angle32 F d_model (2 * Z.of_nat i)
                                       (Z.of_nat p))
    /\ Tensor.get 0%R pe p (2 * i + 1)
       = PositionalEncoding.t_cos F
           (PositionalEncoding.angle32 F d_model (2 * Z.of_nat i)
                                       (Z.of_nat p)).
Proof.
  intros He Hp Hi.
  assert (Hd : (0 < d_model)%Z).
  { destruct (Z.ltb_spec 0 d_model) as [|Hle]; [assumption|exfalso].
    assert (d_model / 2 <= 0)%Z by (apply Z.div_le_upper_bound; lia). lia. }
  assert (Hl : (0 <= max_len)%Z) by lia.
  pose proof (half_double d_model He Hd) as Hh.
  pose proof (angles_shape F d_model He Hd max_len) as [Hs0 Hs1].
  pose proof (angles_wf F d_model max_len) as Hwf.
  pose proof (angles_get F d_model He Hd max_len p i) as Hang.
  rewrite (table_built F d_model He Hd max_len Hl).
  set (rows := Z.to_nat max_len) in *.
  set (half := Z.to_nat (d_model / 2)) in *.
  set (angles := PositionalEncoding.outer _ _ _) in *.
  assert (Hpr : (p < rows)%nat) by (unfold rows; lia).
  assert (Hih : (i < half)%nat) by (unfold half; lia).
  specialize (Hang Hpr Hih).
  eexists. split; [reflexivity|].
  split; [unfold Tensor.len; cbn [size0 Tensor.tabulate]; unfold rows; lia|].
  split; [cbn [size1 Tensor.tabulate]; lia|].
  assert (Hev : Nat.even (2 * i) = true)
    by (apply Nat.even_spec; exists i; reflexivity).
  assert (Hdiv : (2 * i / 2 = i)%nat)
    by (rewrite Nat.mul_comm; apply Nat.div_mul; lia).
  split.
  - rewrite get_tabulate by lia.
    assert (Hodd : (1 <=? 2 * i)%nat && Nat.even (2 * i - 1) = false).
    { destruct i as [|i']; [reflexivity|].
      apply andb_false_iff. right.
      rewrite <- Nat.negb_odd. apply negb_false_iff, Nat.odd_spec.
      exists i'. lia. }
    rewrite Hodd, get_tabulate by lia.
    rewrite Nat.sub_0_r, Hev, Hdiv. cbn [Nat.leb andb].
    rewrite bget_inside by (cbn [size0 size1 Tensor.map_t]; lia).
    rewrite (get_map_t 0%R) by (assumption || lia).
    now rewrite Hang.
  - rewrite get_tabulate by lia.
    replace (2 * i + 1 - 1)%nat with (2 * i)%nat by lia.
    replace (1 <=? 2 * i + 1)%nat with true
      by (symmetry; apply Nat.leb_le; lia).
    rewrite Hev, Hdiv. cbn [andb].
    rewrite bget_inside by (cbn [size0 size1 Tensor.map_t]; lia).
    rewrite (get_map_t 0%R) by (assumption || lia).
    now rewrite Hang.
Qed.

Example odd_dimension_rejected :
  PositionalEncoding.build PositionalEncoding.exact_arithmetic 3 2
  = Raise RuntimeError.
Proof.
  unfold PositionalEncoding.build. cbn [Z.ltb Z.eqb Z.compare orb].
  rewrite assign_cols_ok by reflexivity. cbn [bind].
  reflexivity.
Qed.

(** *** Accuracy of the entries *)

Lemma sin_lipschitz (a b : R) : (Rabs (sin b - sin a) <= Rabs (b - a))%R.
Proof.
  destruct (MVT_abs sin cos a b) as (c & Hc & _).
  - intros c _. apply derivable_pt_lim_sin.
  - rewrite Hc. pose proof (COS_bound c) as Hb.
    assert (Rabs (cos c) <= 1)%R by (apply Rabs_le; lra).
    pose proof (Rabs_pos (b - a)). nra.
Qed.

Lemma cos_lipschitz (a b : R) : (Rabs (cos b - cos a) <= Rabs (b - a))%R.
Proof.
  destruct (MVT_abs cos (fun x => (- sin x)%R) a b) as (c & Hc & _).
  - intros c _. apply derivable_pt_lim_cos.
  - rewrite Hc. pose proof (SIN_bound c) as Hb.
    assert (Rabs (- sin c) <= 1)%R by (apply Rabs_le; lra).
    pose proof (Rabs_pos (b - a)). nra.
Qed.

Lemma exp_le (x y : R) : (x <= y -> exp x <= exp y)%R.
Proof.
  intros [H| ->]; [left; now apply exp_increasing|right; reflexivity].
Qed.

Lemma exp_lipschitz (a b m : R) :
  (a <= m -> b <= m -> Rabs (exp b - exp a) <= exp m * Rabs (b - a))%R.
Proof.
  intros Ha Hb.
  destruct (MVT_abs exp exp a b) as (c & Hc & Hr).
  - intros c _. apply derivable_pt_lim_exp.
  - rewrite Hc. rewrite (Rabs_right (exp c)) by (left; apply exp_pos).
    assert (c <= m)%R.
    { destruct Hr as [_ Hr]. unfold Rmax in Hr.
      destruct (Rle_dec a b); lra. }
    pose proof (exp_le c m H). pose proof (Rabs_pos (b - a)). nra.
Qed.

Lemma product_error (a b a' b' ea eb : R) :
  (Rabs (a' - a) <= ea -> Rabs (b' - b) <= eb ->
   Rabs (a' * b' - a * b) <= Rabs a' * eb + Rabs b * ea)%R.
Proof.
  intros Ha Hb.
  replace (a' * b' - a * b)%R with (a' * (b' - b) + b * (a' - a))%R by ring.
  eapply Rle_trans; [apply Rabs_triang|]. rewrite !Rabs_mult.
  pose proof (Rabs_pos a'). pose proof (Rabs_pos b). nra.
Qed.

Lemma Rabs_near (x y e : R) :
  (Rabs (y - x) <= e -> Rabs y <= Rabs x + e)%R.
Proof.
  intros H. replace y with (x + (y - x))%R at 1 by ring.
  eapply Rle_trans; [apply Rabs_triang|]. lra.
Qed.

Lemma Rabs_within (x e : R) : (Rabs x <= e -> - e <= x <= e)%R.
Proof.
  intros H. pose proof (Rle_abs x). pose proof (Rle_abs (- x)).
  rewrite Rabs_Ropp in *. lra.
Qed.

Lemma ln_10000_pos : (0 < ln 10000)%R.
Proof. rewrite <- ln_1. apply ln_increasing; lra. Qed.

Section Analysis.
Import PositionalEncoding.
Local Open Scope R_scope.

Variable F : Float32.
Variables u eta big e_scale e_exp y_max e_trig : R.
Hypothesis acc : accurate F u eta big e_scale e_exp y_max e_trig.
Variables d_model max_len : Z.
Hypothesis d_pos : (0 < d_model)%Z.
Hypothesis len_nonneg : (0 <= max_len)%Z.

Let D := IZR d_model.
Let M := IZR max_len.
Let L := ln 10000.
Let E1 := err_index u eta D.
Let A2 := pre_exponent u eta e_scale D.
Let E2 := err_exponent u eta e_scale D.
Let E3 := err_div u eta e_scale e_exp D.
Let E4 := err_position u eta M.
Let A5 := pre_angle u eta e_scale e_exp D M.
Let E5 := err_angle u eta e_scale e_exp D M.

Hypothesis index_range : D <= big.
Hypothesis exponent_range : L + E2 <= big.
Hypothesis exponent_range_exp : L + E2 <= y_max.
Hypothesis angle_range : M + E5 <= big.

Lemma D_pos : 0 < D.
Proof. unfold D. now apply IZR_lt. Qed.

Lemma M_nonneg : 0 <= M.
Proof. unfold M. now apply IZR_le. Qed.

Lemma E1_nonneg : 0 <= E1.
Proof.
  unfold E1, err_index. pose proof D_pos.
  pose proof (u_nonneg _ _ _ _ _ _ _ _ acc).
  pose proof (eta_nonneg _ _ _ _ _ _ _ _ acc). nra.
Qed.

Lemma scale_nonneg : 0 <= L / D.
Proof.
  pose proof D_pos. pose proof ln_10000_pos.
  apply Rlt_le, Rdiv_lt_0_compat; assumption.
Qed.

Lemma A2_nonneg : 0 <= A2.
Proof.
  unfold A2, pre_exponent. fold E1. fold L.
  pose proof D_pos. pose proof E1_nonneg. pose proof scale_nonneg.
  pose proof (e_scale_nonneg _ _ _ _ _ _ _ _ acc).
  assert (0 <= e_scale * (L / D)) by nra. nra.
Qed.

Lemma E2_bounds : A2 <= E2 /\ 0 <= E2.
Proof.
  unfold E2, err_exponent. fold A2. fold L.
  pose proof A2_nonneg. pose proof ln_10000_pos as HL. fold L in HL.
  pose proof (u_nonneg _ _ _ _ _ _ _ _ acc).
  pose proof (eta_nonneg _ _ _ _ _ _ _ _ acc). split; nra.
Qed.

Lemma E3_nonneg : 0 <= E3.
Proof.
  unfold E3, err_div. fold E2. cbv zeta.
  pose proof (exp_pos E2). destruct E2_bounds as [_ H2].
  pose proof (e_exp_nonneg _ _ _ _ _ _ _ _ acc). nra.
Qed.

Lemma E4_nonneg : 0 <= E4.
Proof.
  unfold E4, err_position. pose proof M_nonneg.
  pose proof (u_nonneg _ _ _ _ _ _ _ _ acc).
  pose proof (eta_nonneg _ _ _ _ _ _ _ _ acc). nra.
Qed.

Lemma A5_nonneg : 0 <= A5.
Proof.
  unfold A5, pre_angle. fold E4. fold E3.
  pose proof M_nonneg. pose proof E3_nonneg. pose proof E4_nonneg. nra.
Qed.

Lemma E5_bounds : A5 <= E5 /\ 0 <= E5.
Proof.
  unfold E5, err_angle. fold A5.
  pose proof A5_nonneg. pose proof M_nonneg.
  pose proof (u_nonneg _ _ _ _ _ _ _ _ acc).
  pose proof (eta_nonneg _ _ _ _ _ _ _ _ acc). split; nra.
Qed.

Lemma rounded (x m : R) :
  Rabs x <= m -> m <= big ->
  Rabs (rnd F x - x) <= u * m + eta.
Proof.
  intros Hx Hm.
  eapply Rle_trans;
    [apply (rnd_accurate _ _ _ _ _ _ _ _ acc); lra|].
  pose proof (u_nonneg _ _ _ _ _ _ _ _ acc). nra.
Qed.

Variables k p : Z.
Hypothesis k_range : (0 <= k <= d_model)%Z.
Hypothesis p_range : (0 <= p <= max_len)%Z.

Let K := IZR k.
Let P := IZR p.
Let x := - L * K / D.
Let y := rnd F (rnd F K * neg_log_scale F d_model).
Let a := angle d_model k p.
Let a32 := angle32 F d_model k p.

Lemma K_range : 0 <= K <= D.
Proof. unfold K, D. split; apply IZR_le; lia. Qed.

Lemma P_range : 0 <= P <= M.
Proof. unfold P, M. split; apply IZR_le; lia. Qed.

Lemma x_range : - L <= x <= 0.
Proof.
  unfold x. pose proof K_range. pose proof D_pos. pose proof ln_10000_pos as HL.
  fold L in HL.
  assert (Hi : 0 < / D) by (apply Rinv_0_lt_compat; assumption).
  assert (Hr : D * / D = 1) by (apply Rinv_r; lra).
  assert (Hq0 : 0 <= K * / D) by nra.
  assert (Hq1 : K * / D <= 1) by nra.
  unfold Rdiv. replace (- L * K * / D) with (- L * (K * / D)) by ring.
  split; nra.
Qed.

Lemma index_error : Rabs (rnd F K - K) <= E1.
Proof.
  pose proof K_range. unfold E1, err_index.
  apply rounded; [rewrite Rabs_right; lra|exact index_range].
Qed.

Lemma exponent_error : Rabs (y - x) <= E2 /\ Rabs y <= L + E2.
Proof.
  pose proof K_range as HK. pose proof D_pos as HD.
  pose proof ln_10000_pos as HL. fold L in HL.
  pose proof index_error as H1. pose proof E1_nonneg as H1'.
  pose proof A2_nonneg as HA2. destruct E2_bounds as [HA2E HE2].
  pose proof x_range as Hx. pose proof scale_nonneg as Hsc.
  set (c := - L / D).
  assert (Hc : Rabs c = L / D).
  { unfold c. replace (- L / D) with (- (L / D)) by (field; lra).
    rewrite Rabs_Ropp. apply Rabs_right. lra. }
  assert (Hx' : x = K * c) by (unfold x, c; field; lra).
  pose proof (scale_accurate _ _ _ _ _ _ _ _ acc d_model d_pos) as Hs.
  fold L in Hs. fold D in Hs. fold c in Hs.
  assert (He : Rabs (rnd F K) <= D + E1).
  { eapply Rle_trans; [apply (Rabs_near K); exact H1|].
    rewrite Rabs_right; lra. }
  pose proof (e_scale_nonneg _ _ _ _ _ _ _ _ acc) as Hes.
  assert (Hes' : 0 <= e_scale * (L / D)) by nra.
  assert (Ht : Rabs (rnd F K * neg_log_scale F d_model - x) <= A2).
  { rewrite Hx'.
    eapply Rle_trans;
      [apply (product_error K c _ _ E1 (e_scale * (L / D)) H1 Hs)|].
    unfold A2, pre_exponent. fold E1. fold L. rewrite Hc. nra. }
  assert (Hxa : Rabs x <= L) by (apply Rabs_le; lra).
  assert (Htm : Rabs (rnd F K * neg_log_scale F d_model) <= L + A2).
  { eapply Rle_trans; [apply (Rabs_near x); exact Ht|]. lra. }
  assert (Hy : Rabs (y - rnd F K * neg_log_scale F d_model)
               <= u * (L + A2) + eta).
  { unfold y. apply rounded; [exact Htm|lra]. }
  assert (Hyx : Rabs (y - x) <= E2).
  { replace (y - x)
      with ((y - rnd F K * neg_log_scale F d_model)
            + (rnd F K * neg_log_scale F d_model - x)) by ring.
    eapply Rle_trans; [apply Rabs_triang|].
    unfold E2, err_exponent. fold A2. fold L. lra. }
  split; [exact Hyx|].
  eapply Rle_trans; [apply (Rabs_near x); exact Hyx|]. lra.
Qed.

Lemma div_error :
  Rabs (t_exp F y - exp x) <= E3 /\ Rabs (exp x) <= 1.
Proof.
  destruct exponent_error as [Hyx Hy]. pose proof x_range as Hx.
  destruct E2_bounds as [_ HE2].
  assert (Hyu : y <= E2).
  { pose proof (Rle_abs (y - x)). lra. }
  assert (He : exp y <= exp E2) by (apply exp_le; exact Hyu).
  pose proof (exp_accurate _ _ _ _ _ _ _ _ acc y ltac:(lra)) as Ha.
  pose proof (exp_lipschitz x y E2 ltac:(lra) Hyu) as Hl.
  pose proof (exp_pos y). pose proof (exp_pos E2).
  pose proof (e_exp_nonneg _ _ _ _ _ _ _ _ acc).
  split.
  - replace (t_exp F y - exp x)
      with ((t_exp F y - exp y) + (exp y - exp x)) by ring.
    eapply Rle_trans; [apply Rabs_triang|].
    unfold E3, err_div. fold E2. cbv zeta. nra.
  - rewrite Rabs_right by (left; apply exp_pos).
    rewrite <- exp_0. apply exp_le. lra.
Qed.

Lemma position_error : Rabs (rnd F P - P) <= E4.
Proof.
  pose proof P_range. unfold E4, err_position.
  destruct E5_bounds as [_ H5].
  apply rounded; [rewrite Rabs_right; lra|lra].
Qed.

Lemma angle_error : Rabs (a32 - a) <= E5 /\ Rabs a32 <= big.
Proof.
  pose proof P_range as HP. pose proof M_nonneg as HM.
  destruct div_error as [Hd Hd1]. pose proof position_error as Hp.
  pose proof E3_nonneg as H3. pose proof E4_nonneg as H4.
  pose proof A5_nonneg as HA5. destruct E5_bounds as [HA5E HE5].
  assert (Hpp : Rabs (rnd F P) <= M + E4).
  { eapply Rle_trans; [apply (Rabs_near P); exact Hp|].
    rewrite Rabs_right; lra. }
  assert (Ha : a = P * exp x).
  { unfold a, angle, x. fold L. fold K. fold D. fold P. reflexivity. }
  assert (Hs : Rabs (rnd F P * t_exp F y - a) <= A5).
  { rewrite Ha.
    eapply Rle_trans; [apply (product_error P (exp x) _ _ E4 E3 Hp Hd)|].
    unfold A5, pre_angle. fold E4. fold E3. nra. }
  assert (Haa : Rabs a <= M).
  { rewrite Ha, Rabs_mult. rewrite (Rabs_right P) by lra.
    pose proof (Rabs_pos (exp x)). nra. }
  assert (Hsm : Rabs (rnd F P * t_exp F y) <= M + A5).
  { eapply Rle_trans; [apply (Rabs_near a); exact Hs|]. lra. }
  assert (Hr : Rabs (a32 - rnd F P * t_exp F y) <= u * (M + A5) + eta).
  { unfold a32, angle32. fold P. fold K. fold y.
    apply rounded; [exact Hsm|lra]. }
  assert (Hres : Rabs (a32 - a) <= E5).
  { replace (a32 - a)
      with ((a32 - rnd F P * t_exp F y) + (rnd F P * t_exp F y - a)) by ring.
    eapply Rle_trans; [apply Rabs_triang|].
    unfold E5, err_angle. fold A5. lra. }
  split; [exact Hres|].
  eapply Rle_trans; [apply (Rabs_near a); exact Hres|]. lra.
Qed.

Lemma sin_error :
  Rabs (t_sin F a32 - sin a) <= tolerance u eta e_scale e_exp e_trig D M.
Proof.
  destruct angle_error as [He Hr].
  pose proof (sin_accurate _ _ _ _ _ _ _ _ acc a32 Hr) as Hs.
  pose proof (sin_lipschitz a a32) as Hl.
  replace (t_sin F a32 - sin a)
    with ((t_sin F a32 - sin a32) + (sin a32 - sin a)) by ring.
  eapply Rle_trans; [apply Rabs_triang|].
  unfold tolerance. fold E5. lra.
Qed.

Lemma cos_error :
  Rabs (t_cos F a32 - cos a) <= tolerance u eta e_scale e_exp e_trig D M.
Proof.
  destruct angle_error as [He Hr].
  pose proof (cos_accurate _ _ _ _ _ _ _ _ acc a32 Hr) as Hs.
  pose proof (cos_lipschitz a a32) as Hl.
  replace (t_cos F a32 - cos a)
    with ((t_cos F a32 - cos a32) + (cos a32 - cos a)) by ring.
  eapply Rle_trans; [apply Rabs_triang|].
  unfold tolerance. fold E5. lra.
Qed.

Lemma squares_error :
  Rabs (t_sin F a32 * t_sin F a32 + t_cos F a32 * t_cos F a32 - 1)
  <= 2 * e_trig * (2 + e_trig).
Proof.
  destruct angle_error as [_ Hr].
  pose proof (sin_accurate _ _ _ _ _ _ _ _ acc a32 Hr) as Hs.
  pose proof (cos_accurate _ _ _ _ _ _ _ _ acc a32 Hr) as Hc.
  pose proof (e_trig_nonneg _ _ _ _ _ _ _ _ acc) as He.
  pose proof (sin2_cos2 a32) as H1. unfold Rsqr in H1.
  pose proof (SIN_bound a32) as Bs. pose proof (COS_bound a32) as Bc.
  set (s := sin a32) in *. set (c := cos a32) in *.
  set (s' := t_sin F a32) in *. set (c' := t_cos F a32) in *.
  apply Rabs_within in Hs. apply Rabs_within in Hc.
  apply Rabs_le.
  replace (s' * s' + c' * c' - 1)
    with ((s' - s) * (s' - s) + (c' - c) * (c' - c)
          + 2 * s * (s' - s) + 2 * c * (c' - c)) by (rewrite <- H1; ring).
  split; nra.
Qed.

End Analysis.

(** Exact arithmetic is accurate without error, and its tolerance is
    zero. *)
Lemma exact_accurate (big y_max : R) :
  PositionalEncoding.accurate PositionalEncoding.exact_arithmetic
                              0 0 big 0 0 y_max 0.
Proof.
  constructor; try lra; intros; cbn;
    rewrite Rminus_diag, Rabs_R0; lra.
Qed.

Lemma errors_exact (D M : R) :
  (D <> 0 ->
   PositionalEncoding.err_exponent 0 0 0 D = 0
   /\ PositionalEncoding.err_angle 0 0 0 0 D M = 0
   /\ PositionalEncoding.tolerance 0 0 0 0 0 D M = 0)%R.
Proof.
  intros HD.
  assert (H2 : PositionalEncoding.err_exponent 0 0 0 D = 0%R).
  { unfold PositionalEncoding.err_exponent, PositionalEncoding.pre_exponent,
      PositionalEncoding.err_index. field. exact HD. }
  assert (H5 : PositionalEncoding.err_angle 0 0 0 0 D M = 0%R).
  { unfold PositionalEncoding.err_angle, PositionalEncoding.pre_angle,
      PositionalEncoding.err_div, PositionalEncoding.err_position.
    rewrite H2, exp_0. ring. }
  split; [exact H2|]. split; [exact H5|].
  unfold PositionalEncoding.tolerance. rewrite H5. ring.
Qed.

Lemma truncation_error (k : nat) (x : R) :
  (Rabs (IZR (Int_part (x * 2 ^ k)) / 2 ^ k - x) <= / 2 ^ k)%R.
Proof.
  assert (Hp : (0 < 2 ^ k)%R) by (apply pow_lt; lra).
  assert (Hi : (0 < / 2 ^ k)%R) by (apply Rinv_0_lt_compat; exact Hp).
  destruct (base_Int_part (x * 2 ^ k)) as [H1 H2].
  set (n := IZR (Int_part (x * 2 ^ k))) in *.
  replace (n / 2 ^ k - x)%R with ((n - x * 2 ^ k) * / 2 ^ k)%R
    by (field; lra).
  apply Rabs_le. split; nra.
Qed.

(** Truncation to [k] fractional bits is accurate to [2^-k]. *)
Lemma truncating_accurate (k : nat) (big y_max : R) :
  PositionalEncoding.accurate (PositionalEncoding.truncating k)
                              0 (/ 2 ^ k) big 0 0 y_max 0.
Proof.
  assert (Hi : (0 < / 2 ^ k)%R)
    by (apply Rinv_0_lt_compat, pow_lt; lra).
  constructor; try lra.
  - intros x _. cbn [PositionalEncoding.rnd PositionalEncoding.truncating].
    pose proof (truncation_error k x). lra.
  - intros d _. cbn. rewrite Rminus_diag, Rabs_R0. lra.
  - intros y _. cbn. rewrite Rminus_diag, Rabs_R0. lra.
  - intros a _. cbn. rewrite Rminus_diag, Rabs_R0. lra.
  - intros a _. cbn. rewrite Rminus_diag, Rabs_R0. lra.
Qed.

(** *** The tolerance for binary32 and the table of the notebook *)

Lemma exp_double (x c : R) :
  (0 <= c -> c <= exp x -> c * c <= exp (x + x))%R.
Proof.
  intros Hc H. rewrite exp_plus. apply Rmult_le_compat; assumption.
Qed.

Lemma ln_10000_le : (ln 10000 <= 10)%R.
Proof.
  assert (H0 : (37 / 32 <= exp (5 / 32))%R)
    by (pose proof (exp_ineq1_le (5 / 32)); lra).
  pose proof (exp_double (5 / 32) (37 / 32) ltac:(lra) H0) as H1.
  replace (5 / 32 + 5 / 32)%R with (5 / 16)%R in H1 by lra.
  assert (H1' : (13369 / 10000 <= exp (5 / 16))%R) by lra.
  pose proof (exp_double (5 / 16) (13369 / 10000) ltac:(lra) H1') as H2.
  replace (5 / 16 + 5 / 16)%R with (5 / 8)%R in H2 by lra.
  assert (H2' : (17873 / 10000 <= exp (5 / 8))%R) by lra.
  pose proof (exp_double (5 / 8) (17873 / 10000) ltac:(lra) H2') as H3.
  replace (5 / 8 + 5 / 8)%R with (5 / 4)%R in H3 by lra.
  assert (H3' : (31944 / 10000 <= exp (5 / 4))%R) by lra.
  pose proof (exp_double (5 / 4) (31944 / 10000) ltac:(lra) H3') as H4.
  replace (5 / 4 + 5 / 4)%R with (5 / 2)%R in H4 by lra.
  assert (H4' : (10204 / 1000 <= exp (5 / 2))%R) by lra.
  pose proof (exp_double (5 / 2) (10204 / 1000) ltac:(lra) H4') as H5.
  replace (5 / 2 + 5 / 2)%R with 5%R in H5 by lra.
  assert (H5' : (1041 / 10 <= exp 5)%R) by lra.
  pose proof (exp_double 5 (1041 / 10) ltac:(lra) H5') as H6.
  replace (5 + 5)%R with 10%R in H6 by lra.
  assert (H6' : (10000 < exp 10)%R) by lra.
  rewrite <- (ln_exp 10). left. apply ln_increasing; lra.
Qed.

Lemma exp_small (x : R) : (0 <= x <= 1 / 2 -> exp x <= 1 + 2 * x)%R.
Proof.
  intros Hx. pose proof (exp_ineq1_le (- x)) as H.
  pose proof (exp_pos x) as Hp.
  assert (Hm : (exp x * exp (- x) = 1)%R)
    by (rewrite <- exp_plus, Rplus_opp_r; apply exp_0).
  nra.
Qed.

(** For the table of the notebook, of 200 columns and 5000 rows, and the
    accuracy of binary32 arithmetic (rounding to nearest, kernels off by
    at most four units in the last place), the tolerance on an entry is
    below 1/50 and that on the sum of two squares below 1/100000; the
    magnitudes stay within the range of binary32 and of its
    exponential. *)
Lemma tolerance_binary32 :
  (let u := / 2 ^ 24 in
   let eta := / 2 ^ 149 in
   let e_scale := / 2 ^ 23 in
   let e_kernel := / 2 ^ 21 in
   PositionalEncoding.tolerance u eta e_scale e_kernel e_kernel 200 5000
   <= 1 / 50
   /\ 2 * e_kernel * (2 + e_kernel) <= 1 / 100000
   /\ 200 <= 2 ^ 127
   /\ ln 10000 + PositionalEncoding.err_exponent u eta e_scale 200 <= 87
   /\ 5000 + PositionalEncoding.err_angle u eta e_scale e_kernel 200 5000
      <= 2 ^ 127)%R.
Proof.
  cbv zeta.
  pose proof ln_10000_pos as HL0. pose proof ln_10000_le as HL.
  assert (Hu : (/ 2 ^ 24 = 1 / 16777216)%R) by (field_simplify; lra).
  assert (Hs : (/ 2 ^ 23 = 1 / 8388608)%R) by (field_simplify; lra).
  assert (Hk : (/ 2 ^ 21 = 1 / 2097152)%R) by (field_simplify; lra).
  assert (He : (0 < / 2 ^ 149 <= 1 / 1000000000000)%R).
  { split; [apply Rinv_0_lt_compat, pow_lt; lra|].
    apply Rle_trans with (/ 2 ^ 40)%R.
    - apply Rinv_le_contravar; [apply pow_lt; lra|].
      apply Rle_pow; [lra|lia].
    - field_simplify; lra. }
  assert (Hbig : (10000 <= 2 ^ 127)%R).
  { apply Rle_trans with (2 ^ 14)%R; [lra|apply Rle_pow; [lra|lia]]. }
  unfold PositionalEncoding.tolerance.
  set (E2 := PositionalEncoding.err_exponent (/ 2 ^ 24) (/ 2 ^ 149)
                                             (/ 2 ^ 23) 200).
  assert (HE2 : (0 <= E2 <= 3 / 1000000)%R).
  { unfold E2, PositionalEncoding.err_exponent,
      PositionalEncoding.pre_exponent, PositionalEncoding.err_index.
    rewrite Hu, Hs. set (L := ln 10000) in *. set (eta := (/ 2 ^ 149)%R) in *.
    split; nra. }
  assert (H5 : (PositionalEncoding.err_angle (/ 2 ^ 24) (/ 2 ^ 149)
                  (/ 2 ^ 23) (/ 2 ^ 21) 200 5000 <= 19 / 1000)%R).
  { unfold PositionalEncoding.err_angle, PositionalEncoding.pre_angle,
      PositionalEncoding.err_position, PositionalEncoding.err_div.
    fold E2. cbv zeta.
    assert (HX : (1 <= exp E2 <= 1 + 2 * E2)%R).
    { split; [|apply exp_small; lra].
      pose proof (exp_ineq1_le E2). lra. }
    set (X := exp E2) in *.
    rewrite Hu, Hk. set (eta := (/ 2 ^ 149)%R) in *.
    assert (H3 : (0 <= 1 / 2097152 * X + X * E2 <= 35 / 10000000)%R) by nra.
    set (E3 := (1 / 2097152 * X + X * E2)%R) in *.
    nra. }
  rewrite Hk in *. repeat split; lra.
Qed.

(** The errors of a table of 4 columns and 3 rows under truncation to 20
    fractional bits. *)
Lemma truncating_errors_small :
  (PositionalEncoding.err_exponent 0 (/ 2 ^ 20) 0 4 <= 1 / 1000
   /\ PositionalEncoding.err_angle 0 (/ 2 ^ 20) 0 0 4 3 <= 1 / 1000)%R.
Proof.
  pose proof ln_10000_pos as HL0. pose proof ln_10000_le as HL.
  assert (He : (/ 2 ^ 20 = 1 / 1048576)%R) by (field_simplify; lra).
  set (E2 := PositionalEncoding.err_exponent 0 (/ 2 ^ 20) 0 4).
  assert (HE2 : (0 <= E2 <= 1 / 100000)%R).
  { unfold E2, PositionalEncoding.err_exponent,
      PositionalEncoding.pre_exponent, PositionalEncoding.err_index.
    rewrite He. set (L := ln 10000) in *. split; nra. }
  split; [lra|].
  unfold PositionalEncoding.err_angle, PositionalEncoding.pre_angle,
    PositionalEncoding.err_position, PositionalEncoding.err_div.
  fold E2. cbv zeta.
  assert (HX : (1 <= exp E2 <= 1 + 2 * E2)%R).
  { split; [|apply exp_small; lra].
    pose proof (exp_ineq1_le E2). lra. }
  set (X := exp E2) in *. rewrite He. nra.
Qed.

(** C9: for an even dimension d_model, a position p below max_len and a
    frequency index i below d_model / 2, the table, which is computed in
    float32 arithmetic, has in column 2 i and column 2 i + 1 of row p the
    sine and the cosine of p * div, where
    div = exp(- ln(10000) * 2 i / d_model), within the tolerance that the
    accuracy of the arithmetic gives; the squares of the two entries add
    up to 1 within a tolerance that depends on the sine and cosine kernels
    alone; the table is built when the model is constructed and is never
    changed afterwards: the forward pass, the loop over the epochs and the
    test evaluation leave the table of every model object as it is. *)
Theorem positional_table_spec (F : PositionalEncoding.Float32)
  (u eta big e_scale e_exp y_max e_trig : R) (d_model max_len : Z)
  (p i : nat) :
  PositionalEncoding.accurate F u eta big e_scale e_exp y_max e_trig ->
  Z.even d_model = true ->
  (Z.of_nat p < max_len)%Z ->
  (Z.of_nat i < d_model / 2)%Z ->
  let D := IZR d_model in
  let M := IZR max_len in
  let tol := PositionalEncoding.tolerance u eta e_scale e_exp e_trig D M in
  (D <= big)%R ->
  (ln 10000 + PositionalEncoding.err_exponent u eta e_scale D <= big)%R ->
  (ln 10000 + PositionalEncoding.err_exponent u eta e_scale D <= y_max)%R ->
  (M + PositionalEncoding.err_angle u eta e_scale e_exp D M <= big)%R ->
  exists pe : Tensor2 R,
    PositionalEncoding.build F d_model max_len = Ok pe
    /\ Tensor.len pe = max_len
    /\ Z.of_nat (size1 pe) = d_model
    /\ (let div := exp (- ln 10000 * IZR (2 * Z.of_nat i) / IZR d_model) in
        Rabs (Tensor.get 0 pe p (2 * i) - sin (IZR (Z.of_nat p) * div))
        <= tol
        /\ Rabs (Tensor.get 0 pe p (2 * i + 1)
                 - cos (IZR (Z.of_nat p) * div))
           <= tol)%R
    /\ (Rabs (Tensor.get 0 pe p (2 * i) * Tensor.get 0 pe p (2 * i)
              + Tensor.get 0 pe p (2 * i + 1) * Tensor.get 0 pe p (2 * i + 1)
              - 1)
        <= 2 * e_trig * (2 + e_trig))%R
    /\ (forall (Params : Type) (p0 : Params),
          max_len = 5000 ->
          construct F d_model p0 = Ok (mkModel None true pe p0))
    /\ forall (Params Rng Output : Type) network criterion sgd_step
              train_data val_data test_data bptt epochs
              self src (w : World Params Rng),
         objects_rel same_table w
           (snd (forward (Output := Output) network self src w))
         /\ objects_rel same_table w
              (snd (run_epochs network criterion sgd_step train_data
                               val_data bptt epochs w))
         /\ objects_rel same_table w
              (snd (run_test network criterion test_data bptt w)).
Proof.
  intros Hacc He Hp Hi D M tol HD Hy Hy' Ha.
  destruct (table_entries F d_model max_len p i He Hp Hi)
    as (pe & Hb & Hlen & Hcols & Hsin & Hcos).
  assert (Hd : (0 < d_model)%Z).
  { destruct (Z.ltb_spec 0 d_model) as [|Hle]; [assumption|exfalso].
    assert (d_model / 2 <= 0)%Z by (apply Z.div_le_upper_bound; lia). lia. }
  assert (Hk : (0 <= 2 * Z.of_nat i <= d_model)%Z).
  { pose proof (half_double d_model He Hd). lia. }
  assert (Hpz : (0 <= Z.of_nat p <= max_len)%Z) by lia.
  exists pe. split; [exact Hb|]. split; [exact Hlen|]. split; [exact Hcols|].
  split; [|split].
  - cbv zeta. rewrite Hsin, Hcos. split.
    + apply (sin_error F u eta big e_scale e_exp y_max e_trig Hacc
               d_model max_len Hd ltac:(lia) HD Hy Hy' Ha
               (2 * Z.of_nat i) (Z.of_nat p) Hk Hpz).
    + apply (cos_error F u eta big e_scale e_exp y_max e_trig Hacc
               d_model max_len Hd ltac:(lia) HD Hy Hy' Ha
               (2 * Z.of_nat i) (Z.of_nat p) Hk Hpz).
  - rewrite Hsin, Hcos.
    apply (squares_error F u eta big e_scale e_exp y_max e_trig Hacc
             d_model max_len Hd ltac:(lia) HD Hy Hy' Ha
             (2 * Z.of_nat i) (Z.of_nat p) Hk Hpz).
  - split; [intros Params p0 ->; unfold construct; now rewrite Hb|].
    intros. split; [|split].
    + apply weights_table, forward_keeps_weights.
    + apply run_epochs_keeps_table.
    + apply run_test_keeps_table.
Qed.

Lemma positional_table_spec_witness :
  exists pe : Tensor2 R,
    PositionalEncoding.build (PositionalEncoding.truncating 20) 4 3 = Ok pe
    /\ (Rabs (Tensor.get 0 pe 2 3
              - cos (IZR (Z.of_nat 2)
                     * exp (- ln 10000 * IZR (2 * Z.of_nat 1) / IZR 4)))
        <= PositionalEncoding.tolerance 0 (/ 2 ^ 20) 0 0 0 4 3)%R.
Proof.
  pose proof ln_10000_pos as HL0. pose proof ln_10000_le as HL.
  destruct truncating_errors_small as (H2 & H5).
  destruct (positional_table_spec (PositionalEncoding.truncating 20)
              0 (/ 2 ^ 20) 100 0 0 100 0 4 3 2 1
              (truncating_accurate 20 100 100) eq_refl ltac:(lia)
              ltac:(cbn; lia) ltac:(lra) ltac:(lra) ltac:(lra) ltac:(lra))
    as (pe & Hb & _ & _ & (_ & Hcos) & _).
  exists pe. split; [exact Hb|exact Hcos].
Defined.

(** ** Runs of the small network *)

Example toy_three_epochs :
  fst (ToyRun.run 3) = Ok tt
  /\ best_val_loss (snd (ToyRun.run 3)) = 1%float
  /\ best_model (snd (ToyRun.run 3)) = Some model
  /\ option_map params (nth_error (heap (snd (ToyRun.run 3))) model) = Some 3
  /\ fst (ToyRun.test (snd (ToyRun.run 3))) = Ok 2%float.
Proof. vm_compute. repeat split. Qed.

(** ** The scenario of 1000 tokens *)

Section Scenario.
Variables Params Rng Output : Type.
Variable network :
  bool -> Params -> Tensor2 R -> option (Tensor2 float) -> Tensor2 Z ->
  Rng -> Output * Rng.
Variable criterion : Output -> list Z -> float.
Variable sgd_step : Q -> Params -> Output -> list Z -> Params.
Implicit Types (w : World Params Rng) (o : TransformerModel Params).

Lemma after_validation_counts epoch v w :
  count_reports (after_validation epoch v w) = count_reports w
  /\ count_summaries (after_validation epoch v w)
     = (count_summaries w + 1)%nat.
Proof.
  unfold count_reports, count_summaries, after_validation. cbn [stdout].
  rewrite !filter_app, !length_app. cbn. lia.
Qed.

Lemma at_summary_counts w :
  count_reports (at_summary w) = count_reports w
  /\ count_summaries (at_summary w) = count_summaries w.
Proof.
  unfold count_reports, count_summaries, at_summary. cbn [stdout].
  rewrite !filter_app, !length_app. cbn. lia.
Qed.

Lemma one_epoch_run train_data val_data bptt w o :
  nth_error (heap w) model = Some o ->
  1 <= bptt ->
  Z.of_nat (length (window_starts bptt (Tensor.len train_data)))
  <= log_interval ->
  Tensor.len val_data <> 1 ->
  exists w1 w2 val_loss,
    train network criterion sgd_step train_data bptt 1 (reset_best w)
    = (Ok tt, w1)
    /\ evaluate network criterion bptt (Some model) val_data w1
       = (Ok val_loss, w2)
    /\ let r := run_epochs network criterion sgd_step train_data val_data
                           bptt 1 w in
       fst r = (if exp_overflows val_loss then Raise OverflowError else Ok tt)
       /\ count_reports (snd r) = count_reports w
       /\ count_summaries (snd r)
          = (count_summaries w + if exp_overflows val_loss then 0 else 1)%nat.
Proof.
  intros Ho Hb Hn Hval.
  change (run_epochs network criterion sgd_step train_data val_data bptt 1 w)
    with (run_epochs network criterion sgd_step train_data val_data bptt
                     (Z.of_nat 1) w).
  rewrite run_epochs_unfold.
  change (epochs_list 1) with [1]. unfold for_. cbn [for_acc].
  destruct (train_quiet _ _ _ network criterion sgd_step train_data bptt 1
              (reset_best w) o Ho Hb Hn) as (w1 & o1 & Ht & Ho1 & Hs1).
  destruct (evaluate_run _ _ _ network criterion bptt w1 model o1 val_data
              Ho1 Hb Hval) as (w2 & Ev).
  pose proof (evaluate_keeps_stdout _ _ _ network criterion bptt
                (Some model) val_data w1) as Ks.
  rewrite Ev in Ks. cbn [snd] in Ks. unfold same_stdout in Ks.
  exists w1, w2, (evaluate_spec network criterion bptt o1 (rng w1) val_data).
  split; [exact Ht|]. split; [exact Ev|].
  pose proof (epoch_body_run _ _ _ network criterion sgd_step train_data
                val_data bptt 1 _ _ _ _ Ht Ev) as Hbody.
  assert (Hc : count_reports w2 = count_reports w)
    by (unfold count_reports; rewrite Ks, Hs1; reflexivity).
  assert (Hs : count_summaries w2 = count_summaries w)
    by (unfold count_summaries; rewrite Ks, Hs1; reflexivity).
  destruct (exp_overflows
              (evaluate_spec network criterion bptt o1 (rng w1) val_data)).
  - rewrite (mbind_raise _ _ _ _ _ _ _ Hbody). cbn [fst snd].
    destruct (at_summary_counts w2) as [Hc' Hs'].
    rewrite Hc', Hs', Hc, Hs. repeat split. lia.
  - rewrite (mbind_ok _ _ _ _ _ _ _ Hbody). unfold ret. cbn [fst snd].
    match goal with
    | |- context [after_validation 1 ?v w2] =>
        destruct (after_validation_counts 1 v w2) as [Hc' Hs']
    end.
    rewrite Hc', Hs', Hc, Hs. repeat split.
Qed.

(** C8, as the code has it: a corpus of 1000 tokens batched in 10 columns
    gives a 100 x 10 matrix; its first window of size 5 has data of shape
    5 x 10 and a target of length 50; one epoch of training visits 20
    windows, which is below the interval of 200 windows between reports
    that [train] fixes, so that it prints no window report; and the epoch
    prints one summary, unless the exponential of the validation loss on
    that line is out of range, in which case it ends there with an
    overflow error. *)
Theorem scenario_1000_tokens (corpus : list Z) val_data w o :
  length corpus = 1000%nat ->
  nth_error (heap w) model = Some o ->
  Tensor.len val_data <> 1 ->
  exists train_data : Tensor2 Z,
    batchify corpus 10 = Ok train_data
    /\ size0 train_data = 100%nat
    /\ size1 train_data = 10%nat
    /\ size0 (fst (get_batch 5 train_data 0)) = 5%nat
    /\ size1 (fst (get_batch 5 train_data 0)) = 10%nat
    /\ length (snd (get_batch 5 train_data 0)) = 50%nat
    /\ length (window_starts 5 (Tensor.len train_data)) = 20%nat
    /\ exists w1 w2 val_loss,
        train network criterion sgd_step train_data 5 1 (reset_best w)
        = (Ok tt, w1)
        /\ evaluate network criterion 5 (Some model) val_data w1
           = (Ok val_loss, w2)
        /\ let r := run_epochs network criterion sgd_step train_data
                               val_data 5 1 w in
           fst r
           = (if exp_overflows val_loss then Raise OverflowError else Ok tt)
           /\ count_reports (snd r) = count_reports w
           /\ count_summaries (snd r)
              = (count_summaries w
                 + if exp_overflows val_loss then 0 else 1)%nat.
Proof.
  intros Hlen Ho Hval.
  pose proof (batchify_unfold corpus 10 ltac:(lia)) as HM.
  rewrite Hlen in HM.
  change (Z.to_nat (Z.of_nat 1000 / 10)) with 100%nat in HM.
  change (Z.to_nat (Z.of_nat 1000 / 10 * 10)) with 1000%nat in HM.
  change (Z.to_nat 10) with 10%nat in HM.
  set (M := Tensor.t_contiguous 0 (mkTensor2 10 100 (firstn 1000 corpus))) in *.
  assert (HT : Tensor.len M = 100) by reflexivity.
  assert (Hwf : Tensor.wf M)
    by apply (length_rows
                (fun r c =>
                   Tensor.get 0 (mkTensor2 10 100 (firstn 1000 corpus)) c r)
                10 0 100).
  assert (Hd : fst (get_batch 5 M 0) = Tensor.slice_rows M 0 5) by reflexivity.
  assert (Ht : snd (get_batch 5 M 0) = storage (Tensor.slice_rows M 1 6))
    by reflexivity.
  pose proof (wf_slice_rows M 1 6 Hwf ltac:(lia) ltac:(rewrite HT; lia)) as Wt.
  rewrite (slice_rows_inside M 0 5) in Hd by (rewrite ?HT; lia).
  rewrite (slice_rows_inside M 1 6) in Wt by (rewrite ?HT; lia).
  rewrite (slice_rows_inside M 1 6) in Ht by (rewrite ?HT; lia).
  exists M. split; [exact HM|]. split; [reflexivity|]. split; [reflexivity|].
  split; [now rewrite Hd|]. split; [now rewrite Hd|].
  split; [rewrite Ht; exact Wt|].
  assert (Hw : length (window_starts 5 (Tensor.len M)) = 20%nat)
    by (rewrite HT; reflexivity).
  split; [exact Hw|].
  apply (one_epoch_run M val_data 5 w o Ho); [lia| |exact Hval].
  rewrite Hw. unfold log_interval. lia.
Qed.

End Scenario.

Lemma scenario_1000_tokens_witness :
  exists train_data : Tensor2 Z,
    batchify (repeat 7 1000) 10 = Ok train_data
    /\ exists val_loss,
        let r := run_epochs Toy.network (Toy.criterion ToyRun.loss_at)
                            Toy.sgd_step train_data (Toy.column 2) 5 1
                            Toy.world0 in
        fst r
        = (if exp_overflows val_loss then Raise OverflowError else Ok tt)
        /\ count_reports (snd r) = 0%nat.
Proof.
  destruct (scenario_1000_tokens Z unit Z Toy.network
              (Toy.criterion ToyRun.loss_at) Toy.sgd_step (repeat 7 1000)
              (Toy.column 2) Toy.world0 (mkModel None true Toy.no_table 0)
              (repeat_length 7 1000) eq_refl ltac:(discriminate))
    as (M & HM & _ & _ & _ & _ & _ & _ & w1 & w2 & v & _ & _ & Hr & Hc & _).
  exists M. split; [exact HM|]. exists v. split; [exact Hr|exact Hc].
Defined.

(** The epoch of the scenario prints its summary and no window report:
    its 20 windows have the indices 0 to 19, and a report is due at the
    positive multiples of 200. *)
Lemma scenario_no_window_reports :
  exists train_data : Tensor2 Z,
    batchify (repeat 7 1000) 10 = Ok train_data
    /\ let r := run_epochs Toy.network (Toy.criterion ToyRun.loss_at)
                           Toy.sgd_step train_data (Toy.column 2) 5 1
                           Toy.world0 in
       fst r = Ok tt
       /\ count_reports (snd r) = 0%nat
       /\ count_reports (snd r) <> 19%nat
       /\ count_summaries (snd r) = 1%nat.
Proof.
  eexists. split; [vm_compute; reflexivity|].
  vm_compute. repeat split. discriminate.
Qed.

(** ** The theorems at the small network *)

Example toy_learning_rates :
  opt_lr (snd (ToyRun.run 0)) = 5%Q
  /\ (opt_lr (snd (ToyRun.run 1)) == 4.75)%Q
  /\ (opt_lr (snd (ToyRun.run 2)) == 4.5125)%Q.
Proof. vm_compute. repeat split. Qed.


Lemma best_model_update_witness :
  let r := epoch_body Toy.network (Toy.criterion ToyRun.loss_at) Toy.sgd_step
                      (Toy.column 3) (Toy.column 2) 2 1
                      (reset_best Toy.world0) in
  fst r = Ok tt
  /\ best_val_loss (snd r) = 1%float
  /\ best_model (snd r) = Some model.
Proof.
  destruct (best_model_update Z unit Z Toy.network
              (Toy.criterion ToyRun.loss_at) Toy.sgd_step
              (Toy.column 3) (Toy.column 2) 2
              1 (reset_best Toy.world0)
              (snd (train Toy.network (Toy.criterion ToyRun.loss_at)
                          Toy.sgd_step (Toy.column 3) 2 1
                          (reset_best Toy.world0)))
              (snd (evaluate Toy.network (Toy.criterion ToyRun.loss_at) 2
                             (Some model) (Toy.column 2)
                             (snd (train Toy.network
                                         (Toy.criterion ToyRun.loss_at)
                                         Toy.sgd_step (Toy.column 3) 2 1
                                         (reset_best Toy.world0)))))
              1%float
              ltac:(vm_compute; reflexivity) ltac:(vm_compute; reflexivity))
    as (Hr & Hl & Hm & _).
  split; [exact Hr|]. split; [exact Hl|exact Hm].
Defined.

(** A first epoch whose validation loss is finite but beyond the range of
    the exponential is not recorded either: the summary line raises an
    overflow error before the test on the loss, only the first line of
    dashes is out, and no best model is set. *)
Example first_epoch_overflow_not_recorded :
  let r := run_epochs Toy.network (Toy.criterion (fun _ => 1000%float))
                      Toy.sgd_step (Toy.column 3) (Toy.column 2) 2 1
                      Toy.world0 in
  fst r = Raise OverflowError
  /\ stdout (snd r) = [Dashes]
  /\ best_model (snd r) = None
  /\ best_val_loss (snd r) = PrimFloat.infinity.
Proof. vm_compute. repeat split. Qed.

(** The largest loss whose perplexity can be shown, and the next float. *)
Example exp_range :
  exp_overflows 0x1.62e42fefa39efp+9%float = false
  /\ exp_overflows 0x1.62e42fefa39f0p+9%float = true
  /\ exp_overflows PrimFloat.infinity = false
  /\ exp_overflows PrimFloat.nan = false
  /\ exp_overflows PrimFloat.neg_infinity = false.
Proof. vm_compute. repeat split. Qed.

(** A first epoch whose validation loss is not a number is not recorded:
    no best model is set, and the test cell fails on [None]. *)
Lemma first_epoch_nan_not_recorded :
  fst (ToyRun.run_nan 1) = Ok tt
  /\ In (EpochSummary 1 nan) (stdout (snd (ToyRun.run_nan 1)))
  /\ best_model (snd (ToyRun.run_nan 1)) = None
  /\ fst (run_test Toy.network (Toy.criterion (fun _ => nan)) (Toy.column 2) 2
                   (snd (ToyRun.run_nan 1)))
     = Raise AttributeError.
Proof. vm_compute. intuition. Qed.

Lemma evaluate_correct_witness :
  exists w',
    evaluate Toy.network (Toy.criterion ToyRun.loss_at) 2 (Some model)
             (Toy.column 4) Toy.world0
    = (Ok (evaluate_spec Toy.network (Toy.criterion ToyRun.loss_at) 2
                         (mkModel None true Toy.no_table 0) tt (Toy.column 4)),
       w')
    /\ objects_rel same_weights Toy.world0 w'.
Proof.
  destruct (evaluate_correct Z unit Z Toy.network
              (Toy.criterion ToyRun.loss_at) 2 Toy.world0 model
              (mkModel None true Toy.no_table 0) (Toy.column 4)
              eq_refl ltac:(cbn; lia) ltac:(lia))
    as (w' & Hrun & Hw & _).
  exists w'. split; [exact Hrun|exact Hw].
Defined.

Example evaluate_toy_value :
  fst (evaluate Toy.network (Toy.criterion ToyRun.loss_at) 2 (Some model)
                (Toy.column 4) Toy.world0)
  = Ok 2%float.
Proof. vm_compute. reflexivity. Qed.

Lemma best_model_is_live_model_witness :
  best_model (snd (ToyRun.run 3)) = Some model
  /\ fst (ToyRun.test (snd (ToyRun.run 3)))
     = bind (fst (evaluate Toy.network (Toy.criterion ToyRun.loss_at) 2
                           (Some model) (Toy.column 2) (snd (ToyRun.run 3))))
            (fun test_loss =>
               bind (math_exp test_loss) (fun _ => Ok test_loss)).
Proof.
  destruct (best_model_is_live_model Z unit Z Toy.network
              (Toy.criterion ToyRun.loss_at) Toy.sgd_step
              (Toy.column 3) (Toy.column 2) (Toy.column 2) 2
              2 Toy.world0 (snd (ToyRun.run 3))
              ltac:(vm_compute; reflexivity)
              ltac:(vm_compute; discriminate))
    as (Hb & _ & Ht).
  split; [exact Hb|exact Ht].
Defined.

Lemma generate_square_subsequent_mask_spec_witness :
  Tensor.get zero (Mask.generate_square_subsequent_mask 3) 1 2 = neg_infinity
  /\ Tensor.get zero (Mask.generate_square_subsequent_mask 3) 2 1 = zero.
Proof.
  destruct (generate_square_subsequent_mask_spec 3) as (_ & _ & _ & Hget & _).
  split.
  - exact (Hget 1%nat 2%nat ltac:(lia) ltac:(lia)).
  - exact (Hget 2%nat 1%nat ltac:(lia) ltac:(lia)).
Defined.

(** * Further properties of the code *)

(** ** Batcher: rejected column counts and the alignment of targets *)

(** [batchify] accepts no column count below one: zero makes the floor
    division raise, and a negative count is refused by [narrow] or, when
    the length happens to be a multiple of it, by [view]. *)
Theorem batchify_rejects_nonpositive (data : list Z) (bsz : Z) :
  bsz <= 0 ->
  batchify data bsz
  = Raise (if bsz =? 0 then ZeroDivisionError else RuntimeError).
Proof.
  intros Hb. unfold batchify, Py.floordiv.
  destruct (Z.eqb_spec bsz 0) as [E|E]; [reflexivity|]. cbn [bind].
  set (L := Z.of_nat (length data)).
  assert (HL : 0 <= L) by (unfold L; lia).
  pose proof (Z.div_mod L bsz E) as Hdm.
  pose proof (Z.mod_neg_bound L bsz ltac:(lia)) as Hr.
  assert (Hge : L <= L / bsz * bsz) by lia.
  unfold Tensor.narrow. fold L.
  destruct (Z.ltb_spec L (0 + L / bsz * bsz)) as [|Hle].
  - replace ((0 <? 0) || (L / bsz * bsz <? 0)) with false; [reflexivity|].
    symmetry. apply orb_false_iff. split; [reflexivity|].
    apply Z.ltb_ge. lia.
  - replace ((0 <? 0) || (L / bsz * bsz <? 0)) with false.
    + cbn [orb bind]. unfold Tensor.view_rows.
      destruct (Z.leb_spec bsz 0) as [_|]; [reflexivity|lia].
    + symmetry. apply orb_false_iff. split; [reflexivity|].
      apply Z.ltb_ge. lia.
Qed.

Lemma batchify_rejects_nonpositive_witness :
  batchify [1; 2; 3; 4] (-2) = Raise RuntimeError
  /\ batchify [1; 2; 3] (-2) = Raise RuntimeError.
Proof.
  split.
  - exact (batchify_rejects_nonpositive [1; 2; 3; 4] (-2) ltac:(lia)).
  - exact (batchify_rejects_nonpositive [1; 2; 3] (-2) ltac:(lia)).
Defined.

(** Windows cut from a batched corpus: the input at row t and column b of
    the window that starts at row i is the corpus token of index
    b * n + i + t, where n is the number of rows, and the target at the
    same place is the corpus token that follows it. *)
Theorem window_target_is_next_token (bptt : Z) (corpus : list Z) (bsz i : Z)
  (t b : nat) :
  0 < bsz ->
  0 <= bptt ->
  let n := Z.of_nat (length corpus) / bsz in
  0 <= i <= n - 2 ->
  Z.of_nat t < Z.min bptt (n - 1 - i) ->
  Z.of_nat b < bsz ->
  exists source : Tensor2 Z,
    batchify corpus bsz = Ok source
    /\ Tensor.get 0 (fst (get_batch bptt source i)) t b
       = nth (b * Z.to_nat n + Z.to_nat i + t) corpus 0
    /\ nth (t * Z.to_nat bsz + b) (snd (get_batch bptt source i)) 0
       = nth (b * Z.to_nat n + Z.to_nat i + t + 1) corpus 0.
Proof.
  intros HB HW n Hi Ht Hb.
  rewrite (batchify_unfold corpus bsz HB). fold n.
  set (M0 := mkTensor2 (Z.to_nat bsz) (Z.to_nat n)
               (firstn (Z.to_nat (n * bsz)) corpus)).
  set (M := Tensor.t_contiguous 0 M0).
  assert (HT : Tensor.len M = n) by (unfold Tensor.len, M; cbn; lia).
  assert (HBm : size1 M = Z.to_nat bsz) by reflexivity.
  assert (Hent : forall r : nat,
             Z.of_nat r < n ->
             Tensor.get 0 M r b = nth (b * Z.to_nat n + r) corpus 0).
  { intros r Hr. unfold M. rewrite get_t_contiguous by (cbn; lia).
    unfold Tensor.get, M0. cbn [size1 storage]. rewrite nth_firstn.
    destruct (Nat.ltb_spec (b * Z.to_nat n + r) (Z.to_nat (n * bsz)))
      as [_|Hge]; [reflexivity|exfalso; nia]. }
  exists M. split; [reflexivity|].
  set (seq_len := Z.min bptt (n - 1 - i)) in *.
  assert (Hd : fst (get_batch bptt M i) = Tensor.slice_rows M i (i + seq_len))
    by (unfold get_batch; cbn [fst]; rewrite HT; reflexivity).
  assert (Hg : nth (t * Z.to_nat bsz + b) (snd (get_batch bptt M i)) 0
               = Tensor.get 0 (Tensor.slice_rows M (i + 1) (i + 1 + seq_len))
                            t b).
  { unfold get_batch. cbn [snd]. rewrite HT. fold seq_len.
    reflexivity. }
  split.
  - rewrite Hd, get_slice_rows by lia. rewrite Hent by lia.
    f_equal. lia.
  - rewrite Hg, get_slice_rows by lia. rewrite Hent by lia.
    f_equal. lia.
Qed.

Lemma window_target_is_next_token_witness :
  exists source : Tensor2 Z,
    batchify [10; 11; 12; 13; 14; 15; 16] 2 = Ok source
    /\ Tensor.get 0 (fst (get_batch 2 source 0)) 1 1 = 14
    /\ nth 3 (snd (get_batch 2 source 0)) 0 = 15.
Proof.
  destruct (window_target_is_next_token 2 [10; 11; 12; 13; 14; 15; 16] 2 0
              1 1 ltac:(lia) ltac:(lia) ltac:(cbn; lia) ltac:(cbn; lia)
              ltac:(lia))
    as (source & Hs & Hd & Ht).
  exists source. split; [exact Hs|]. split; [exact Hd|exact Ht].
Defined.

(** ** Windows of a split, taken together *)

Lemma window_blocks_prefix {A : Type} (l : list A) (B : nat) (bptt T : Z)
  (m : nat) :
  1 <= bptt ->
  Z.of_nat m <= (T - 1 + bptt - 1) / bptt ->
  flat_map
    (fun i => firstn (Z.to_nat (window_len bptt T i) * B)
                     (skipn (Z.to_nat i * B) l))
    (map (fun k => Z.of_nat k * bptt) (seq 0 m))
  = firstn (Z.to_nat (Z.min (Z.of_nat m * bptt) (T - 1)) * B) l.
Proof.
  intros Hb Hm. induction m as [|m IH].
  - cbn [seq map flat_map]. replace (Z.min (Z.of_nat 0 * bptt) (T - 1))
      with (Z.min 0 (T - 1)) by reflexivity.
    destruct (Z.min_spec 0 (T - 1)) as [[_ ->]|[Hle ->]].
    + reflexivity.
    + replace (Z.to_nat (T - 1)) with 0%nat by lia. reflexivity.
  - rewrite seq_S, map_app, flat_map_app. cbn [map flat_map Nat.add].
    rewrite app_nil_r, IH by lia.
    pose proof (Z.mul_div_le (T - 1 + bptt - 1) bptt ltac:(lia)) as H1.
    assert (Hlt : Z.of_nat m * bptt < T - 1) by nia.
    rewrite Z.min_l by lia.
    rewrite <- firstn_add_block. f_equal. unfold window_len.
    replace (Z.of_nat (S m) * bptt) with (Z.of_nat m * bptt + bptt) by lia.
    assert (0 <= Z.of_nat m * bptt) by nia.
    rewrite <- Nat.mul_add_distr_r. f_equal. lia.
Qed.

Lemma window_blocks {A : Type} (l : list A) (B : nat) (bptt T : Z) :
  1 <= bptt ->
  flat_map
    (fun i => firstn (Z.to_nat (window_len bptt T i) * B)
                     (skipn (Z.to_nat i * B) l))
    (window_starts bptt T)
  = firstn (Z.to_nat (T - 1) * B) l.
Proof.
  intros Hb. unfold window_starts.
  destruct (Z.le_gt_cases 0 ((T - 1 + bptt - 1) / bptt)) as [Hn|Hn].
  - rewrite window_blocks_prefix by lia.
    rewrite Z2Nat.id by lia.
    pose proof (window_count_covers bptt Hb T). do 2 f_equal. lia.
  - replace (Z.to_nat ((T - 1 + bptt - 1) / bptt)) with 0%nat by lia.
    cbn [seq map flat_map].
    assert (T - 1 + bptt - 1 < 0).
    { destruct (Z.lt_ge_cases (T - 1 + bptt - 1) 0) as [|Hge];
        [assumption|].
      pose proof (Z.div_pos (T - 1 + bptt - 1) bptt Hge ltac:(lia)). lia. }
    replace (Z.to_nat (T - 1)) with 0%nat by lia. reflexivity.
Qed.

(** The windows of a split, visited in order, read every row but the last
    as input exactly once, and every row but the first as target exactly
    once: put end to end, their data are rows 0 .. T - 2 of the source and
    their targets are rows 1 .. T - 1. *)
Theorem windows_cover_split (bptt : Z) (source : Tensor2 Z) :
  1 <= bptt ->
  let T := Tensor.len source in
  let B := size1 source in
  flat_map (fun i => storage (fst (get_batch bptt source i)))
           (window_starts bptt T)
  = firstn (Z.to_nat (T - 1) * B) (storage source)
  /\ flat_map (fun i => snd (get_batch bptt source i)) (window_starts bptt T)
     = firstn (Z.to_nat (T - 1) * B) (skipn B (storage source)).
Proof.
  intros Hb T B. split.
  - rewrite <- (window_blocks (storage source) B bptt T Hb).
    apply flat_map_ext_in. intros i Hi.
    pose proof (window_start_bounds bptt Hb T i Hi) as Hi'.
    unfold get_batch. cbn [fst]. fold T.
    fold (window_len bptt T i).
    rewrite slice_rows_inside by (unfold window_len; fold T; lia).
    cbn [storage]. fold B. do 2 f_equal. lia.
  - rewrite <- (window_blocks (skipn B (storage source)) B bptt T Hb).
    apply flat_map_ext_in. intros i Hi.
    pose proof (window_start_bounds bptt Hb T i Hi) as Hi'.
    unfold get_batch, Tensor.view_flat. cbn [snd]. fold T.
    fold (window_len bptt T i).
    rewrite slice_rows_inside by (unfold window_len; fold T; lia).
    cbn [storage]. fold B. rewrite skipn_skipn.
    f_equal; [f_equal; lia|]. f_equal. lia.
Qed.

Lemma windows_cover_split_witness :
  let source := mkTensor2 4 2 [0; 10; 1; 11; 2; 12; 3; 13] in
  flat_map (fun i => storage (fst (get_batch 2 source i))) (window_starts 2 4)
  = [0; 10; 1; 11; 2; 12]
  /\ flat_map (fun i => snd (get_batch 2 source i)) (window_starts 2 4)
     = [1; 11; 2; 12; 3; 13].
Proof.
  intros source.
  exact (windows_cover_split 2 source ltac:(lia)).
Defined.

(** ** Forward pass and evaluator: cache hits, modes and failures *)

Section ModelExtras.
Variables Params Rng Output : Type.
Variable network :
  bool -> Params -> Tensor2 R -> option (Tensor2 float) -> Tensor2 Z ->
  Rng -> Output * Rng.
Variable criterion : Output -> list Z -> float.
Variable bptt : Z.
Implicit Types (w : World Params Rng) (o : TransformerModel Params).

Lemma same_mode_refl o : same_mode o o.
Proof. reflexivity. Qed.

Lemma same_mode_trans o1 o2 o3 :
  same_mode o1 o2 -> same_mode o2 o3 -> same_mode o1 o3.
Proof. unfold same_mode. congruence. Qed.

Lemma forward_allocated self src w out w1 :
  forward network self src w = (Ok out, w1) ->
  exists o, nth_error (heap w) self = Some o.
Proof.
  intros H. destruct (nth_error (heap w) self) as [o|] eqn:E.
  - exists o. reflexivity.
  - unfold forward, mbind in H. rewrite (load_fail _ _ _ _ E) in H.
    discriminate.
Qed.

Lemma refresh_not_stale o src src' :
  size0 src' = size0 src -> stale (refresh o src) src' = false.
Proof.
  intros Hs. destruct (refresh_mask_size _ o src) as (m & Hm & Hsize).
  unfold stale. rewrite Hm. unfold Tensor.len.
  rewrite Hsize, Hs, Z.eqb_refl. reflexivity.
Qed.

(** A call of [forward] on an input as long as the previous one finds the
    cached mask up to date: it builds no mask and leaves every model object
    exactly as it was. *)
Theorem forward_cache_hit self src src' w out w1 :
  forward network self src w = (Ok out, w1) ->
  size0 src' = size0 src ->
  exists out' w2,
    forward network self src' w1 = (Ok out', w2) /\ heap w2 = heap w1.
Proof.
  intros Hf Hs.
  destruct (forward_allocated _ _ _ _ _ Hf) as (o & Ho).
  pose proof (forward_object _ _ _ network w self o src Ho) as Hobj.
  rewrite Hf in Hobj. cbn [snd] in Hobj.
  rewrite (forward_run _ _ _ network w1 self _ src' Hobj).
  rewrite (refresh_not_stale o src src' Hs).
  eexists _, _. split; reflexivity.
Qed.

Lemma forward_keeps_mode self src :
  keeps (objects_rel same_mode) (forward network self src).
Proof.
  intros w. destruct (nth_error (heap w) self) as [o|] eqn:E.
  - rewrite (forward_run _ _ _ _ _ _ _ _ E). cbn [snd].
    intros a x Ha. cbn [heap]. destruct (stale o src) eqn:Es.
    + eapply update_rel; eauto using same_mode_refl.
      unfold refresh. rewrite Es. reflexivity.
    + exists x. split; [assumption|reflexivity].
  - unfold forward, mbind. rewrite (load_fail _ _ _ _ E). cbn [snd].
    apply objects_rel_refl, same_mode_refl.
Qed.

(** Whatever mode the model was in, [evaluate] leaves it in evaluation
    mode when it returns. *)
Theorem evaluate_leaves_eval_mode self data_source w val_loss w' :
  evaluate network criterion bptt (Some self) data_source w
  = (Ok val_loss, w') ->
  exists o', nth_error (heap w') self = Some o' /\ training o' = false.
Proof.
  intros H. unfold evaluate, deref in H. unfold mbind at 1 in H.
  cbn [ret] in H. unfold mbind at 1 in H.
  destruct (nth_error (heap w) self) as [o|] eqn:E.
  - rewrite (set_mode_run _ _ w self o false E) in H.
    set (w1 := mkWorld _ _ _ _ _ _ _) in H.
    assert (Ho1 : nth_error (heap w1) self = Some (set_training o false))
      by (eapply nth_error_update_eq; eassumption).
    match type of H with
    | ?m w1 = _ => assert (K : keeps (objects_rel same_mode) m)
    end.
    { pose proof forward_keeps_mode.
      pose proof same_mode_trans.
      pose proof same_mode_refl.
      frame. }
    specialize (K w1). rewrite H in K. cbn [snd] in K.
    destruct (K self _ Ho1) as (o' & Ho' & Hm).
    exists o'. split; [exact Ho'|exact Hm].
  - unfold set_mode, mbind in H. rewrite (load_fail _ _ _ _ E) in H.
    discriminate.
Qed.

(** How [evaluate] fails: on [None] before anything is touched; on a
    window size of zero when the windows are listed, the model being in
    evaluation mode already; and on a split of a single row at the final
    division, there being no window and nothing to divide by. *)
Theorem evaluate_failures self o data_source w :
  nth_error (heap w) self = Some o ->
  evaluate network criterion bptt None data_source w
  = (Raise AttributeError, w)
  /\ (bptt = 0 ->
      evaluate network criterion bptt (Some self) data_source w
      = (Raise ValueError,
         mkWorld (update (heap w) self (set_training o false)) (rng w)
                 (opt_lr w) (scheduler w) (best_val_loss w) (best_model w)
                 (stdout w)))
  /\ (1 <= bptt -> Tensor.len data_source = 1 ->
      evaluate network criterion bptt (Some self) data_source w
      = (Raise ZeroDivisionError,
         mkWorld (update (heap w) self (set_training o false)) (rng w)
                 (opt_lr w) (scheduler w) (best_val_loss w) (best_model w)
                 (stdout w))).
Proof.
  intros Ho. split; [reflexivity|]. split.
  - intros ->. unfold evaluate, deref. unfold mbind at 1. cbn [ret].
    unfold mbind at 1. rewrite (set_mode_run _ _ w self o false Ho).
    reflexivity.
  - intros Hb HT. unfold evaluate, deref. unfold mbind at 1. cbn [ret].
    unfold mbind at 1. rewrite (set_mode_run _ _ w self o false Ho).
    unfold mbind at 1. unfold lift at 1. rewrite (range_windows bptt Hb).
    rewrite HT. unfold window_starts.
    replace ((1 - 1 + bptt - 1) / bptt) with 0
      by (symmetry; apply Z.div_small; lia).
    reflexivity.
Qed.

End ModelExtras.

Lemma forward_cache_hit_witness :
  exists out' w2,
    forward Toy.network model (Toy.column 3)
            (snd (forward Toy.network model (Toy.column 3) Toy.world0))
    = (Ok out', w2)
    /\ heap w2
       = heap (snd (forward Toy.network model (Toy.column 3) Toy.world0)).
Proof.
  exact (forward_cache_hit Z unit Z Toy.network model (Toy.column 3)
           (Toy.column 3) Toy.world0 0
           (snd (forward Toy.network model (Toy.column 3) Toy.world0))
           eq_refl eq_refl).
Defined.

Lemma evaluate_leaves_eval_mode_witness :
  exists o',
    nth_error
      (heap (snd (evaluate Toy.network (Toy.criterion ToyRun.loss_at) 2
                           (Some model) (Toy.column 4) Toy.world0)))
      model = Some o'
    /\ training o' = false.
Proof.
  exact (evaluate_leaves_eval_mode Z unit Z Toy.network
           (Toy.criterion ToyRun.loss_at) 2 model (Toy.column 4) Toy.world0
           2%float
           (snd (evaluate Toy.network (Toy.criterion ToyRun.loss_at) 2
                          (Some model) (Toy.column 4) Toy.world0))
           ltac:(vm_compute; reflexivity)).
Defined.

Lemma evaluate_failures_witness :
  fst (evaluate Toy.network (Toy.criterion ToyRun.loss_at) 2 (Some model)
                (Toy.column 1) Toy.world0)
  = Raise ZeroDivisionError.
Proof.
  destruct (evaluate_failures Z unit Z Toy.network
              (Toy.criterion ToyRun.loss_at) 2 model
              (mkModel None true Toy.no_table 0) (Toy.column 1) Toy.world0
              eq_refl) as (_ & _ & H).
  rewrite (H ltac:(lia) eq_refl). reflexivity.
Defined.

(** ** Trainer: what an epoch of training computes and prints *)

Section TrainerExtras.
Variables Params Rng Output : Type.
Variable network :
  bool -> Params -> Tensor2 R -> option (Tensor2 float) -> Tensor2 Z ->
  Rng -> Output * Rng.
Variable criterion : Output -> list Z -> float.
Variable sgd_step : Q -> Params -> Output -> list Z -> Params.
Variables train_data val_data test_data : Tensor2 Z.
Variable bptt : Z.
Implicit Types (w : World Params Rng) (o : TransformerModel Params).

Local Abbreviation train' :=
  (train network criterion sgd_step train_data bptt).
Local Abbreviation train_windows' :=
  (train_windows network criterion sgd_step train_data bptt).

(** An epoch of training takes one optimizer step per window, in window
    order and all at the learning rate that the optimizer holds when the
    epoch starts, with the network in training mode throughout, and prints
    the reports that the window losses give rise to, up to the first one
    whose perplexity is out of range: there it stops with an overflow
    error.  When no report is out of range it returns, and leaves the
    model in training mode with its positional table untouched.  In both
    cases the optimizer, the scheduler and the best-model record are as
    they were. *)
Theorem train_correct epoch w o :
  nth_error (heap w) model = Some o ->
  1 <= bptt ->
  let starts := window_starts bptt (Tensor.len train_data) in
  let r := train_windows' (opt_lr w) (set_training o true) (rng w) starts in
  let lines :=
    report_lines epoch (Tensor.len train_data / bptt) (get_lr (scheduler w))
                 0 PrimFloat.zero (snd r) in
  stdout (snd (train' epoch w)) = stdout w ++ printed_lines lines
  /\ (forallb printable lines = true ->
      train' epoch w
      = (Ok tt,
         mkWorld (update (heap w) model (fst (fst r))) (snd (fst r))
                 (opt_lr w) (scheduler w) (best_val_loss w) (best_model w)
                 (stdout w ++ lines)))
  /\ (forallb printable lines = false ->
      fst (train' epoch w) = Raise OverflowError)
  /\ same_run_state w (snd (train' epoch w))
  /\ training (fst (fst r)) = true
  /\ pe (fst (fst r)) = pe o
  /\ length (snd r) = length starts.
Proof.
  intros Ho Hb starts r lines.
  destruct (train_exact _ _ _ network criterion sgd_step train_data bptt
              epoch w o Ho Hb) as (Hout & Hok & Hfail).
  destruct (train_windows_keeps _ _ _ network criterion sgd_step train_data
              bptt (opt_lr w) starts (set_training o true) (rng w))
    as (Ht & Hp & Hl).
  fold r in Ht, Hp, Hl.
  split; [exact Hout|]. split; [exact Hok|]. split; [exact Hfail|].
  split; [apply train_keeps_run_state|].
  repeat split; assumption.
Qed.

Lemma report_lines_next epoch nbatches shown (n : nat) :
  forall (batch : Z) (acc : float) (losses : list float),
    (forall j, batch <= j < batch + Z.of_nat n -> report_due j = false) ->
    report_due (batch + Z.of_nat n) = true ->
    (n < length losses)%nat ->
    report_lines epoch nbatches shown batch acc losses
    = BatchReport epoch (batch + Z.of_nat n) nbatches shown
        (PrimFloat.div (fold_left PrimFloat.add (firstn (S n) losses) acc)
                       (float_of_int log_interval))
      :: report_lines epoch nbatches shown
           (batch + Z.of_nat n + 1) PrimFloat.zero (skipn (S n) losses).
Proof.
  induction n as [|n IH]; intros batch acc losses Hquiet Hdue Hlen.
  - destruct losses as [|l rest]; [cbn in Hlen; lia|].
    replace (batch + Z.of_nat 0) with batch in * by lia.
    cbn [report_lines firstn skipn fold_left]. rewrite Hdue. reflexivity.
  - destruct losses as [|l rest]; [cbn in Hlen; lia|].
    cbn [report_lines]. rewrite (Hquiet batch) by lia.
    rewrite (IH (batch + 1) (PrimFloat.add acc l) rest).
    + replace (batch + 1 + Z.of_nat n) with (batch + Z.of_nat (S n)) by lia.
      reflexivity.
    + intros j Hj. apply Hquiet. lia.
    + replace (batch + 1 + Z.of_nat n) with (batch + Z.of_nat (S n)) by lia.
      exact Hdue.
    + cbn in Hlen. lia.
Qed.

Lemma report_due_multiple (k : Z) :
  1 <= k -> report_due (k * log_interval) = true.
Proof.
  intros Hk. unfold report_due.
  rewrite Z.mod_mul by (unfold log_interval; lia).
  cbn [Z.eqb andb]. apply Z.ltb_lt. unfold log_interval. lia.
Qed.

Lemma report_due_between (k j : Z) :
  0 <= k ->
  k * log_interval < j < (k + 1) * log_interval ->
  report_due j = false.
Proof.
  intros Hk Hj. unfold report_due. apply andb_false_iff. left.
  apply Z.eqb_neq. intros H0.
  apply Z.mod_divide in H0; [|unfold log_interval; lia].
  destruct H0 as [q Hq]. subst j. unfold log_interval in *. lia.
Qed.

(** The running loss is reset at a report but window 0 never reports, so
    the first report of an epoch, at window 200, shows the sum of the
    first 201 window losses divided by 200, while the second, at window
    400, shows the sum of the next 200 losses divided by 200.  Both lines
    are written when their perplexities are in range; when that of the
    first is not, the epoch stops there with an overflow error and has
    written nothing. *)
Theorem train_first_reports epoch w o :
  nth_error (heap w) model = Some o ->
  1 <= bptt ->
  let li := Z.to_nat log_interval in
  let starts := window_starts bptt (Tensor.len train_data) in
  let losses :=
    snd (train_windows' (opt_lr w) (set_training o true) (rng w) starts) in
  let first :=
    PrimFloat.div
      (fold_left PrimFloat.add (firstn (S li) losses) PrimFloat.zero)
      (float_of_int log_interval) in
  let second :=
    PrimFloat.div
      (fold_left PrimFloat.add (firstn li (skipn (S li) losses))
                 PrimFloat.zero)
      (float_of_int log_interval) in
  (2 * li < length starts)%nat ->
  (exp_overflows first = false ->
   exp_overflows second = false ->
   exists rest,
     stdout (snd (train' epoch w))
     = stdout w
       ++ BatchReport epoch log_interval (Tensor.len train_data / bptt)
            (get_lr (scheduler w)) first
       :: BatchReport epoch (2 * log_interval) (Tensor.len train_data / bptt)
            (get_lr (scheduler w)) second
       :: rest)
  /\ (exp_overflows first = true ->
      fst (train' epoch w) = Raise OverflowError
      /\ stdout (snd (train' epoch w)) = stdout w).
Proof.
  intros Ho Hb li starts losses first second Hn.
  destruct (train_exact _ _ _ network criterion sgd_step train_data bptt
              epoch w o Ho Hb) as (Hout & _ & Hfail).
  fold starts in Hout, Hfail. fold losses in Hout, Hfail.
  destruct (train_windows_keeps _ _ _ network criterion sgd_step train_data
              bptt (opt_lr w) starts (set_training o true) (rng w))
    as (_ & _ & Hlen).
  fold losses in Hlen.
  assert (Hli : Z.of_nat li = log_interval) by reflexivity.
  assert (Hlines :
            report_lines epoch (Tensor.len train_data / bptt)
                         (get_lr (scheduler w)) 0 PrimFloat.zero losses
            = BatchReport epoch log_interval (Tensor.len train_data / bptt)
                (get_lr (scheduler w)) first
              :: BatchReport epoch (2 * log_interval)
                   (Tensor.len train_data / bptt) (get_lr (scheduler w))
                   second
              :: report_lines epoch (Tensor.len train_data / bptt)
                   (get_lr (scheduler w)) (2 * log_interval + 1)
                   PrimFloat.zero (skipn (S (li - 1)) (skipn (S li) losses))).
  { rewrite (report_lines_next epoch _ _ li 0 PrimFloat.zero losses).
    - replace (0 + Z.of_nat li) with log_interval by lia.
      rewrite (report_lines_next epoch _ _ (li - 1) (log_interval + 1)
                 PrimFloat.zero (skipn (S li) losses)).
      + replace (log_interval + 1 + Z.of_nat (li - 1)) with (2 * log_interval)
          by (unfold li, log_interval; lia).
        replace (S (li - 1)) with li by (unfold li, log_interval; lia).
        reflexivity.
      + intros j Hj. apply (report_due_between 1); [lia|].
        unfold li, log_interval in *. lia.
      + replace (log_interval + 1 + Z.of_nat (li - 1)) with (2 * log_interval)
          by (unfold li, log_interval; lia).
        apply report_due_multiple. lia.
      + rewrite length_skipn. unfold li, log_interval in *. lia.
    - intros j Hj. apply report_due_below. lia.
    - replace (0 + Z.of_nat li) with (1 * log_interval) by lia.
      apply report_due_multiple. lia.
    - lia. }
  rewrite Hlines in Hout, Hfail.
  cbn [printed_lines forallb printable shown_loss] in Hout, Hfail.
  split.
  - intros H1 H2. rewrite H1, H2 in Hout. cbn [negb] in Hout.
    eexists. exact Hout.
  - intros H1. rewrite H1 in Hout, Hfail. cbn [negb andb] in Hout, Hfail.
    split; [exact (Hfail eq_refl)|]. rewrite Hout. apply app_nil_r.
Qed.

End TrainerExtras.

(** ** Epoch loop: summaries and the best-model record *)

Section EpochExtras.
Variables Params Rng Output : Type.
Variable network :
  bool -> Params -> Tensor2 R -> option (Tensor2 float) -> Tensor2 Z ->
  Rng -> Output * Rng.
Variable criterion : Output -> list Z -> float.
Variable sgd_step : Q -> Params -> Output -> list Z -> Params.
Variables train_data val_data test_data : Tensor2 Z.
Variable bptt : Z.
Implicit Types (w : World Params Rng) (o : TransformerModel Params).

Local Abbreviation train' :=
  (train network criterion sgd_step train_data bptt).
Local Abbreviation evaluate' := (evaluate network criterion bptt).
Local Abbreviation epoch_body' :=
  (epoch_body network criterion sgd_step train_data val_data bptt).
Local Abbreviation run_epochs' :=
  (run_epochs network criterion sgd_step train_data val_data bptt).
Local Abbreviation run_test' := (run_test network criterion test_data bptt).

Lemma same_summaries_refl w : same_summaries w w.
Proof. reflexivity. Qed.

Lemma same_summaries_trans w1 w2 w3 :
  same_summaries w1 w2 -> same_summaries w2 w3 -> same_summaries w1 w3.
Proof. unfold same_summaries. congruence. Qed.

Lemma stdout_summaries {A : Type} (m : M (World Params Rng) A) :
  keeps same_stdout m -> keeps same_summaries m.
Proof. intros H w. unfold same_summaries. now rewrite (H w). Qed.

Lemma print_report_keeps_summaries epoch batch nbatches shown cur_loss :
  keeps same_summaries
        (print (Params := Params) (Rng := Rng)
               (BatchReport epoch batch nbatches shown cur_loss)).
Proof.
  intros w. unfold same_summaries, print. cbn [snd stdout].
  rewrite filter_app. cbn. apply app_nil_r.
Qed.

Lemma train_keeps_summaries epoch : keeps same_summaries (train' epoch).
Proof.
  pose proof same_summaries_refl. pose proof same_summaries_trans.
  pose proof print_report_keeps_summaries.
  pose proof (stdout_summaries
                (set_mode (Params := Params) (Rng := Rng) model true)
                (set_mode_keeps_stdout _ _ _ _)).
  assert (forall d, keeps same_summaries (forward network model d))
    by (intros d; apply stdout_summaries, forward_keeps_stdout).
  assert (forall out t,
             keeps same_summaries
                   (optimizer_step (Rng := Rng) sgd_step model out t))
    by (intros out t; apply stdout_summaries, optimizer_step_keeps_stdout).
  unfold train. frame.
Qed.

Lemma epoch_body_step epoch w w' :
  epoch_body' epoch w = (Ok tt, w') ->
  exists val_loss,
    filter is_epoch_summary (stdout w')
    = filter is_epoch_summary (stdout w) ++ [EpochSummary epoch val_loss]
    /\ best_model w'
       = (if PrimFloat.ltb val_loss (best_val_loss w)
          then Some model else best_model w)
    /\ best_val_loss w'
       = (if PrimFloat.ltb val_loss (best_val_loss w)
          then val_loss else best_val_loss w).
Proof.
  intros H.
  destruct (epoch_body_frames _ _ _ _ _ _ _ _ _ _ _ _ H)
    as (w1 & w2 & v & Ht & Ev & -> & (_ & _ & Hbl & Hbm) & _).
  exists v.
  pose proof (train_keeps_summaries epoch w) as K1.
  pose proof (stdout_summaries _
                (evaluate_keeps_stdout _ _ _ network criterion bptt
                   (Some model) val_data) w1) as K2.
  rewrite Ht in K1. rewrite Ev in K2. cbn [snd] in K1, K2.
  unfold same_summaries in K1, K2.
  unfold after_validation. cbn [stdout best_model best_val_loss].
  rewrite filter_app, K2, K1, Hbl, Hbm. cbn [filter is_epoch_summary].
  repeat split.
Qed.

Lemma combine_snoc {X Y : Type} (xs : list X) (ys : list Y) (x : X) (y : Y) :
  length xs = length ys ->
  combine (xs ++ [x]) (ys ++ [y]) = combine xs ys ++ [(x, y)].
Proof.
  revert ys. induction xs as [|a xs IH]; intros [|b ys] H; cbn in *;
    try discriminate; [reflexivity|].
  rewrite IH by congruence. reflexivity.
Qed.

Lemma epochs_trace (k : nat) w0 w :
  for_ (epochs_list k) epoch_body' w0 = (Ok tt, w) ->
  best_model w0 = None ->
  best_val_loss w0 = PrimFloat.infinity ->
  exists vs : list float,
    length vs = k
    /\ filter is_epoch_summary (stdout w)
       = filter is_epoch_summary (stdout w0)
         ++ map (fun ev => EpochSummary (fst ev) (snd ev))
                (combine (epochs_list k) vs)
    /\ best_model w
       = (if existsb (fun v => PrimFloat.ltb v PrimFloat.infinity) vs
          then Some model else None)
    /\ (existsb (fun v => PrimFloat.ltb v PrimFloat.infinity) vs = false ->
        best_val_loss w = PrimFloat.infinity).
Proof.
  intros Hrun Hm0 Hl0. revert w Hrun.
  induction k as [|k IH]; intros w Hrun.
  - cbn in Hrun. injection Hrun as <-. exists []. cbn.
    rewrite app_nil_r. repeat split; auto.
  - rewrite epochs_list_S in Hrun.
    destruct (for_snoc_inv _ _ _ _ _ _ _ Hrun) as (wk & Hk & Hbody).
    destruct (IH wk Hk) as (vs & Hlen & Hsum & Hbm & Hbl).
    destruct (epoch_body_step _ _ _ Hbody) as (v & Hs' & Hm' & Hl').
    exists (vs ++ [v]).
    split; [rewrite length_app; cbn; lia|]. split.
    + rewrite Hs', Hsum, epochs_list_S, <- app_assoc. f_equal.
      rewrite combine_snoc by (unfold epochs_list;
                               rewrite length_map, length_seq; lia).
      rewrite map_app. reflexivity.
    + rewrite existsb_app. cbn [existsb]. rewrite orb_false_r.
      rewrite Hm', Hl', Hbm.
      destruct (existsb (fun v0 => PrimFloat.ltb v0 PrimFloat.infinity) vs).
      * cbn [orb]. split; [|discriminate].
        destruct (PrimFloat.ltb v (best_val_loss wk)); reflexivity.
      * cbn [orb]. rewrite (Hbl eq_refl).
        split; [reflexivity|]. intros ->. reflexivity.
Qed.

(** A completed run of n epochs has printed one summary line per epoch,
    numbered 1 to n in this order, and has recorded a best model exactly
    when at least one of the validation losses shown on those lines
    compares below plus infinity. *)
Theorem run_epochs_summaries (n : nat) w0 w' :
  run_epochs' (Z.of_nat n) w0 = (Ok tt, w') ->
  exists vs : list float,
    length vs = n
    /\ filter is_epoch_summary (stdout w')
       = filter is_epoch_summary (stdout w0)
         ++ map (fun ev => EpochSummary (fst ev) (snd ev))
                (combine (epochs_list n) vs)
    /\ best_model w'
       = (if existsb (fun v => PrimFloat.ltb v PrimFloat.infinity) vs
          then Some model else None).
Proof.
  intros Hrun. rewrite run_epochs_unfold in Hrun.
  destruct (epochs_trace n (reset_best w0) w' Hrun eq_refl eq_refl)
    as (vs & Hlen & Hsum & Hbm & _).
  exists vs. repeat split; assumption.
Qed.

(** If a completed run of the epochs has recorded no best model, the best
    loss is still plus infinity and the test cell fails on [None] with an
    attribute error, before it prints or changes anything. *)
Theorem test_without_best_model (n : nat) w0 w' :
  run_epochs' (Z.of_nat n) w0 = (Ok tt, w') ->
  best_model w' = None ->
  best_val_loss w' = PrimFloat.infinity
  /\ run_test network criterion test_data bptt w'
     = (Raise AttributeError, w').
Proof.
  intros Hrun Hnone. rewrite run_epochs_unfold in Hrun.
  destruct (epochs_trace n (reset_best w0) w' Hrun eq_refl eq_refl)
    as (vs & _ & _ & Hbm & Hbl).
  split.
  - apply Hbl. rewrite Hnone in Hbm.
    destruct (existsb (fun v => PrimFloat.ltb v PrimFloat.infinity) vs);
      [discriminate|reflexivity].
  - unfold run_test. unfold mbind at 1. unfold read at 1. rewrite Hnone.
    reflexivity.
Qed.

End EpochExtras.

(** ** Positional table: range of the entries and rejected dimensions *)

(** Every entry of the table of an even dimension lies between -1 and 1,
    in any arithmetic whose sine and cosine kernels return values between
    -1 and 1, as the exact sine and cosine do. *)
Theorem table_entries_bounded (F : PositionalEncoding.Float32)
  (d_model max_len : Z) (p c : nat) :
  (forall a, -1 <= PositionalEncoding.t_sin F a <= 1)%R ->
  (forall a, -1 <= PositionalEncoding.t_cos F a <= 1)%R ->
  Z.even d_model = true ->
  (Z.of_nat p < max_len)%Z ->
  (Z.of_nat c < d_model)%Z ->
  exists pe : Tensor2 R,
    PositionalEncoding.build F d_model max_len = Ok pe
    /\ (-1 <= Tensor.get 0 pe p c <= 1)%R.
Proof.
  intros Hs Hcs He Hp Hc.
  assert (Hd : (0 < d_model)%Z) by lia.
  pose proof (half_double d_model He Hd) as Hh.
  assert (Hi : (Z.of_nat (c / 2) < d_model / 2)%Z).
  { assert (c / 2 < Z.to_nat (d_model / 2))%nat
      by (apply Nat.Div0.div_lt_upper_bound; lia).
    lia. }
  destruct (table_entries F d_model max_len p (c / 2) He Hp Hi)
    as (pe & Hb & _ & _ & Hsin & Hcos).
  exists pe. split; [exact Hb|].
  pose proof (Nat.div_mod_eq c 2) as Hc2.
  assert (Hr : (c mod 2 < 2)%nat) by (apply Nat.mod_upper_bound; lia).
  destruct (c mod 2)%nat as [|[|r]] eqn:Er; [ | |lia].
  - replace (Tensor.get 0%R pe p c)
      with (Tensor.get 0%R pe p (2 * (c / 2))) by (f_equal; lia).
    rewrite Hsin. apply Hs.
  - replace (Tensor.get 0%R pe p c)
      with (Tensor.get 0%R pe p (2 * (c / 2) + 1)) by (f_equal; lia).
    rewrite Hcos. apply Hcs.
Qed.

Lemma table_entries_bounded_witness :
  exists pe : Tensor2 R,
    PositionalEncoding.build PositionalEncoding.exact_arithmetic 4 3 = Ok pe
    /\ (-1 <= Tensor.get 0 pe 2 3 <= 1)%R.
Proof.
  exact (table_entries_bounded PositionalEncoding.exact_arithmetic 4 3 2 3
           SIN_bound COS_bound eq_refl ltac:(lia) ltac:(lia)).
Defined.

(** An odd dimension of three or more is refused when the table is built:
    the cosine block has one column more than the odd columns of the table
    can take.  A dimension of zero is refused at the division by it.  The
    arithmetic plays no part in either. *)
Theorem table_rejects_odd_dimension (F : PositionalEncoding.Float32)
  (d_model max_len : Z) :
  (0 <= max_len)%Z ->
  (d_model = 0 -> PositionalEncoding.build F d_model max_len
                  = Raise ZeroDivisionError)
  /\ (Z.odd d_model = true -> (3 <= d_model)%Z ->
      PositionalEncoding.build F d_model max_len = Raise RuntimeError).
Proof.
  intros Hl. split.
  - intros ->. unfold PositionalEncoding.build.
    destruct (Z.ltb_spec max_len 0) as [|_]; [lia|]. reflexivity.
  - intros Hodd Hd. unfold PositionalEncoding.build.
    destruct (Z.ltb_spec max_len 0) as [|_]; [lia|].
    destruct (Z.ltb_spec d_model 0) as [|_]; [lia|].
    destruct (Z.eqb_spec d_model 0) as [|_]; [lia|].
    cbn [orb].
    apply Z.odd_spec in Hodd. destruct Hodd as [h Hh].
    assert (Hcols : Py.range_len 0 d_model 2 = Z.to_nat (h + 1)).
    { unfold Py.range_len. cbn [Z.ltb Z.compare].
      replace (d_model - 0 + 2 - 1) with ((h + 1) * 2)%Z by lia.
      now rewrite Z.div_mul by lia. }
    assert (Hodds : Py.range_len 1 d_model 2 = Z.to_nat h).
    { unfold Py.range_len. cbn [Z.ltb Z.compare].
      replace (d_model - 1 + 2 - 1) with (1 + h * 2)%Z by lia.
      rewrite Z.div_add by lia. change (1 / 2)%Z with 0%Z. f_equal. }
    set (angles := PositionalEncoding.outer _ _ _).
    assert (Hs : size1 angles = Z.to_nat (h + 1)).
    { unfold angles, PositionalEncoding.outer, PositionalEncoding.div_term,
        PositionalEncoding.arange2.
      cbn [size1 Tensor.tabulate].
      now rewrite !length_map, length_seq, Hcols. }
    assert (Hr : size0 angles = Z.to_nat max_len).
    { unfold angles, PositionalEncoding.outer.
      cbn [size0 Tensor.tabulate]. now rewrite length_map, length_seq. }
    rewrite assign_cols_ok.
    + cbn [bind]. unfold PositionalEncoding.assign_cols.
      unfold PositionalEncoding.broadcastable,
        PositionalEncoding.strided_cols.
      cbn [size0 size1 Tensor.tabulate Tensor.map_t].
      rewrite !length_map, length_seq, Z2Nat.id by lia.
      change (Z.of_nat 1) with 1%Z. rewrite Hodds, Hs.
      replace (Z.to_nat (h + 1) =? Z.to_nat h)%nat with false
        by (symmetry; apply Nat.eqb_neq; lia).
      replace (Z.to_nat (h + 1) =? 1)%nat with false
        by (symmetry; apply Nat.eqb_neq; lia).
      cbn [orb]. rewrite andb_false_r. reflexivity.
    + cbn [size0 Tensor.tabulate Tensor.map_t]. exact Hr.
    + cbn [size1 Tensor.tabulate Tensor.map_t].
      rewrite Z2Nat.id by lia. change (Z.of_nat 0) with 0%Z.
      now rewrite Hcols.
Qed.

Lemma table_rejects_odd_dimension_witness :
  PositionalEncoding.build PositionalEncoding.exact_arithmetic 5 2
  = Raise RuntimeError.
Proof.
  exact (proj2 (table_rejects_odd_dimension
                  PositionalEncoding.exact_arithmetic 5 2 ltac:(lia))
           eq_refl ltac:(lia)).
Defined.

(** ** Reports: the total number of windows they show *)

Lemma window_count (bptt T : Z) :
  2 <= bptt -> 0 <= T ->
  Z.of_nat (length (window_starts bptt T))
  = T / bptt + (if 2 <=? T mod bptt then 1 else 0).
Proof.
  intros Hb HT. unfold window_starts. rewrite length_map, length_seq.
  pose proof (Z.div_mod T bptt ltac:(lia)) as Hdm.
  pose proof (Z.mod_pos_bound T bptt ltac:(lia)) as Hr.
  assert (0 <= T / bptt) by (apply Z.div_pos; lia).
  destruct (Z.leb_spec 2 (T mod bptt)) as [H2|H2].
  - rewrite <- (Z.div_unique (T - 1 + bptt - 1) bptt (T / bptt + 1)
                  (T mod bptt - 2)) by lia.
    lia.
  - rewrite <- (Z.div_unique (T - 1 + bptt - 1) bptt (T / bptt)
                  (bptt + T mod bptt - 2)) by lia.
    lia.
Qed.

Section ReportTotals.
Variables Params Rng Output : Type.
Variable network :
  bool -> Params -> Tensor2 R -> option (Tensor2 float) -> Tensor2 Z ->
  Rng -> Output * Rng.
Variable criterion : Output -> list Z -> float.
Variable sgd_step : Q -> Params -> Output -> list Z -> Params.
Variable train_data : Tensor2 Z.
Variable bptt : Z.
Implicit Types (w : World Params Rng) (o : TransformerModel Params).

Lemma report_lines_total epoch nbatches shown (losses : list float) :
  forall batch acc l,
    In l (report_lines epoch nbatches shown batch acc losses) ->
    exists b c, l = BatchReport epoch b nbatches shown c.
Proof.
  induction losses as [|x losses IH]; intros batch acc l Hin.
  - contradiction.
  - cbn [report_lines] in Hin.
    destruct (report_due batch).
    + destruct Hin as [<-|Hin]; [eexists _, _; reflexivity|].
      eapply IH; eassumption.
    + eapply IH; eassumption.
Qed.

(** Every report of an epoch shows [len(train_data) // bptt] as the number
    of batches and the learning rate of the epoch, while the epoch takes
    one optimizer step for each of its windows; for a window size of two
    or more the number shown is one short of the number of windows exactly
    when the remainder of the row count by the window size is two or
    more. *)
Theorem report_total_and_window_count epoch w o :
  nth_error (heap w) model = Some o ->
  2 <= bptt ->
  let T := Tensor.len train_data in
  let steps :=
    snd (train_windows network criterion sgd_step train_data bptt (opt_lr w)
                       (set_training o true) (rng w)
                       (window_starts bptt T)) in
  exists printed,
    stdout (snd (train network criterion sgd_step train_data bptt epoch w))
    = stdout w ++ printed
    /\ (forall l, In l printed ->
                  exists b c,
                    l = BatchReport epoch b (T / bptt)
                                    (get_lr (scheduler w)) c)
    /\ Z.of_nat (length steps)
       = T / bptt + (if 2 <=? T mod bptt then 1 else 0).
Proof.
  intros Ho Hb T steps.
  destruct (train_exact _ _ _ network criterion sgd_step train_data bptt
              epoch w o Ho ltac:(lia)) as (Hout & _ & _).
  eexists. split; [exact Hout|]. split.
  - intros l Hl. apply printed_lines_incl in Hl.
    eapply report_lines_total. exact Hl.
  - destruct (train_windows_keeps _ _ _ network criterion sgd_step train_data
                bptt (opt_lr w) (window_starts bptt T) (set_training o true)
                (rng w)) as (_ & _ & Hlen).
    unfold steps. rewrite Hlen. apply window_count; [lia|].
    unfold T, Tensor.len. lia.
Qed.

End ReportTotals.

(** ** The further properties at the small network *)

Lemma train_correct_witness :
  let r := train Toy.network (Toy.criterion ToyRun.loss_at) Toy.sgd_step
                 (Toy.column 202) 1 1 Toy.world0 in
  fst r = Ok tt
  /\ option_map params (nth_error (heap (snd r)) model) = Some 201
  /\ length (stdout (snd r)) = 1%nat.
Proof.
  destruct (train_correct Z unit Z Toy.network (Toy.criterion ToyRun.loss_at)
              Toy.sgd_step (Toy.column 202) 1 1 Toy.world0
              (mkModel None true Toy.no_table 0) eq_refl ltac:(lia))
    as (_ & Hrun & _).
  cbv zeta. rewrite (Hrun ltac:(vm_compute; reflexivity)).
  vm_compute. repeat split.
Defined.

Lemma train_first_reports_witness :
  exists c1 c2 rest,
    stdout (snd (train Toy.network (Toy.criterion ToyRun.loss_at)
                       Toy.sgd_step (Toy.column 402) 1 1 Toy.world0))
    = BatchReport 1 200 402 5 c1 :: BatchReport 1 400 402 5 c2 :: rest.
Proof.
  destruct (train_first_reports Z unit Z Toy.network
              (Toy.criterion ToyRun.loss_at) Toy.sgd_step (Toy.column 402)
              1 1 Toy.world0 (mkModel None true Toy.no_table 0)
              eq_refl ltac:(lia) ltac:(vm_compute; lia))
    as (Hboth & _).
  destruct (Hboth ltac:(vm_compute; reflexivity)
                  ltac:(vm_compute; reflexivity)) as (rest & Hout).
  eexists _, _, rest. exact Hout.
Defined.

Lemma report_total_and_window_count_witness :
  exists printed,
    stdout (snd (train Toy.network (Toy.criterion ToyRun.loss_at)
                       Toy.sgd_step (Toy.column 605) 3 1 Toy.world0))
    = printed
    /\ (forall l, In l printed -> exists b c, l = BatchReport 1 b 201 5 c)
    /\ Z.of_nat
         (length
            (snd (train_windows Toy.network (Toy.criterion ToyRun.loss_at)
                                Toy.sgd_step (Toy.column 605) 3 5
                                (mkModel None true Toy.no_table 0) tt
                                (window_starts 3 605))))
       = 202.
Proof.
  destruct (report_total_and_window_count Z unit Z Toy.network
              (Toy.criterion ToyRun.loss_at) Toy.sgd_step (Toy.column 605)
              3 1 Toy.world0 (mkModel None true Toy.no_table 0)
              eq_refl ltac:(lia))
    as (printed & Hout & Hall & Hn).
  exists printed. split; [exact Hout|]. split; [exact Hall|exact Hn].
Defined.

Lemma run_epochs_summaries_witness :
  exists vs : list float,
    length vs = 3%nat
    /\ filter is_epoch_summary (stdout (snd (ToyRun.run 3)))
       = map (fun ev => EpochSummary (fst ev) (snd ev))
             (combine (epochs_list 3) vs).
Proof.
  destruct (run_epochs_summaries Z unit Z Toy.network
              (Toy.criterion ToyRun.loss_at) Toy.sgd_step
              (Toy.column 3) (Toy.column 2) 2
              3 Toy.world0 (snd (ToyRun.run 3))
              ltac:(vm_compute; reflexivity))
    as (vs & Hlen & Hsum & _).
  exists vs. split; [exact Hlen|exact Hsum].
Defined.

Lemma test_without_best_model_witness :
  run_test Toy.network (Toy.criterion (fun _ => nan)) (Toy.column 2) 2
           (snd (ToyRun.run_nan 2))
  = (Raise AttributeError, snd (ToyRun.run_nan 2)).
Proof.
  exact (proj2 (test_without_best_model Z unit Z Toy.network
                  (Toy.criterion (fun _ => nan)) Toy.sgd_step
                  (Toy.column 3) (Toy.column 2) (Toy.column 2) 2
                  2 Toy.world0 (snd (ToyRun.run_nan 2))
                  ltac:(vm_compute; reflexivity)
                  ltac:(vm_compute; reflexivity))).
Defined.

(** ** The only way in which the run can fail *)

Section RunFailures.
Variables Params Rng Output : Type.
Variable network :
  bool -> Params -> Tensor2 R -> option (Tensor2 float) -> Tensor2 Z ->
  Rng -> Output * Rng.
Variable criterion : Output -> list Z -> float.
Variable sgd_step : Q -> Params -> Output -> list Z -> Params.
Variables train_data val_data test_data : Tensor2 Z.
Variable bptt : Z.
Hypothesis bptt_pos : 1 <= bptt.
Hypothesis val_rows : Tensor.len val_data <> 1.
Implicit Types (w : World Params Rng) (o : TransformerModel Params).

Local Abbreviation train' :=
  (train network criterion sgd_step train_data bptt).
Local Abbreviation epoch_body' :=
  (epoch_body network criterion sgd_step train_data val_data bptt).

Lemma epoch_outcome epoch w o :
  nth_error (heap w) model = Some o ->
  exists r w' o',
    epoch_body' epoch w = (r, w')
    /\ nth_error (heap w') model = Some o'
    /\ (r = Ok tt \/ r = Raise OverflowError).
Proof.
  intros Ho.
  destruct (train_exact _ _ _ network criterion sgd_step train_data bptt
              epoch w o Ho bptt_pos) as (_ & Hok & Hfail).
  pose proof (train_keeps_table _ _ _ network criterion sgd_step train_data
                bptt epoch w model o Ho) as (o1 & Ho1 & _).
  destruct (forallb printable _) eqn:Hall.
  - specialize (Hok eq_refl). rewrite Hok in Ho1. cbn [snd] in Ho1.
    match type of Hok with
    | _ = (Ok tt, ?x) => set (w1 := x) in *
    end.
    destruct (evaluate_run _ _ _ network criterion bptt w1 model o1 val_data
                Ho1 bptt_pos val_rows) as (w2 & Ev).
    pose proof (evaluate_keeps_weights _ _ _ network criterion bptt
                  (Some model) val_data w1) as Kw.
    rewrite Ev in Kw. cbn [snd] in Kw.
    destruct (Kw model o1 Ho1) as (o2 & Ho2 & _).
    rewrite (epoch_body_run _ _ _ network criterion sgd_step train_data
               val_data bptt epoch w w1 w2 _ Hok Ev).
    destruct (exp_overflows _).
    + exists (Raise OverflowError), (at_summary w2), o2.
      split; [reflexivity|]. split; [exact Ho2|now right].
    + eexists (Ok tt), _, o2.
      split; [reflexivity|]. split; [exact Ho2|now left].
  - specialize (Hfail eq_refl).
    destruct (train' epoch w) as [r1 w1] eqn:Et. cbn [fst snd] in *.
    subst r1. exists (Raise OverflowError), w1, o1.
    split; [|split; [exact Ho1|now right]].
    unfold epoch_body. apply mbind_raise. exact Et.
Qed.

Lemma epochs_outcome (es : list Z) :
  forall w o,
    nth_error (heap w) model = Some o ->
    exists r w' o',
      for_ es epoch_body' w = (r, w')
      /\ nth_error (heap w') model = Some o'
      /\ (r = Ok tt \/ r = Raise OverflowError).
Proof.
  induction es as [|e es IH]; intros w o Ho.
  - exists (Ok tt), w, o. split; [reflexivity|]. split; [exact Ho|now left].
  - destruct (epoch_outcome e w o Ho) as (r1 & w1 & o1 & E1 & Ho1 & [->| ->]).
    + destruct (IH w1 o1 Ho1) as (r & w' & o' & E & Ho' & Hr).
      exists r, w', o'. split; [|split; assumption].
      unfold for_ in *. cbn [for_acc].
      rewrite (mbind_ok _ _ _ _ _ _ _ E1). exact E.
    + exists (Raise OverflowError), w1, o1.
      split; [|split; [exact Ho1|now right]].
      unfold for_. cbn [for_acc]. apply mbind_raise. exact E1.
Qed.

(** With an existing model object, a positive window size and a
    validation split that does not have exactly one row, the loop over the
    epochs either goes through or stops with the overflow error of a
    perplexity on a line to be printed: no other exception can arise,
    whatever the network computes and for any number of epochs.  The same
    holds of the test cell that follows, when a best model is recorded and
    the test split does not have exactly one row. *)
Theorem run_raises_only_overflow (n : nat) w o :
  nth_error (heap w) model = Some o ->
  let r := run_epochs network criterion sgd_step train_data val_data bptt
                      (Z.of_nat n) w in
  (fst r = Ok tt \/ fst r = Raise OverflowError)
  /\ (best_model (snd r) = Some model ->
      Tensor.len test_data <> 1 ->
      (exists test_loss,
          fst (run_test network criterion test_data bptt (snd r))
          = Ok test_loss)
      \/ fst (run_test network criterion test_data bptt (snd r))
         = Raise OverflowError).
Proof.
  intros Ho r. unfold r. rewrite run_epochs_unfold.
  destruct (epochs_outcome (epochs_list n) (reset_best w) o Ho)
    as (r1 & w' & o' & Hrun & Ho' & Hr).
  rewrite Hrun. cbn [fst snd]. split; [exact Hr|].
  intros Hbm Htest.
  destruct (evaluate_run _ _ _ network criterion bptt w' model o' test_data
              Ho' bptt_pos Htest) as (w2 & Ev).
  rewrite run_test_result, Hbm, Ev. cbn [fst bind].
  unfold math_exp. destruct (exp_overflows _); cbn [bind].
  - now right.
  - left. eexists. reflexivity.
Qed.

End RunFailures.

Lemma run_raises_only_overflow_witness :
  fst (run_epochs Toy.network (Toy.criterion ToyRun.loss_at) Toy.sgd_step
                  (Toy.column 3) (Toy.column 2) 2 (Z.of_nat 3) Toy.world0)
  = Ok tt
  \/ fst (run_epochs Toy.network (Toy.criterion ToyRun.loss_at) Toy.sgd_step
                     (Toy.column 3) (Toy.column 2) 2 (Z.of_nat 3) Toy.world0)
     = Raise OverflowError.
Proof.
  exact (proj1 (run_raises_only_overflow Z unit Z Toy.network
                  (Toy.criterion ToyRun.loss_at) Toy.sgd_step (Toy.column 3)
                  (Toy.column 2) (Toy.column 2) 2 ltac:(lia)
                  ltac:(discriminate) 3 Toy.world0
                  (mkModel None true Toy.no_table 0) eq_refl)).
Defined.
